(** * Opening trainer frontend: shallow embedding and verified properties

    The development embeds the JavaScript frontend of the opening trainer:
    - [static/script-cg.js]: the Chessground brush table and
      [getChessgroundBrush];
    - [temp_move_stats.js] and [chesscom_test.js]: the move statistics
      renderers;
    - the node-id based frontend logic (application state, navigation,
      training helpers, learning statistics).

    JavaScript numbers that hold counts are integers ([Z]).  A finite
    double is the rational it denotes ([Q]); where the code computes with
    numbers, each operation rounds to the nearest double ([JS.fl]).  A
    field that may be missing ([undefined] or [null]) is an [option]; an
    id field has its own type [NodeId].  Asynchronous functions are run
    one at a time: each [await] is a step of a state-and-exception monad
    over the application state, the board, the page and the backend.  An
    [async] function called without [await] runs to its first [await],
    so a request it makes goes out at once.  A call handed to
    [setTimeout] is recorded when it is set and run as an event of its
    own ([fire]).

    The backend is not part of these sources.  The frontend functions are
    defined for any backend, given as a function from a request and the
    backend's state to a reply and a new state; the training-session
    endpoints are, in addition, modelled from the specification in
    [Backend]. *)

From stdpp Require Import gmap strings list pretty.
From Stdlib Require Import Ascii QArith Qabs Qround Qpower Lia Lqa SpecFloat.

Local Open Scope string_scope.

(* ===================================================================== *)
(** ** JavaScript helpers                                                *)
(* ===================================================================== *)

Module JS.

(** [x || 0] for a numeric field that may be missing: [undefined], [null]
    and [0] all give [0]. *)
Definition num_or0 (x : option Z) : Z := default 0%Z x.

(** [x || 0] for a rational field. *)
Definition rate_or0 (x : option Q) : Q := default 0%Q x.

(** [x || d] for a string field: [undefined], [null] and the empty string
    are falsy. *)
Definition str_or (d : string) (x : option string) : string :=
  match x with
  | Some s => if bool_decide (s = "") then d else s
  | None => d
  end.

(** [Math.round]: the nearest integer, ties towards plus infinity. *)
Definition Math_round (x : Q) : Z := Qfloor (x + (1 # 2)).

(** *** Doubles

    The arithmetic of the renderers is that of IEEE 754 binary64 numbers:
    53 bits of precision, least exponent -1074, every operation rounded to
    the nearest double, ties to the even one.  A finite double is the
    rational it denotes; overflow to [Infinity] is not modelled. *)

(** The exponent of the binade of a positive rational:
    [2^(ilog2 q) <= q < 2^(ilog2 q + 1)]. *)
Definition ilog2 (q : Q) : Z :=
  let k := (Z.log2 (Qnum q) - Z.log2 (Zpos (Qden q)))%Z in
  if Qle_bool (2 ^ k) q then k else (k - 1)%Z.

(** The nearest integer, ties to the even one. *)
Definition round_half_even (x : Q) : Z :=
  let f := Qfloor x in
  match Qcompare (x - inject_Z f) (1 # 2) with
  | Lt => f
  | Gt => (f + 1)%Z
  | Eq => if Z.even f then f else (f + 1)%Z
  end.

(** The double nearest to a rational. *)
Definition fl (q : Q) : Q :=
  if Qeq_bool q 0 then 0
  else
    let e := Z.max (ilog2 (Qabs q) - 52) (-1074) in
    inject_Z (round_half_even (q / 2 ^ e)) * 2 ^ e.

(** An integer as [JSON.parse] delivers it, and the quotient and the
    product of two doubles. *)
Definition double_of_Z (z : Z) : Q := fl (inject_Z z).
Definition fdiv (a b : Q) : Q := fl (a / b).
Definition fmul (a b : Q) : Q := fl (a * b).

(** Half a unit in the last place of a double in [[1, 2)]: [2^-53], the
    largest relative error of one rounding; and the relative error of two
    roundings, [(1 + 2^-53)^2 - 1]. *)
Definition u53 : Q := 1 # 9007199254740992.
Definition two_roundings : Q :=
  Eval vm_compute in Qred (2 * u53 + u53 * u53).

(** [x.toFixed(1)]: the sign, then the integer [n] nearest to [10 * |x|]
    (the larger one on a tie) printed with one digit after the point. *)
Definition toFixed1 (x : Q) : string :=
  let n := Qfloor (Qabs x * 10 + (1 # 2)) in
  (if Qlt_le_dec x 0 then "-" else "")
    +:+ pretty (n / 10)%Z +:+ "." +:+ pretty (n mod 10)%Z.

(** ASCII part of [String.prototype.toLowerCase]. *)
Definition lower_ascii (c : ascii) : ascii :=
  let n := nat_of_ascii c in
  if (65 <=? n)%nat && (n <=? 90)%nat then ascii_of_nat (n + 32) else c.

Fixpoint toLowerCase (s : string) : string :=
  match s with
  | EmptyString => EmptyString
  | String c r => String (lower_ascii c) (toLowerCase r)
  end.

(** [s.startsWith(p)]. *)
Definition startsWith (s p : string) : bool := String.prefix p s.

(** [s.substring(a, b)] for [0 <= a <= b]. *)
Definition substring (a b : nat) (s : string) : string :=
  String.substring a (Nat.min b (String.length s) - a) s.

(** The names every object literal inherits from [Object.prototype]
    (ECMAScript, with the legacy accessors of Annex B).  Each of them is
    a function, except [__proto__], which is the prototype object; all
    are truthy. *)
Definition ObjectPrototype : list string :=
  [ "constructor"; "hasOwnProperty"; "isPrototypeOf";
    "propertyIsEnumerable"; "toLocaleString"; "toString"; "valueOf";
    "__defineGetter__"; "__defineSetter__"; "__lookupGetter__";
    "__lookupSetter__"; "__proto__" ].

(** What reading [obj[key]] gives when [obj] is an object literal whose
    own properties are strings. *)
Inductive PropValue :=
| PStr (s : string)           (* an own property *)
| PInherited (member : string) (* a member of [Object.prototype] *)
| PUndefined.

Fixpoint own_property (own : list (string * string)) (k : string)
  : option string :=
  match own with
  | [] => None
  | (k', v) :: rest => if bool_decide (k' = k) then Some v
                       else own_property rest k
  end.

(** [obj[key]]: own properties first, then the prototype chain. *)
Definition get_property (own : list (string * string)) (k : string)
  : PropValue :=
  match own_property own k with
  | Some v => PStr v
  | None => if bool_decide (k ∈ ObjectPrototype) then PInherited k
            else PUndefined
  end.

Definition truthy (v : PropValue) : bool :=
  match v with
  | PStr s => negb (bool_decide (s = ""))
  | PInherited _ => true
  | PUndefined => false
  end.

#[global] Instance PropValue_eq_dec : EqDecision PropValue.
Proof. solve_decision. Defined.

End JS.

(* ===================================================================== *)
(** ** Moves as the backend sends them                                   *)
(* ===================================================================== *)

(** A move object.  Every field may be missing. *)
Record Move := {
  mv_uci : option string;
  mv_san : option string;
  mv_color : option string;
  mv_games : option Z;
  mv_wins : option Z;
  mv_draws : option Z;
  mv_losses : option Z;
  mv_win_rate : option Q;
  mv_draw_rate : option Q;
  mv_lose_rate : option Q;
  mv_avg_elo_diff : option Q;
  mv_opacity : option Q;
  mv_thickness : option Q;
  mv_is_in_repertoire : option bool
}.

(** A move that carries only counts. *)
Definition count_move (games wins draws losses : Z) : Move :=
  {| mv_uci := None; mv_san := None; mv_color := None;
     mv_games := Some games; mv_wins := Some wins;
     mv_draws := Some draws; mv_losses := Some losses;
     mv_win_rate := None; mv_draw_rate := None; mv_lose_rate := None;
     mv_avg_elo_diff := None; mv_opacity := None; mv_thickness := None;
     mv_is_in_repertoire := None |}.

(** A move of the arrow layer: uci, bucket colour and games count. *)
Definition arrow_move (uci color : string) (games : Z) : Move :=
  {| mv_uci := Some uci; mv_san := None; mv_color := Some color;
     mv_games := Some games; mv_wins := None;
     mv_draws := None; mv_losses := None;
     mv_win_rate := None; mv_draw_rate := None; mv_lose_rate := None;
     mv_avg_elo_diff := None; mv_opacity := None; mv_thickness := None;
     mv_is_in_repertoire := None |}.

(** A move of the arrow layer that also carries the opacity and the
    thickness the backend computed for it. *)
Definition weighted_move (uci color : string) (games : Z)
    (opacity thickness : Q) : Move :=
  {| mv_uci := Some uci; mv_san := None; mv_color := Some color;
     mv_games := Some games; mv_wins := None;
     mv_draws := None; mv_losses := None;
     mv_win_rate := None; mv_draw_rate := None; mv_lose_rate := None;
     mv_avg_elo_diff := None; mv_opacity := Some opacity;
     mv_thickness := Some thickness; mv_is_in_repertoire := None |}.

(** A move of which only the uci string and the SAN are known. *)
Definition uci_move (uci san : string) : Move :=
  {| mv_uci := Some uci; mv_san := Some san; mv_color := None;
     mv_games := None; mv_wins := None;
     mv_draws := None; mv_losses := None;
     mv_win_rate := None; mv_draw_rate := None; mv_lose_rate := None;
     mv_avg_elo_diff := None; mv_opacity := None; mv_thickness := None;
     mv_is_in_repertoire := None |}.

(* ===================================================================== *)
(** ** static/script-cg.js: brushes                                      *)
(* ===================================================================== *)

Module Brush.
Import JS.

Record BrushDef := {
  key : string;
  color : string;
  opacity : Q;
  lineWidth : Z
}.

(** [config.drawable.brushes]. *)
Definition brushes : list (string * BrushDef) :=
  [ ("excellent",  {| key := "excellent";  color := "#4caf50"; opacity := 1; lineWidth := 6 |});
    ("good",       {| key := "good";       color := "#8bc34a"; opacity := 1; lineWidth := 6 |});
    ("average",    {| key := "average";    color := "#ffeb3b"; opacity := 1; lineWidth := 6 |});
    ("below",      {| key := "below";      color := "#ff9800"; opacity := 1; lineWidth := 6 |});
    ("poor",       {| key := "poor";       color := "#f44336"; opacity := 1; lineWidth := 6 |});
    ("nodata",     {| key := "nodata";     color := "#9e9e9e"; opacity := 1; lineWidth := 4 |});
    ("repertoire", {| key := "repertoire"; color := "#4caf50"; opacity := 1; lineWidth := 8 |}) ].

Fixpoint brush_named (tbl : list (string * BrushDef)) (name : string)
  : option BrushDef :=
  match tbl with
  | [] => None
  | (n, b) :: rest => if bool_decide (n = name) then Some b
                      else brush_named rest name
  end.

(** The object literal [colorToBrush]. *)
Definition colorToBrush : list (string * string) :=
  [ ("#4caf50", "excellent");
    ("#8bc34a", "good");
    ("#ffeb3b", "average");
    ("#ff9800", "below");
    ("#f44336", "poor");
    ("#9e9e9e", "nodata") ].

(** [getChessgroundBrush(backendColor, isRepertoire)]. *)
Definition getChessgroundBrush (backendColor : string)
    (isRepertoire : bool) : PropValue :=
  if isRepertoire then PStr "repertoire"
  else
    let result := get_property colorToBrush backendColor in
    if truthy result then result else PStr "nodata".

(** The six bucket colours, in the order of the table. *)
Definition bucket_colors : list string := colorToBrush.*1.

(** A colour string as the backend writes it: it starts with [#]. *)
Definition is_hex_color (c : string) : bool := startsWith c "#".

End Brush.

(* ===================================================================== *)
(** ** temp_move_stats.js and chesscom_test.js: statistics renderers     *)
(* ===================================================================== *)

Module MoveStats.
Import JS.

(** One [div] appended by [addBarSegment] / [addChessComSegment]. *)
Record Segment := {
  seg_width : Q;             (* [width: p%] *)
  seg_background : string;
  seg_border : string;
  seg_title : string
}.

(** The [div] a bar renderer returns: the style properties the renderer
    overrides, its [aria-label] and its children. *)
Record Bar := {
  bar_background : option string;
  bar_border : string;
  bar_aria_label : option string;
  bar_segments : list Segment
}.

(** The percentages of [createCompactStatsBar]: [(x / games) * 100],
    a division and a multiplication of doubles. *)
Definition percent (x games : Z) : Q :=
  fmul (fdiv (double_of_Z x) (double_of_Z games)) 100.

(** The same percentage without rounding. *)
Definition exact_percent (x games : Z) : Q :=
  100 * inject_Z x / inject_Z games.

Definition winPercent (m : Move) : Q :=
  percent (num_or0 (mv_wins m)) (num_or0 (mv_games m)).
Definition drawPercent (m : Move) : Q :=
  percent (num_or0 (mv_draws m)) (num_or0 (mv_games m)).
Definition lossPercent (m : Move) : Q :=
  percent (num_or0 (mv_losses m)) (num_or0 (mv_games m)).

(** [addBarSegment] called under the guard [percentage > 0]. *)
Definition addBarSegment (p : Q) (bg border title : string)
    (segs : list Segment) : list Segment :=
  if Qlt_le_dec 0 p
  then segs ++ [ {| seg_width := p; seg_background := bg;
                    seg_border := border; seg_title := title |} ]
  else segs.

Definition no_data_bar (label : option string) : Bar :=
  {| bar_background := Some "#f8f9fa";
     bar_border := "1px dashed #ccc";
     bar_aria_label := label;
     bar_segments := [] |}.

(** [MoveStatsRenderer.createCompactStatsBar(move)]. *)
Definition createCompactStatsBar (m : Move) : Bar :=
  let games := num_or0 (mv_games m) in
  let wins := num_or0 (mv_wins m) in
  let draws := num_or0 (mv_draws m) in
  let losses := num_or0 (mv_losses m) in
  if bool_decide (games = 0%Z)
  then no_data_bar (Some "Keine Spieldaten verfügbar")
  else
    let total := (wins + draws + losses)%Z in
    if bool_decide (total = 0%Z) then no_data_bar None
    else
      let w := winPercent m in
      let d := drawPercent m in
      let l := lossPercent m in
      let segs :=
        addBarSegment l "#333333" "none"
          ("Niederlagen: " +:+ pretty losses +:+ " ("
             +:+ pretty (Math_round l) +:+ "%)")
        (addBarSegment d "#888888" "none"
          ("Remis: " +:+ pretty draws +:+ " ("
             +:+ pretty (Math_round d) +:+ "%)")
        (addBarSegment w "#ffffff" "1px solid #999"
          ("Siege: " +:+ pretty wins +:+ " ("
             +:+ pretty (Math_round w) +:+ "%)") [])) in
      {| bar_background := None;
         bar_border := "1px solid #ccc";
         bar_aria_label :=
           Some ("Statistik: " +:+ pretty (Math_round w) +:+ "% Siege, "
                   +:+ pretty (Math_round d) +:+ "% Remis, "
                   +:+ pretty (Math_round l) +:+ "% Niederlagen");
         bar_segments := segs |}.

(** The values [MoveStatsRenderer.createMoveButton(move)] puts into the
    [aria-label] of the button, in the order of the template
    [Zug san, games Spiele gespielt, winPercent% Siegrate, ELO-Differenz
    eloDiff]. *)
Record ButtonLabel := {
  label_san : string;
  label_games : Z;
  label_winPercent : Z;
  label_eloDiff : Q
}.

Definition createMoveButton_label (m : Move) : ButtonLabel :=
  let games := num_or0 (mv_games m) in
  let winPercent :=
    if bool_decide (0 < games)%Z
    then Math_round (percent (num_or0 (mv_wins m)) games)
    else 0%Z in
  {| label_san := str_or "?" (mv_san m);
     label_games := games;
     label_winPercent := winPercent;
     label_eloDiff := rate_or0 (mv_avg_elo_diff m) |}.

(** The phrase of that label that gives the win rate. *)
Definition label_win_rate (l : ButtonLabel) : string :=
  pretty (label_winPercent l) +:+ "% Siegrate".

(** The total width of the segments of a bar. *)
Definition total_width (b : Bar) : Q :=
  foldr (fun s acc => seg_width s + acc) 0 (bar_segments b).

(** [ChessComMoveStatsTest.addChessComSegment]. *)
Definition addChessComSegment (p : Q) (bg : string)
    (segs : list Segment) : list Segment :=
  if Qlt_le_dec 0 p
  then segs ++ [ {| seg_width := p; seg_background := bg;
                    seg_border := ""; seg_title := "" |} ]
  else segs.

(** [ChessComMoveStatsTest.createChessComBar(move)]. *)
Definition createChessComBar (m : Move) : Bar :=
  let games := num_or0 (mv_games m) in
  if bool_decide (games = 0%Z)
  then {| bar_background := Some "#f5f5f5";
          bar_border := "1px dashed #ccc";
          bar_aria_label := None;
          bar_segments := [] |}
  else
    {| bar_background := Some "#e5e5e5";
       bar_border := "";
       bar_aria_label := None;
       bar_segments :=
         addChessComSegment (rate_or0 (mv_lose_rate m)) "#e57373"
           (addChessComSegment (rate_or0 (mv_draw_rate m)) "#ffb74d"
              (addChessComSegment (rate_or0 (mv_win_rate m)) "#81c784" [])) |}.

(** [ChessComMoveStatsTest.createWinrateDisplay(move)]: the text of the
    span.  The test is [move.games === 0], so a missing count is not
    caught by it. *)
Definition createWinrateDisplay (m : Move) : string :=
  let winPercent := rate_or0 (mv_win_rate m) in
  if bool_decide (mv_games m = Some 0%Z) then "–"
  else pretty (Math_round winPercent) +:+ "%".

(** The [stats] object of the position panel. *)
Record PositionStats := {
  ps_played : option Z;
  ps_win_rate : option Q
}.

(** The two interpolated texts of the panel that [updatePositionStats]
    writes: what follows [Games:] and what follows [Win Rate:]. *)
Record StatsPanel := {
  panel_games : string;
  panel_win_rate : string
}.

(** [updatePositionStats(stats)] on an existing [statsContent] element:
    [None] when [stats] is missing and nothing is written. *)
Definition updatePositionStats (stats : option PositionStats)
  : option StatsPanel :=
  match stats with
  | None => None
  | Some st =>
      Some {| panel_games := pretty (num_or0 (ps_played st));
              panel_win_rate :=
                toFixed1 (rate_or0 (ps_win_rate st)) +:+ "%" |}
  end.

(** The percentage span of one entry of [updateMovesList]. *)
Definition movesListPercentage (m : Move) : string :=
  toFixed1 (rate_or0 (mv_win_rate m)) +:+ "%".

End MoveStats.

(* ===================================================================== *)
(** ** Move arrows                                                       *)
(* ===================================================================== *)

Module Arrows.
Import JS Brush.

(** A Chessground shape as the frontend builds it. *)
Record Shape := {
  orig : string;
  dest : string;
  brush : PropValue;
  system : bool
}.

Definition in_range (lo hi : nat) (c : ascii) : bool :=
  let n := nat_of_ascii c in (lo <=? n)%nat && (n <=? hi)%nat.

(** [isValidSquare(square)]: two characters, file a-h (after lowering),
    rank 1-8. *)
Definition isValidSquare (square : string) : bool :=
  match square with
  | String f (String r EmptyString) =>
      in_range 97 104 (lower_ascii f) && in_range 49 56 r
  | _ => false
  end.

(** The body of the [forEach] of [showAvailableMovesArrows]: the arrow
    of one move, if its uci gives two valid squares. *)
Definition arrow_of_move (currentPlayer : option string) (m : Move)
  : option Shape :=
  let uci := str_or "" (mv_uci m) in
  let fromSquare := substring 0 2 uci in
  let toSquare := substring 2 4 uci in
  if negb (bool_decide (uci = ""))
     && negb (bool_decide (fromSquare = ""))
     && negb (bool_decide (toSquare = ""))
     && isValidSquare fromSquare && isValidSquare toSquare
  then
    let backendColor := str_or "#9e9e9e" (mv_color m) in
    let brushName :=
      getChessgroundBrush backendColor
        (bool_decide (currentPlayer = Some "My Repertoire")) in
    Some {| orig := fromSquare; dest := toSquare;
            brush := brushName; system := true |}
  else None.

Definition newArrows (currentPlayer : option string) (moves : list Move)
  : list Shape :=
  omap (arrow_of_move currentPlayer) moves.

(** How Chessground draws a shape: with the brush of that name from
    [config.drawable.brushes]. *)
Definition rendered (s : Shape) : option BrushDef :=
  match brush s with
  | PStr name => brush_named brushes name
  | _ => None
  end.

Definition rendered_opacity (s : Shape) : option Q :=
  opacity <$> rendered s.
Definition rendered_thickness (s : Shape) : option Z :=
  lineWidth <$> rendered s.

End Arrows.

(* ===================================================================== *)
(** ** temp_move_stats.js and chesscom_test.js: the ELO difference       *)
(* ===================================================================== *)

Module EloDisplay.
Import JS.

(** The [span] an ELO renderer returns: its text, its colour and its
    [title], if it sets one. *)
Record EloSpan := {
  elo_text : string;
  elo_color : string;
  elo_title : option string
}.

(** [MoveStatsRenderer.createEloDisplay(move)].  The guard
    [!eloDiff || isNaN(eloDiff)] holds for a missing and for a zero
    difference (a number that came out of JSON is never [NaN]). *)
Definition createEloDisplay (m : Move) : EloSpan :=
  match mv_avg_elo_diff m with
  | Some eloDiff =>
      if Qeq_bool eloDiff 0
      then {| elo_text := "–"; elo_color := "#bdc3c7";
              elo_title := Some "Keine ELO-Daten verfügbar" |}
      else
        let clampedDiff := Z.min (Z.max (Math_round eloDiff) (-999)) 999 in
        {| elo_text :=
             if (0 <? clampedDiff)%Z then "+" +:+ pretty clampedDiff
             else pretty clampedDiff;
           elo_color :=
             if (0 <? clampedDiff)%Z then "#27ae60"
             else if (clampedDiff <? 0)%Z then "#e74c3c"
             else "#7f8c8d";
           elo_title :=
             Some ("Durchschnittliche ELO-Differenz: "
                     +:+ (if (0 <? clampedDiff)%Z then "+" else "")
                     +:+ pretty clampedDiff) |}
  | None => {| elo_text := "–"; elo_color := "#bdc3c7";
               elo_title := Some "Keine ELO-Daten verfügbar" |}
  end.

(** [ChessComMoveStatsTest.createCompactEloDisplay(move)]: the same
    guard, no clamping and no [title]. *)
Definition createCompactEloDisplay (m : Move) : EloSpan :=
  match mv_avg_elo_diff m with
  | Some eloDiff =>
      if Qeq_bool eloDiff 0
      then {| elo_text := "–"; elo_color := "#bbb"; elo_title := None |}
      else
        let rounded := Math_round eloDiff in
        {| elo_text :=
             if (0 <? rounded)%Z then "+" +:+ pretty rounded
             else pretty rounded;
           elo_color :=
             if (0 <? rounded)%Z then "#4caf50"
             else if (rounded <? 0)%Z then "#f44336"
             else "#757575";
           elo_title := None |}
  | None => {| elo_text := "–"; elo_color := "#bbb"; elo_title := None |}
  end.

End EloDisplay.

(* ===================================================================== *)
(** ** Frontend logic: data                                              *)
(* ===================================================================== *)

(** The value of an id field: a JSON scalar, or nothing ([null],
    [undefined]). *)
Inductive NodeId :=
| NoId
| IdNum (n : Z)
| IdStr (s : string).

#[global] Instance NodeId_eq_dec : EqDecision NodeId.
Proof. solve_decision. Defined.

#[global] Instance NodeId_countable : Countable NodeId.
Proof.
  refine (inj_countable'
            (fun i => match i with
                      | NoId => inl ()
                      | IdNum n => inr (inl n)
                      | IdStr s => inr (inr s)
                      end)
            (fun x => match x with
                      | inl _ => NoId
                      | inr (inl n) => IdNum n
                      | inr (inr s) => IdStr s
                      end) _).
  intros []; reflexivity.
Defined.

(** Truthiness of an id: nothing, [0] and the empty string are falsy. *)
Definition id_set (i : NodeId) : bool :=
  match i with
  | NoId => false
  | IdNum n => negb (bool_decide (n = 0%Z))
  | IdStr s => negb (bool_decide (s = ""))
  end.

(** [x || null]. *)
Definition id_or_null (x : NodeId) : NodeId :=
  if id_set x then x else NoId.

(** A child entry of a node: [node.children[uci]]. *)
Record Child := {
  ch_move_san : option string;
  ch_color : option string;
  ch_games : option Z;
  ch_win_rate : option Q
}.

(** A node object as [/api/get_child_node] returns it. *)
Record Node := {
  nd_id : NodeId;
  nd_fen : option string;
  nd_parent_id : NodeId;
  nd_children : option (list (string * Child));
  nd_games : option Z;
  nd_win_rate : option Q
}.

(** The JSON object of a response body, with the fields the frontend
    reads.  [success], [newly_learned] and [was_learned] stand for the
    truthiness of the field. *)
Record Data := {
  success : bool;
  child : option Node;
  node_id : NodeId;
  moves : option (list Move);
  position : option string;
  mistake_count : option Z;
  newly_learned : bool;
  was_learned : bool;
  directly_learned_node_ids : option (list NodeId)
}.

Definition failure : Data :=
  {| success := false; child := None; node_id := NoId; moves := None;
     position := None; mistake_count := None; newly_learned := false;
     was_learned := false; directly_learned_node_ids := None |}.

Definition ok : Data :=
  {| success := true; child := None; node_id := NoId; moves := None;
     position := None; mistake_count := None; newly_learned := false;
     was_learned := false; directly_learned_node_ids := None |}.

(** The requests the frontend sends. *)
Inductive Request :=
| ProcessGames (player color : string)
| FindMoves (fen : option string) (player : option string) (color : string)
| GetChildNode (node : NodeId) (move_san : option string)
               (save_switch_active : bool)
| MarkStudied (node : NodeId) (session : option string)
| GetUnstudiedMoves (session : option string) (position_fen : string)
| GetProgress (session : option string)
| GetLearningStats (session : option string)
| MarkDirectlyLearned (node : NodeId) (session : option string)
| UnmarkDirectlyLearned (node : NodeId) (session : option string)
| RecordMistake (session : option string).

(** What a request comes back with. *)
Inductive Reply :=
| Rejects              (* [fetch] rejects: network error *)
| NotJson              (* [response.json()] rejects *)
| JsonNull             (* the body is [null]: reading a field throws *)
| Json (d : Data).

(** Exceptions. *)
Inductive Exn :=
| NetworkError
| SyntaxError
| TypeError
| ReferenceError
| Error (msg : string).

(** One entry of [appState.trainingHistory]. *)
Record HistoryEntry := {
  h_position : option string;
  h_move : string;
  h_correct : bool
}.

(** [appState], with the fields the functions below read or write.  The
    two JavaScript [Set]s are finite sets: membership and size are kept,
    the insertion order is not.  [games] and [win_rate] are the two fields
    [updateAppStateWithNode] adds. *)
Record AppState := {
  currentPlayer : option string;
  currentColor : string;
  currentPosition : option string;
  availableMoves : list Move;
  isNavigating : bool;
  boardOrientation : string;
  currentNodeId : NodeId;
  currentNodeParentId : NodeId;
  currentArrows : list Move;
  trainingMode : bool;
  isOpponentTurn : bool;
  trainingHistory : list HistoryEntry;
  trainingSessionId : option string;
  studiedNodes : gset NodeId;
  unstudiedMovesOnly : bool;
  directlyLearnedNodes : gset NodeId;
  mistakeCount : option Z;
  games : option Z;
  win_rate : option Q
}.

Definition DEFAULT_FEN : string :=
  "rnbqkbnr/pppppppp/8/8/8/8/PPPPPPPP/RNBQKBNR w KQkq - 0 1".

(** The initial [appState]. *)
Definition initialAppState : AppState :=
  {| currentPlayer := None; currentColor := "white";
     currentPosition := Some DEFAULT_FEN; availableMoves := [];
     isNavigating := false; boardOrientation := "white";
     currentNodeId := NoId; currentNodeParentId := NoId;
     currentArrows := []; trainingMode := false; isOpponentTurn := false;
     trainingHistory := []; trainingSessionId := None;
     studiedNodes := ∅; unstudiedMovesOnly := true;
     directlyLearnedNodes := ∅; mistakeCount := Some 0%Z;
     games := None; win_rate := None |}.

(** Assignments to single fields. *)
Definition set_currentPlayer (v : option string) (a : AppState) : AppState :=
  let 'Build_AppState _ f2 f3 f4 f5 f6 f7 f8 f9 f10 f11 f12 f13 f14 f15 f16 f17 f18 f19 := a in
  Build_AppState v f2 f3 f4 f5 f6 f7 f8 f9 f10 f11 f12 f13 f14 f15 f16 f17 f18 f19.
Definition set_currentColor (v : string) (a : AppState) : AppState :=
  let 'Build_AppState f1 _ f3 f4 f5 f6 f7 f8 f9 f10 f11 f12 f13 f14 f15 f16 f17 f18 f19 := a in
  Build_AppState f1 v f3 f4 f5 f6 f7 f8 f9 f10 f11 f12 f13 f14 f15 f16 f17 f18 f19.
Definition set_currentPosition (v : option string) (a : AppState) : AppState :=
  let 'Build_AppState f1 f2 _ f4 f5 f6 f7 f8 f9 f10 f11 f12 f13 f14 f15 f16 f17 f18 f19 := a in
  Build_AppState f1 f2 v f4 f5 f6 f7 f8 f9 f10 f11 f12 f13 f14 f15 f16 f17 f18 f19.
Definition set_availableMoves (v : list Move) (a : AppState) : AppState :=
  let 'Build_AppState f1 f2 f3 _ f5 f6 f7 f8 f9 f10 f11 f12 f13 f14 f15 f16 f17 f18 f19 := a in
  Build_AppState f1 f2 f3 v f5 f6 f7 f8 f9 f10 f11 f12 f13 f14 f15 f16 f17 f18 f19.
Definition set_isNavigating (v : bool) (a : AppState) : AppState :=
  let 'Build_AppState f1 f2 f3 f4 _ f6 f7 f8 f9 f10 f11 f12 f13 f14 f15 f16 f17 f18 f19 := a in
  Build_AppState f1 f2 f3 f4 v f6 f7 f8 f9 f10 f11 f12 f13 f14 f15 f16 f17 f18 f19.
Definition set_currentNodeId (v : NodeId) (a : AppState) : AppState :=
  let 'Build_AppState f1 f2 f3 f4 f5 f6 _ f8 f9 f10 f11 f12 f13 f14 f15 f16 f17 f18 f19 := a in
  Build_AppState f1 f2 f3 f4 f5 f6 v f8 f9 f10 f11 f12 f13 f14 f15 f16 f17 f18 f19.
Definition set_currentNodeParentId (v : NodeId) (a : AppState) : AppState :=
  let 'Build_AppState f1 f2 f3 f4 f5 f6 f7 _ f9 f10 f11 f12 f13 f14 f15 f16 f17 f18 f19 := a in
  Build_AppState f1 f2 f3 f4 f5 f6 f7 v f9 f10 f11 f12 f13 f14 f15 f16 f17 f18 f19.
Definition set_currentArrows (v : list Move) (a : AppState) : AppState :=
  let 'Build_AppState f1 f2 f3 f4 f5 f6 f7 f8 _ f10 f11 f12 f13 f14 f15 f16 f17 f18 f19 := a in
  Build_AppState f1 f2 f3 f4 f5 f6 f7 f8 v f10 f11 f12 f13 f14 f15 f16 f17 f18 f19.
Definition set_trainingMode (v : bool) (a : AppState) : AppState :=
  let 'Build_AppState f1 f2 f3 f4 f5 f6 f7 f8 f9 _ f11 f12 f13 f14 f15 f16 f17 f18 f19 := a in
  Build_AppState f1 f2 f3 f4 f5 f6 f7 f8 f9 v f11 f12 f13 f14 f15 f16 f17 f18 f19.
Definition set_isOpponentTurn (v : bool) (a : AppState) : AppState :=
  let 'Build_AppState f1 f2 f3 f4 f5 f6 f7 f8 f9 f10 _ f12 f13 f14 f15 f16 f17 f18 f19 := a in
  Build_AppState f1 f2 f3 f4 f5 f6 f7 f8 f9 f10 v f12 f13 f14 f15 f16 f17 f18 f19.
Definition set_trainingHistory (v : list HistoryEntry) (a : AppState) : AppState :=
  let 'Build_AppState f1 f2 f3 f4 f5 f6 f7 f8 f9 f10 f11 _ f13 f14 f15 f16 f17 f18 f19 := a in
  Build_AppState f1 f2 f3 f4 f5 f6 f7 f8 f9 f10 f11 v f13 f14 f15 f16 f17 f18 f19.
Definition set_trainingSessionId (v : option string) (a : AppState) : AppState :=
  let 'Build_AppState f1 f2 f3 f4 f5 f6 f7 f8 f9 f10 f11 f12 _ f14 f15 f16 f17 f18 f19 := a in
  Build_AppState f1 f2 f3 f4 f5 f6 f7 f8 f9 f10 f11 f12 v f14 f15 f16 f17 f18 f19.
Definition set_studiedNodes (v : gset NodeId) (a : AppState) : AppState :=
  let 'Build_AppState f1 f2 f3 f4 f5 f6 f7 f8 f9 f10 f11 f12 f13 _ f15 f16 f17 f18 f19 := a in
  Build_AppState f1 f2 f3 f4 f5 f6 f7 f8 f9 f10 f11 f12 f13 v f15 f16 f17 f18 f19.
Definition set_directlyLearnedNodes (v : gset NodeId) (a : AppState) : AppState :=
  let 'Build_AppState f1 f2 f3 f4 f5 f6 f7 f8 f9 f10 f11 f12 f13 f14 f15 _ f17 f18 f19 := a in
  Build_AppState f1 f2 f3 f4 f5 f6 f7 f8 f9 f10 f11 f12 f13 f14 f15 v f17 f18 f19.
Definition set_mistakeCount (v : option Z) (a : AppState) : AppState :=
  let 'Build_AppState f1 f2 f3 f4 f5 f6 f7 f8 f9 f10 f11 f12 f13 f14 f15 f16 _ f18 f19 := a in
  Build_AppState f1 f2 f3 f4 f5 f6 f7 f8 f9 f10 f11 f12 f13 f14 f15 f16 v f18 f19.
Definition set_games (v : option Z) (a : AppState) : AppState :=
  let 'Build_AppState f1 f2 f3 f4 f5 f6 f7 f8 f9 f10 f11 f12 f13 f14 f15 f16 f17 _ f19 := a in
  Build_AppState f1 f2 f3 f4 f5 f6 f7 f8 f9 f10 f11 f12 f13 f14 f15 f16 f17 v f19.
Definition set_win_rate (v : option Q) (a : AppState) : AppState :=
  let 'Build_AppState f1 f2 f3 f4 f5 f6 f7 f8 f9 f10 f11 f12 f13 f14 f15 f16 f17 f18 _ := a in
  Build_AppState f1 f2 f3 f4 f5 f6 f7 f8 f9 f10 f11 f12 f13 f14 f15 f16 f17 f18 v.

(** The Chessground instance [window.cg]: position shown, orientation,
    shapes drawn, and whether [isBoardReady()] holds.  The destinations of
    the legal-move dots ([movable.dests], set by
    [updateLegalMovesFromBackend]) are left out. *)
Record Chessground := {
  cg_fen : string;
  cg_orientation : string;
  cg_shapes : list Arrows.Shape;
  cg_ready : bool
}.

(** Calls handed to [setTimeout]: they are recorded when they are set
    and run as later events ([fire], below). *)
Inductive Timer :=
| RetryRender (fen : option string) (playerColor : string)
| RetryArrows
| RenderCurrentPosition
| PlayOpponentMove
| ReturnToStartPosition
| ShowUnlearnedMovesButton (ms : list Move)
| StartTrainingRender (fen : option string) (playerColor : string).

(** The elements of the page that the functions below look up and whose
    content is not modelled: whether [document.getElementById] finds
    them. *)
Record Page := {
  boardElem : bool;                  (* [#board] *)
  movesList : bool;                  (* [#movesList] *)
  positionInfo : bool                (* [#positionInfo] *)
}.

(** The page as the application serves it. *)
Definition full_page : Page :=
  {| boardElem := true; movesList := true; positionInfo := true |}.

(* ===================================================================== *)
(** ** Frontend logic: the world and its monad                           *)
(* ===================================================================== *)

(** Everything a frontend function can read or change: [appState], the
    board, the page elements it looks up, the backend (a state of type
    [Server]), the requests sent so far and the timers set so far. *)
Record World {Server : Type} := {
  app : AppState;
  cg : option Chessground;           (* [window.cg], if script-cg.js ran *)
  saveSwitch : option bool;          (* [#saveToRepertoireSwitch].checked *)
  learningStats : option string;     (* [#learningStats].innerHTML *)
  server : Server;
  requests : list Request;
  timers : list Timer;
  page : Page
}.
Arguments World : clear implicits.

Section WorldUpdates.
Context {Server : Type}.
Implicit Type w : World Server.

Definition set_app (v : AppState) w : World Server :=
  {| app := v; cg := cg w; saveSwitch := saveSwitch w;
     learningStats := learningStats w; server := server w;
     requests := requests w; timers := timers w; page := page w |}.
Definition set_cg (v : option Chessground) w : World Server :=
  {| app := app w; cg := v; saveSwitch := saveSwitch w;
     learningStats := learningStats w; server := server w;
     requests := requests w; timers := timers w; page := page w |}.
Definition set_learningStats (v : option string) w : World Server :=
  {| app := app w; cg := cg w; saveSwitch := saveSwitch w;
     learningStats := v; server := server w;
     requests := requests w; timers := timers w; page := page w |}.
Definition sent (req : Request) (s : Server) w : World Server :=
  {| app := app w; cg := cg w; saveSwitch := saveSwitch w;
     learningStats := learningStats w; server := s;
     requests := requests w ++ [req]; timers := timers w; page := page w |}.
Definition add_timer (t : Timer) w : World Server :=
  {| app := app w; cg := cg w; saveSwitch := saveSwitch w;
     learningStats := learningStats w; server := server w;
     requests := requests w; timers := timers w ++ [t];
     page := page w |}.
End WorldUpdates.

(** How a call completes: normally with a value, or by throwing. *)
Inductive Completion (A : Type) :=
| Normal (a : A)
| Throw (e : Exn).
Arguments Normal {A} a.
Arguments Throw {A} e.

(** A frontend computation.  State changes made before a throw stay. *)
Definition M (Server A : Type) : Type :=
  World Server -> Completion A * World Server.

#[global] Instance M_ret {Server} : MRet (M Server) :=
  fun A a w => (Normal a, w).

#[global] Instance M_bind {Server} : MBind (M Server) :=
  fun A B f m w =>
    match m w with
    | (Normal a, w') => f a w'
    | (Throw e, w') => (Throw e, w')
    end.

Section Monad.
Context {Server : Type}.

Definition throw {A} (e : Exn) : M Server A := fun w => (Throw e, w).

(** [try { body } catch (e) { handler }]. *)
Definition try_catch {A} (body : M Server A)
    (handler : Exn -> M Server A) : M Server A :=
  fun w =>
    match body w with
    | (Normal a, w') => (Normal a, w')
    | (Throw e, w') => handler e w'
    end.

Definition get_app : M Server AppState := fun w => (Normal (app w), w).
Definition get_cg : M Server (option Chessground) := fun w => (Normal (cg w), w).
Definition assign (f : AppState -> AppState) : M Server unit :=
  fun w => (Normal tt, set_app (f (app w)) w).
Definition cg_set (f : Chessground -> Chessground) : M Server unit :=
  fun w => (Normal tt, set_cg (f <$> cg w) w).
Definition setTimeout (t : Timer) : M Server unit :=
  fun w => (Normal tt, add_timer t w).

(** The final state and the completion of a run. *)
Definition exec {A} (m : M Server A) (w : World Server) : World Server :=
  (m w).2.
Definition result {A} (m : M Server A) (w : World Server) : Completion A :=
  (m w).1.
End Monad.

(** chess.js: a legal move of a position. *)
Record LegalMove := {
  lm_from : string;
  lm_to : string;
  lm_san : string
}.

(* ===================================================================== *)
(** ** Frontend logic: board, navigation and training helpers            *)
(* ===================================================================== *)

Section Frontend.
Context {Server : Type}.

(** The backend: how it answers a request and what state it moves to. *)
Variable serve : Request -> Server -> Reply * Server.

(** chess.js: [new Chess(fen).moves({verbose: true})] and the position
    after [move({from, to})]; [None] when the call throws. *)
Variable chess_moves : option string -> option (list LegalMove).
Variable chess_move : option string -> string -> string -> option string.

Import JS.

(** [await fetch(...)] followed by [await response.json()] and the first
    read of a field of the body.  The request is recorded and the backend
    moves on, whatever comes back. *)
Definition fetch (req : Request) : M Server Data :=
  fun w =>
    let '(r, s) := serve req (server w) in
    let w' := sent req s w in
    match r with
    | Rejects => (Throw NetworkError, w')
    | NotJson => (Throw SyntaxError, w')
    | JsonNull => (Throw TypeError, w')
    | Json d => (Normal d, w')
    end.

(** The [fetch] of an [async] function that was called without [await]:
    the request goes out at once; the reply is read, and the rest of that
    function runs, after the caller has gone on. *)
Definition send (req : Request) : M Server unit :=
  fun w => (Normal tt, sent req (serve req (server w)).2 w).

(** [renderChessBoard(fen, playerColor)]: shows [fen] (or keeps the
    shown position when [fen] is falsy) with the persisted orientation;
    without a Chessground instance it retries from a timer.  Nothing
    escapes its [try]. *)
Definition renderChessBoard (fen : option string) (playerColor : string)
  : M Server unit :=
  c ← get_cg;
  a ← get_app;
  match c with
  | Some _ =>
      cg_set (fun b =>
        {| cg_fen := str_or (cg_fen b) fen;
           cg_orientation := str_or (cg_orientation b) (Some (boardOrientation a));
           cg_shapes := cg_shapes b;
           cg_ready := cg_ready b |})
  | None => setTimeout (RetryRender fen playerColor)
  end.

(** [clearArrows()]: drops the system arrows, keeps the user's shapes. *)
Definition clearArrows : M Server unit :=
  cg_set (fun b =>
    {| cg_fen := cg_fen b; cg_orientation := cg_orientation b;
       cg_shapes := filter (fun s => Arrows.system s = false) (cg_shapes b);
       cg_ready := cg_ready b |}).

(** [isBoardReady()]: there is a Chessground instance, the element
    [#board] is found, and the dimensions of both are valid
    ([cg_ready]). *)
Definition isBoardReady (w : World Server) : bool :=
  match cg w with
  | Some b => boardElem (page w) && cg_ready b
  | None => false
  end.

(** [showAvailableMovesArrows(moves)].  [window.getChessgroundBrush] is
    there whenever [window.cg] is: script-cg.js sets both. *)
Definition showAvailableMovesArrows (moves : list Move) : M Server unit :=
  assign (set_currentArrows moves);;
  clearArrows;;
  a ← get_app;
  if trainingMode a then mret tt
  else if bool_decide (moves = []) then mret tt
  else fun w =>
    if negb (isBoardReady w) then setTimeout RetryArrows w
    else
      cg_set (fun b =>
        {| cg_fen := cg_fen b; cg_orientation := cg_orientation b;
           cg_shapes :=
             filter (fun s => Arrows.system s = false) (cg_shapes b)
               ++ Arrows.newArrows (currentPlayer a) moves;
           cg_ready := cg_ready b |}) w.

(** The move objects [updateAppStateWithNode] builds from
    [Object.entries(node.children)]. *)
Definition moves_of_children (children : list (string * Child))
  : list Move :=
  (fun '(uci, ch) =>
     {| mv_uci := Some uci; mv_san := ch_move_san ch;
        mv_color := ch_color ch; mv_games := ch_games ch;
        mv_wins := None; mv_draws := None; mv_losses := None;
        mv_win_rate := ch_win_rate ch;
        mv_draw_rate := None; mv_lose_rate := None;
        mv_avg_elo_diff := None; mv_opacity := None; mv_thickness := None;
     mv_is_in_repertoire := None |}) <$> children.

Definition repertoireNames : list string :=
  [ "my repertoire"; "white_repertoir"; "black_repertoir" ].

Definition isOwnRepertoire (a : AppState) : bool :=
  bool_decide (toLowerCase (str_or "" (currentPlayer a)) ∈ repertoireNames).

(** [new Chess(fen).moves({verbose: true})] with
    [Chess = window.game.constructor].  [window.game] is set by the
    handler that sets [window.cg], so it is there exactly when the board
    is; without it, reading [constructor] throws. *)
Definition legalMovesOf (fen : option string) : M Server (list LegalMove) :=
  fun w =>
    match cg w with
    | None => (Throw TypeError, w)
    | Some _ =>
        match chess_moves fen with
        | Some ms => (Normal ms, w)
        | None => (Throw (Error "Invalid FEN"), w)
        end
    end.

(** A call of [window.updateLegalMovesFromBackend()].  The destinations
    it hands to [cg.set] are not part of the board here (they are
    computed in [LegalMoves]); what is left is whether the call returns:
    for a repertoire player [new Chess(appState.currentPosition)] throws
    on a position chess.js cannot read.  Inside [renderChessBoard] the
    call is in a [try]; the callers below have none. *)
Definition window_updateLegalMovesFromBackend_call : M Server unit :=
  fun w =>
    match cg w with
    | None => (Normal tt, w)
    | Some _ =>
        if isOwnRepertoire (app w) then
          match chess_moves (currentPosition (app w)) with
          | Some _ => (Normal tt, w)
          | None => (Throw (Error "Invalid FEN"), w)
          end
        else (Normal tt, w)
    end.

(** [ensureChessgroundReady()].  With a board and its element it does
    nothing, and without the element it returns after a warning.  With
    the element and without [window.cg] it goes on to
    [Chessground(boardElem, config)]: [config] is a constant of the
    handler that set up the board and is not in scope here, so evaluating
    the arguments throws and [window.cg] stays unset. *)
Definition ensureChessgroundReady : M Server unit :=
  fun w =>
    match cg w with
    | Some _ => (Normal tt, w)
    | None =>
        if boardElem (page w) then (Throw ReferenceError, w)
        else (Normal tt, w)
    end.

(** [updateAppStateWithNode(node)] for a node object.  [updateMovesList]
    and [updateBackButton] write to the page only. *)
Definition updateAppStateWithNode (node : Node) : M Server unit :=
  ensureChessgroundReady;;
  assign (set_currentNodeId (nd_id node));;
  assign (set_currentPosition (nd_fen node));;
  assign (set_availableMoves
            (default [] (moves_of_children <$> nd_children node)));;
  assign (set_currentNodeParentId (id_or_null (nd_parent_id node)));;
  (if nd_games node is Some g then assign (set_games (Some g)) else mret tt);;
  (if nd_win_rate node is Some r then assign (set_win_rate (Some r)) else mret tt);;
  a ← get_app;
  assign (set_currentArrows (availableMoves a));;
  renderChessBoard (nd_fen node) (currentColor a);;
  showAvailableMovesArrows (availableMoves a);;
  window_updateLegalMovesFromBackend_call.

(** [ensureNodeIdForCurrentPosition()]. *)
Definition ensureNodeIdForCurrentPosition : M Server NodeId :=
  a ← get_app;
  if id_set (currentNodeId a) then mret (currentNodeId a)
  else
    try_catch
      (data ← fetch (FindMoves (currentPosition a) (currentPlayer a)
                               (currentColor a));
       assign (set_currentNodeId (id_or_null (node_id data)));;
       mret (id_or_null (node_id data)))
      (fun _ => assign (set_currentNodeId NoId);; mret NoId).

(** Truthiness of a string argument such as [moveSan]. *)
Definition str_set (s : option string) : bool :=
  match s with Some x => negb (bool_decide (x = "")) | None => false end.

(** [sendMoveToBackend(moveSan)]: the child node, or [null]. *)
Definition sendMoveToBackend (moveSan : option string)
  : M Server (option Node) :=
  a0 ← get_app;
  (if id_set (currentNodeId a0) then mret tt
   else ensureNodeIdForCurrentPosition;; mret tt);;
  a ← get_app;
  if negb (id_set (currentNodeId a)) || negb (str_set moveSan) then mret None
  else fun w =>
    let saveSwitchActive := default false (saveSwitch w) in
    try_catch
      (data ← fetch (GetChildNode (currentNodeId a) moveSan saveSwitchActive);
       match success data, child data with
       | true, Some c =>
           assign (set_currentNodeId (nd_id c));;
           mret (Some c)
       | _, _ => mret None
       end)
      (fun _ => mret None) w.

(** [handleMoveClick(event)], where the event carries the attribute
    [data-move-index]. *)
Definition handleMoveClick (moveIndex : nat) : M Server unit :=
  a ← get_app;
  match availableMoves a !! moveIndex with
  | None => mret tt
  | Some move =>
      try_catch
        (assign (set_isNavigating true);;
         childNode ← sendMoveToBackend (mv_san move);
         match childNode with
         | Some c => updateAppStateWithNode c
         | None => mret tt
         end)
        (fun _ => mret tt);;
      assign (set_isNavigating false)
  end.

(** [markNodeAsStudied(nodeId, sessionId)]. *)
Definition markNodeAsStudied (nodeId : NodeId) (sessionId : option string)
  : M Server bool :=
  try_catch
    (data ← fetch (MarkStudied nodeId sessionId);
     if success data then
       assign (fun a => set_studiedNodes ({[nodeId]} ∪ studiedNodes a) a);;
       mret true
     else mret false)
    (fun _ => mret false).

(** [getUnstudiedMoves(sessionId, positionFen)]: [positionFen.substring]
    and [data.moves.length] are evaluated inside the [try]. *)
Definition getUnstudiedMoves (sessionId : option string)
    (positionFen : option string) : M Server (list Move) :=
  try_catch
    (match positionFen with
     | None => throw TypeError
     | Some fen =>
         data ← fetch (GetUnstudiedMoves sessionId fen);
         if success data then
           match moves data with
           | Some ms => mret ms
           | None => throw TypeError
           end
         else mret []
     end)
    (fun _ => mret []).

(** [checkMoveInRepertoire(moveSan)]. *)
Definition checkMoveInRepertoire (moveSan : string) : M Server bool :=
  a ← get_app;
  mret (existsb (fun m => bool_decide (mv_san m = Some moveSan))
                (availableMoves a)).

(** [getLearningProgress(sessionId)], awaited: one request, and nothing
    escapes its [try].  The progress it returns is shown on the page and
    used for nothing else. *)
Definition getLearningProgress (sessionId : option string)
  : M Server unit :=
  try_catch (fetch (GetProgress sessionId);; mret tt) (fun _ => mret tt).

(** [updateTrainingStatus()].  Every caller calls it without [await], so
    it runs to its first [await]: in training mode, with [#movesList] on
    the page and a session id, that is the [fetch] of
    [getLearningProgress], which goes out at once.  What follows the
    [await] writes the status into [#movesList] when the reply is
    there. *)
Definition updateTrainingStatus : M Server unit :=
  fun w =>
    if trainingMode (app w) && movesList (page w)
       && str_set (trainingSessionId (app w))
    then send (GetProgress (trainingSessionId (app w))) w
    else (Normal tt, w).

(** The filter [m.is_in_repertoire !== false]. *)
Definition own_moves (ms : list Move) : list Move :=
  filter (fun m => mv_is_in_repertoire m ≠ Some false) ms.

Definition find_legal (from to : string) (legal : list LegalMove)
  : option LegalMove :=
  List.find (fun m => bool_decide (lm_from m = from)
                      && bool_decide (lm_to m = to)) legal.

(** [playOpponentMove()]; [randomIndex] is
    [Math.floor(Math.random() * availableMoves.length)]. *)
Definition playOpponentMove (randomIndex : nat) : M Server unit :=
  a ← get_app;
  if negb (trainingMode a) || negb (isOpponentTurn a) then mret tt
  else
    try_catch
      (ms ← (if str_set (trainingSessionId a) && unstudiedMovesOnly a
             then getUnstudiedMoves (trainingSessionId a) (currentPosition a)
             else mret (availableMoves a));
       if bool_decide (ms = []) then
         (if id_set (currentNodeId a) && str_set (trainingSessionId a)
          then markNodeAsStudied (currentNodeId a) (trainingSessionId a);;
               mret tt
          else mret tt);;
         setTimeout ReturnToStartPosition
       else
         match ms !! randomIndex with
         | None => throw TypeError
         | Some selectedMove =>
             childNode ← sendMoveToBackend (mv_san selectedMove);
             match childNode with
             | Some c =>
                 updateAppStateWithNode c;;
                 assign (set_isOpponentTurn false);;
                 updateTrainingStatus
             | None => mret tt
             end
         end)
      (fun _ => mret tt).

(** The part of [handleTrainingMove] after a move was found missing
    from the repertoire, or after the backend gave no child node. *)
Definition negativeFeedback (moveSan : string) : M Server unit :=
  setTimeout RenderCurrentPosition;;
  a ← get_app;
  assign (set_trainingHistory
            (trainingHistory a ++
               [ {| h_position := currentPosition a; h_move := moveSan;
                    h_correct := false |} ]));;
  unstudiedMoves ← getUnstudiedMoves (trainingSessionId a) (currentPosition a);
  (if bool_decide (own_moves unstudiedMoves = []) then mret tt
   else showAvailableMovesArrows (own_moves unstudiedMoves));;
  updateTrainingStatus.

(** [handleTrainingMove(from, to)]. *)
Definition handleTrainingMove (from to : string) : M Server unit :=
  a ← get_app;
  if negb (trainingMode a) || isOpponentTurn a then mret tt
  else
    try_catch
      (legalMoves ← legalMovesOf (currentPosition a);
       match find_legal from to legalMoves with
       | None => mret tt
       | Some found =>
           let moveSan := lm_san found in
           match chess_move (currentPosition a) from to with
           | None => throw (Error "Invalid move")
           | Some newFen =>
               renderChessBoard (Some newFen) (currentColor a);;
               moveExists ← checkMoveInRepertoire moveSan;
               childNode ← match moveExists with
                           | true => sendMoveToBackend (Some moveSan)
                           | false => mret None
                           end;
               match childNode with
               | None => negativeFeedback moveSan
               | Some c =>
                   updateAppStateWithNode c;;
                   a1 ← get_app;
                   let alreadyLearned :=
                     bool_decide (nd_id c ∈ directlyLearnedNodes a1) in
                   unstudiedMoves ←
                     getUnstudiedMoves (trainingSessionId a1)
                                       (currentPosition a1);
                   let unstudiedOwnMoves := own_moves unstudiedMoves in
                   if alreadyLearned then
                     if bool_decide (unstudiedOwnMoves = []) then mret tt
                     else setTimeout (ShowUnlearnedMovesButton unstudiedOwnMoves)
                   else
                     a2 ← get_app;
                     assign (set_trainingHistory
                               (trainingHistory a2 ++
                                  [ {| h_position := currentPosition a2;
                                       h_move := moveSan;
                                       h_correct := true |} ]));;
                     if bool_decide (default [] (nd_children c) = []) then
                       markNodeAsStudied (nd_id c) (trainingSessionId a2);;
                       setTimeout ReturnToStartPosition;;
                       updateTrainingStatus
                     else
                       updateTrainingStatus;;
                       assign (set_isOpponentTurn true);;
                       setTimeout PlayOpponentMove
               end
           end
       end)
      (fun _ => mret tt).

(** [isEquivalentMove(from, to, backendMove)]. *)
Definition isEquivalentMove (from to : string) (backendMove : Move) : bool :=
  match mv_uci backendMove with
  | None => false
  | Some uci =>
      if bool_decide (uci = "") then false
      else if bool_decide (uci = from +:+ to) then true
      else if bool_decide (String.length uci = 5%nat)
              && startsWith uci (from +:+ to) then true
      else false
  end.

(** The predicate of the [find] in the tree mode of
    [handleDragDropMove]. *)
Definition matches (from to : string) (move : Move) : bool :=
  let uciMove := from +:+ to in
  bool_decide (mv_uci move = Some uciMove)
  || (str_set (mv_uci move) && startsWith (default "" (mv_uci move)) uciMove)
  || isEquivalentMove from to move.

(** [availableMoves.indexOf(availableMoves.find(p))]: the index of the
    first move that satisfies [p]. *)
Fixpoint find_index (p : Move -> bool) (ms : list Move) : option nat :=
  match ms with
  | [] => None
  | m :: rest => if p m then Some 0%nat else S <$> find_index p rest
  end.

(** [handleDragDropMove(from, to)]. *)
Definition handleDragDropMove (from to : string) : M Server unit :=
  a ← get_app;
  if trainingMode a then handleTrainingMove from to
  else if isOwnRepertoire a then
    legalMoves ← legalMovesOf (currentPosition a);
    match find_legal from to legalMoves with
    | None => renderChessBoard (currentPosition a) (currentColor a)
    | Some found =>
        match chess_move (currentPosition a) from to with
        | None => throw (Error "Invalid move")
        | Some newFen =>
            childNode ← sendMoveToBackend (Some (lm_san found));
            match childNode with
            | Some c => updateAppStateWithNode c
            | None =>
                renderChessBoard (Some newFen) (currentColor a);;
                window_updateLegalMovesFromBackend_call
            end
        end
    end
  else
    try_catch
      (match find_index (matches from to) (availableMoves a) with
       | Some moveIndex => handleMoveClick moveIndex
       | None => renderChessBoard (currentPosition a) (currentColor a)
       end)
      (fun _ => renderChessBoard (currentPosition a) (currentColor a)).

(** [showTrainingModeUI()]: with [#positionInfo] on the page it reads
    [appState.currentPosition.substring(0, 30)], which throws when the
    reply carried no position; it ends with a call of
    [updateTrainingStatus].  The rest shows and creates elements of the
    page. *)
Definition showTrainingModeUI : M Server unit :=
  fun w =>
    if positionInfo (page w) && bool_decide (currentPosition (app w) = None)
    then (Throw TypeError, w)
    else updateTrainingStatus w.

(** [startTrainingMode(playerColor)].  [now] and [rand] are the two
    strings [Date.now()] and [Math.random().toString(36).substr(2, 9)]
    that make the session id.  The [alert] of the [catch] touches only
    the page. *)
Definition startTrainingMode (playerColor now rand : string)
  : M Server unit :=
  try_catch
    (assign (set_trainingMode true);;
     assign (set_currentColor playerColor);;
     assign (set_currentPlayer (Some "My Repertoire"));;
     assign (set_isOpponentTurn (bool_decide (playerColor = "black")));;
     data ← fetch (ProcessGames "My Repertoire" playerColor);
     if negb (success data) then
       throw (Error "Failed to load repertoire tree")
     else
       assign (set_trainingSessionId
                 (Some ("training_" +:+ now +:+ "_" +:+ rand)));;
       assign (set_studiedNodes ∅);;
       assign (set_currentPosition (position data));;
       assign (set_availableMoves (default [] (moves data)));;
       assign (set_currentNodeId (id_or_null (node_id data)));;
       assign (set_trainingHistory []);;
       showTrainingModeUI;;
       setTimeout (StartTrainingRender (position data) playerColor))
    (fun _ => mret tt).

(** [endTrainingMode()]: the three assignments to [appState]; the rest
    of the function shows and hides elements of the page.  It clears no
    timer. *)
Definition endTrainingMode : M Server unit :=
  assign (set_trainingMode false);;
  assign (set_isOpponentTurn false);;
  assign (set_trainingHistory []).

(** [showCongratulations()]: the request of [getLearningProgress]; the
    message goes to the page, and nothing escapes the [try]. *)
Definition showCongratulations : M Server unit :=
  a ← get_app;
  getLearningProgress (trainingSessionId a).

(** [returnToStartPosition()].  It does not look at
    [appState.trainingMode]. *)
Definition returnToStartPosition : M Server unit :=
  try_catch
    (a ← get_app;
     data ← fetch (ProcessGames "My Repertoire" (currentColor a));
     if negb (success data) then
       throw (Error "Failed to reload start position")
     else
       assign (set_currentPosition (position data));;
       assign (set_availableMoves (default [] (moves data)));;
       assign (set_currentNodeId (id_or_null (node_id data)));;
       assign (set_isOpponentTurn false);;
       a1 ← get_app;
       renderChessBoard (position data) (currentColor a1);;
       showAvailableMovesArrows [];;
       unstudiedMoves ← getUnstudiedMoves (trainingSessionId a1)
                                          (position data);
       if bool_decide (unstudiedMoves = []) then showCongratulations
       else updateTrainingStatus)
    (fun _ => mret tt).

(** What a timer runs when it fires.  [randomIndex] is the random choice
    of [playOpponentMove].  The timer of the button for the open moves
    only attaches a click handler to an element of the page. *)
Definition fire (t : Timer) (randomIndex : nat) : M Server unit :=
  match t with
  | RetryRender fen playerColor => renderChessBoard fen playerColor
  | RetryArrows =>
      a ← get_app; showAvailableMovesArrows (currentArrows a)
  | RenderCurrentPosition =>
      a ← get_app; renderChessBoard (currentPosition a) (currentColor a)
  | PlayOpponentMove => playOpponentMove randomIndex
  | ReturnToStartPosition => returnToStartPosition
  | ShowUnlearnedMovesButton _ => mret tt
  | StartTrainingRender fen playerColor =>
      renderChessBoard fen playerColor;;
      showAvailableMovesArrows [];;
      a ← get_app;
      if isOpponentTurn a then setTimeout PlayOpponentMove else mret tt
  end.

(** The events of training and navigation: the clicks and drops of the
    user; a call of [showAvailableMovesArrows] by the page ([onSelect] and
    [onMove] show the current arrows again, the button for the open moves
    shows those); and a timer that fires. *)
Inductive Event :=
| TrainRepertoire (playerColor now rand : string)
| EndTraining
| ClickMove (moveIndex : nat)
| DropPiece (from to : string)
| ShowArrows (ms : list Move)
| Fires (t : Timer) (randomIndex : nat).

(** The handler of an event, run to its end.
    [handleTrainRepertoireClick] reads the colour from the page and wraps
    [startTrainingMode] in a [try]; [onMove] calls
    [handleDragDropMove]. *)
Definition handle (e : Event) : M Server unit :=
  match e with
  | TrainRepertoire playerColor now rand =>
      try_catch (startTrainingMode playerColor now rand) (fun _ => mret tt)
  | EndTraining => endTrainingMode
  | ClickMove moveIndex => handleMoveClick moveIndex
  | DropPiece from to => handleDragDropMove from to
  | ShowArrows ms => showAvailableMovesArrows ms
  | Fires t randomIndex => fire t randomIndex
  end.

(** A run of events, one after the other; an event that throws ends
    there and the next one starts from the state it left. *)
Definition run (es : list Event) (w : World Server) : World Server :=
  foldl (fun w e => exec (handle e) w) w es.

(** [getLearningStats(sessionId)]: the body, or [null]. *)
Definition getLearningStats (sessionId : option string)
  : M Server (option Data) :=
  try_catch
    (data ← fetch (GetLearningStats sessionId);
     (if success data then
        assign (set_directlyLearnedNodes
                  (list_to_set (default [] (directly_learned_node_ids data))));;
        assign (set_mistakeCount (Some (num_or0 (mistake_count data))))
      else mret tt);;
     mret (Some data))
    (fun _ => mret None).

(** The three calls of the learning API; they have no [try]. *)
Definition markNodeAsDirectlyLearned (nodeId : NodeId)
    (sessionId : option string) : M Server Data :=
  fetch (MarkDirectlyLearned nodeId sessionId).

Definition unmarkNodeAsDirectlyLearned (nodeId : NodeId)
    (sessionId : option string) : M Server Data :=
  fetch (UnmarkDirectlyLearned nodeId sessionId).

Definition recordMistake (sessionId : option string) : M Server Data :=
  fetch (RecordMistake sessionId).

(** The text [updateLearningStatsDisplay] writes; the learned count is
    the size of [directlyLearnedNodes]. *)
Definition learnedCount (a : AppState) : nat := size (directlyLearnedNodes a).

Definition learningStatsText (a : AppState) : string :=
  "<strong>Gelernt:</strong> " +:+ pretty (learnedCount a)
    +:+ " &nbsp; <strong>Fehler:</strong> "
    +:+ match mistakeCount a with
        | Some n => pretty n
        | None => "undefined"
        end.

(** [updateLearningStatsDisplay()]. *)
Definition updateLearningStatsDisplay : M Server unit :=
  fun w =>
    (Normal tt,
     match learningStats w with
     | Some _ => set_learningStats (Some (learningStatsText (app w))) w
     | None => w
     end).

(** [handleCorrectMove(nodeId)]. *)
Definition handleCorrectMove (nodeId : NodeId) : M Server unit :=
  a ← get_app;
  result ← markNodeAsDirectlyLearned nodeId (trainingSessionId a);
  if success result && newly_learned result then
    assign (fun a => set_directlyLearnedNodes
                       ({[nodeId]} ∪ directlyLearnedNodes a) a);;
    updateLearningStatsDisplay
  else mret tt.

(** [handleMistake(nodeId)]. *)
Definition handleMistake (nodeId : NodeId) : M Server unit :=
  a ← get_app;
  result ← recordMistake (trainingSessionId a);
  (if success result then
     assign (set_mistakeCount (mistake_count result));;
     updateLearningStatsDisplay
   else mret tt);;
  a1 ← get_app;
  if bool_decide (nodeId ∈ directlyLearnedNodes a1) then
    unmarkResult ← unmarkNodeAsDirectlyLearned nodeId (trainingSessionId a1);
    if success unmarkResult && was_learned unmarkResult then
      assign (fun a => set_directlyLearnedNodes
                         (directlyLearnedNodes a ∖ {[nodeId]}) a);;
      updateLearningStatsDisplay
    else mret tt
  else mret tt.

End Frontend.

(* ===================================================================== *)
(** ** Legal-move destinations                                           *)
(* ===================================================================== *)

Module LegalMoves.
Import JS.

(** [dests] is the [Map] from a square to the squares a piece on it may
    go to, which Chessground reads with [dests.get(square)]: a
    [gmap string (list string)]. *)

(** [if (!dests.has(from)) dests.set(from, []); dests.get(from).push(to)]. *)
Definition push_dest (from to : string) (dests : gmap string (list string))
  : gmap string (list string) :=
  <[from := (default [] (dests !! from) ++ [to])%list]> dests.

(** The guard [move.uci && move.uci.length >= 4]. *)
Definition has_uci (m : Move) : option string :=
  match mv_uci m with
  | Some uci =>
      if negb (bool_decide (uci = "")) && (4 <=? String.length uci)%nat
      then Some uci else None
  | None => None
  end.

(** The body of the loop over the backend moves. *)
Definition add_move (dests : gmap string (list string)) (m : Move)
  : gmap string (list string) :=
  match has_uci m with
  | Some uci => push_dest (substring 0 2 uci) (substring 2 4 uci) dests
  | None => dests
  end.

(** static/script-cg.js, [updateLegalMovesFromBackend()]: the [dests] it
    hands to [cg.set], computed from [appState.availableMoves] (which is
    always an array here). *)
Definition updateLegalMovesFromBackend (availableMoves : list Move)
  : gmap string (list string) :=
  foldl add_move ∅ availableMoves.

(** static/script-cg.js, [onSelect(square)]: the set it builds, and
    whether it finds the square in it. *)
Definition availableFromSquares (availableMoves : list Move) : gset string :=
  foldl (fun acc m =>
           match has_uci m with
           | Some uci => {[substring 0 2 uci]} ∪ acc
           | None => acc
           end) ∅ availableMoves.

Definition onSelect (square : string) (availableMoves : list Move) : bool :=
  bool_decide (square ∈ availableFromSquares availableMoves).

(** The body of the loop over the legal moves of chess.js. *)
Definition add_legal (dests : gmap string (list string)) (m : LegalMove)
  : gmap string (list string) :=
  push_dest (lm_from m) (lm_to m) dests.

(** [window.updateLegalMovesFromBackend] of the main script, on a page
    with a board: the [dests] it hands to [cg.set].  For a repertoire
    player these are all legal moves of chess.js, otherwise the moves of
    the tree.  [None] when [new Chess(fen)] throws. *)
Definition window_updateLegalMovesFromBackend
    (chess_moves : option string -> option (list LegalMove))
    (a : AppState) : option (gmap string (list string)) :=
  if isOwnRepertoire a then
    foldl add_legal ∅ <$> chess_moves (currentPosition a)
  else Some (foldl add_move ∅ (availableMoves a)).

End LegalMoves.

(* ===================================================================== *)
(** ** The training-session store of the backend                         *)
(* ===================================================================== *)

Module Backend.

(** Modelled from the spec: the backend's [TrainingSession] (the
    endpoints under [/api/training] are served by code that is not part
    of the frontend sources).  A session holds the studied node ids, the
    directly learned node ids and the mistake counter. *)
Record TrainingSession := {
  studiedNodeIds : gset NodeId;
  directlyLearnedNodeIds : gset NodeId;
  sessionMistakes : Z
}.

(** Modelled from the spec: a session as it is when training starts. *)
Definition newSession : TrainingSession :=
  {| studiedNodeIds := ∅; directlyLearnedNodeIds := ∅;
     sessionMistakes := 0 |}.

(** Modelled from the spec: [markStudied(session, nodeId)], an
    idempotent add to [studiedNodeIds]. *)
Definition markStudied (n : NodeId) (s : TrainingSession)
  : TrainingSession :=
  {| studiedNodeIds := {[n]} ∪ studiedNodeIds s;
     directlyLearnedNodeIds := directlyLearnedNodeIds s;
     sessionMistakes := sessionMistakes s |}.

(** Modelled from the spec: [markDirectlyLearned(session, nodeId)] adds
    to [directlyLearnedNodeIds] only if absent and returns whether the
    id was newly added. *)
Definition markDirectlyLearned (n : NodeId) (s : TrainingSession)
  : bool * TrainingSession :=
  if bool_decide (n ∈ directlyLearnedNodeIds s) then (false, s)
  else (true,
        {| studiedNodeIds := studiedNodeIds s;
           directlyLearnedNodeIds := {[n]} ∪ directlyLearnedNodeIds s;
           sessionMistakes := sessionMistakes s |}).

(** Modelled from the spec: [unmarkDirectlyLearned(session, nodeId)]
    takes the id out and returns whether it was learned. *)
Definition unmarkDirectlyLearned (n : NodeId) (s : TrainingSession)
  : bool * TrainingSession :=
  (bool_decide (n ∈ directlyLearnedNodeIds s),
   {| studiedNodeIds := studiedNodeIds s;
      directlyLearnedNodeIds := directlyLearnedNodeIds s ∖ {[n]};
      sessionMistakes := sessionMistakes s |}).

(** Modelled from the spec: [recordMistake(session)], a monotonic
    increment that returns the new count. *)
Definition recordMistake (s : TrainingSession) : Z * TrainingSession :=
  ((sessionMistakes s + 1)%Z,
   {| studiedNodeIds := studiedNodeIds s;
      directlyLearnedNodeIds := directlyLearnedNodeIds s;
      sessionMistakes := (sessionMistakes s + 1)%Z |}).

(** Modelled from the spec: the keyed store [sessionId -> session].  The
    frontend makes up a session id and never announces it, so a session
    starts, empty, with the first request that names it. *)
Definition session (sid : string) (st : gmap string TrainingSession)
  : TrainingSession :=
  default newSession (st !! sid).

Section Serve.
(** The endpoints that read the position tree, which this store does
    not cover. *)
Variable tree : Request -> Reply.

(** Modelled from the spec: the replies of the training endpoints.  A
    request without a session id is answered with a failure. *)
Definition serve (req : Request) (st : gmap string TrainingSession)
  : Reply * gmap string TrainingSession :=
  match req with
  | MarkStudied n (Some sid) =>
      (Json ok, <[sid := markStudied n (session sid st)]> st)
  | MarkDirectlyLearned n (Some sid) =>
      let '(newly, s) := markDirectlyLearned n (session sid st) in
      (Json {| success := true; child := None; node_id := NoId;
               moves := None; position := None; mistake_count := None;
               newly_learned := newly; was_learned := false;
               directly_learned_node_ids := None |},
       <[sid := s]> st)
  | UnmarkDirectlyLearned n (Some sid) =>
      let '(was, s) := unmarkDirectlyLearned n (session sid st) in
      (Json {| success := true; child := None; node_id := NoId;
               moves := None; position := None; mistake_count := None;
               newly_learned := false; was_learned := was;
               directly_learned_node_ids := None |},
       <[sid := s]> st)
  | RecordMistake (Some sid) =>
      let '(count, s) := recordMistake (session sid st) in
      (Json {| success := true; child := None; node_id := NoId;
               moves := None; position := None;
               mistake_count := Some count;
               newly_learned := false; was_learned := false;
               directly_learned_node_ids := None |},
       <[sid := s]> st)
  | GetLearningStats (Some sid) =>
      let s := session sid st in
      (Json {| success := true; child := None; node_id := NoId;
               moves := None; position := None;
               mistake_count := Some (sessionMistakes s);
               newly_learned := false; was_learned := false;
               directly_learned_node_ids :=
                 Some (elements (directlyLearnedNodeIds s)) |},
       st)
  | MarkStudied _ None | MarkDirectlyLearned _ None
  | UnmarkDirectlyLearned _ None | RecordMistake None
  | GetLearningStats None => (Json failure, st)
  | ProcessGames _ _ | FindMoves _ _ _ | GetChildNode _ _ _
  | GetUnstudiedMoves _ _ | GetProgress _ => (tree req, st)
  end.
End Serve.

End Backend.

(** A backend that plays back a fixed list of replies, one per request,
    and rejects once the list is used up. *)
Definition scripted (req : Request) (script : list Reply)
  : Reply * list Reply :=
  match script with
  | [] => (Rejects, [])
  | r :: rest => (r, rest)
  end.

(** chess.js left out: no position has a legal move. *)
Definition no_chess_moves (fen : option string) : option (list LegalMove) :=
  Some [].
Definition no_chess_move (fen : option string) (from to : string)
  : option string := None.

(** A world around a given [appState]: the page with its board and an
    empty statistics element, without the save switch; nothing sent and
    no timer set. *)
Definition world_of {Server} (a : AppState) (s : Server) : World Server :=
  {| app := a;
     cg := Some {| cg_fen := DEFAULT_FEN; cg_orientation := "white";
                   cg_shapes := []; cg_ready := true |};
     saveSwitch := None; learningStats := Some "";
     server := s; requests := []; timers := []; page := full_page |}.

(* ===================================================================== *)
(** ** What the properties are stated with                               *)
(* ===================================================================== *)

Import JS Brush MoveStats Arrows.

(** Whether a reply carries a body that reports success. *)
Definition reports_success (r : Reply) : bool :=
  match r with Json d => success d | _ => false end.

(** The node a reply to [/api/get_child_node] carries, if any. *)
Definition returns_node (r : Reply) : option Node :=
  match r with
  | Json d => if success d then child d else None
  | _ => None
  end.

(** What [getUnstudiedMoves] returns, by the reply it gets: the moves of
    a successful reply, and the empty list in every other case. *)
Definition unstudied_of (fen : option string) (reply : string -> Reply)
  : list Move :=
  match fen with
  | None => []
  | Some f =>
      match reply f with
      | Json d => if success d then default [] (moves d) else []
      | _ => []
      end
  end.

(** [triple R m Q]: from every world, [m] ends in a world related to
    the first by [R], and its completion satisfies [Q]. *)
Definition triple {Server A} (R : relation (World Server))
    (m : M Server A) (Q : Completion A -> Prop) : Prop :=
  forall w, R w (m w).2 /\ Q (m w).1.

(** Completions: any, and the normal ones. *)
Definition anyhow {A} (c : Completion A) : Prop := True.
Definition normally {A} (c : Completion A) : Prop :=
  exists a, c = Normal a.

(** The current position is the same, and so is the current node id if
    there was one. *)
Definition nav_kept {Server} (w w' : World Server) : Prop :=
  currentPosition (app w') = currentPosition (app w)
  /\ (id_set (currentNodeId (app w)) = true ->
      currentNodeId (app w') = currentNodeId (app w)).

(** Position and node id are the same. *)
Definition nav_same {Server} (w w' : World Server) : Prop :=
  currentPosition (app w') = currentPosition (app w)
  /\ currentNodeId (app w') = currentNodeId (app w).

(** A move whose uci string begins with [from + to]. *)
Definition begins_with (from to : string) (m : Move) : Prop :=
  exists u, mv_uci m = Some u /\ startsWith u (from +:+ to) = true.

(** A move whose uci string is [from + to], or has five characters (a
    promotion) and begins with [from + to]. *)
Definition equal_or_promotion (from to : string) (m : Move) : Prop :=
  exists u, mv_uci m = Some u
    /\ (u = from +:+ to
        \/ (String.length u = 5%nat /\ startsWith u (from +:+ to) = true)).

(** A backend that cannot be reached. *)
Definition offline (req : Request) (s : unit) : Reply * unit := (Rejects, s).

(** A backend whose tree has lost the nodes the frontend asks for: the
    request for a child node is answered with a failure, every other one
    with a bare success. *)
Definition node_deleted (req : Request) (s : unit) : Reply * unit :=
  match req with
  | GetChildNode _ _ _ => (Json failure, s)
  | _ => (Json ok, s)
  end.

(** The start of a repertoire tree: node 1, the opening position, with
    the move e4. *)
Definition start_node : Data :=
  {| success := true; child := None; node_id := IdNum 1;
     moves := Some [uci_move "e2e4" "e4"]; position := Some DEFAULT_FEN;
     mistake_count := None; newly_learned := false; was_learned := false;
     directly_learned_node_ids := None |}.

(** A tree that loads, and answers every other request with a bare
    success. *)
Definition start_tree (req : Request) : Reply :=
  match req with
  | ProcessGames _ _ => Json start_node
  | _ => Json ok
  end.

Definition tree_loads (req : Request) (s : unit) : Reply * unit :=
  (start_tree req, s).

(** The reply of [/api/find_moves] that names node 7. *)
Definition found_node_7 : Data :=
  {| success := true; child := None; node_id := IdNum 7; moves := None;
     position := None; mistake_count := None; newly_learned := false;
     was_learned := false; directly_learned_node_ids := None |}.

(** A session [s] in which node 5 is directly learned, on both sides. *)
Definition learned_5 : World (gmap string Backend.TrainingSession) :=
  world_of
    (set_directlyLearnedNodes {[IdNum 5]}
       (set_trainingSessionId (Some "s") initialAppState))
    {[ "s" := {| Backend.studiedNodeIds := ∅;
                 Backend.directlyLearnedNodeIds := {[IdNum 5]};
                 Backend.sessionMistakes := 0 |} ]}.

(** The backend of the two-session scenario: the session store, with a tree
    that loads. *)
Definition training_backend :=
  Backend.serve (fun _ => Json ok).

(** Three mistakes and one learned node in a first session. *)
Definition after_first_session
  : World (gmap string Backend.TrainingSession) :=
  let start := world_of (set_trainingSessionId (Some "training_1_a")
                           initialAppState) ∅ in
  let w1 := exec (handleCorrectMove training_backend (IdNum 2)) start in
  let w2 := exec (handleMistake training_backend (IdNum 1)) w1 in
  let w3 := exec (handleMistake training_backend (IdNum 1)) w2 in
  exec (handleMistake training_backend (IdNum 1)) w3.

Import EloDisplay LegalMoves.

(** The operations of IEEE 754 binary64 as the Standard Library defines
    them ([SpecFloat]), to compare [percent] with: an integer as a
    double, the value of a finite double, and [(x / games) * 100]. *)
Definition sf_of_Z (z : Z) : spec_float := binary_normalize 53 1024 z 0 false.

Definition sf_value (f : spec_float) : option Q :=
  match f with
  | S754_zero _ => Some 0
  | S754_finite s m e =>
      Some ((if s then -1 else 1) * inject_Z (Zpos m) * 2 ^ e)
  | _ => None
  end.

Definition sf_percent (x games : Z) : spec_float :=
  SFmul 53 1024 (SFdiv 53 1024 (sf_of_Z x) (sf_of_Z games)) (sf_of_Z 100).

(** A move of which only the ELO difference is known. *)
Definition elo_move (eloDiff : Q) : Move :=
  {| mv_uci := None; mv_san := None; mv_color := None;
     mv_games := None; mv_wins := None;
     mv_draws := None; mv_losses := None;
     mv_win_rate := None; mv_draw_rate := None; mv_lose_rate := None;
     mv_avg_elo_diff := Some eloDiff; mv_opacity := None;
     mv_thickness := None; mv_is_in_repertoire := None |}.

(** The destinations [dests.get(square)] gives; none for a square that
    is not a key. *)
Definition dests_of (dests : gmap string (list string)) (square : string)
  : list string :=
  default [] (dests !! square).

(** The shapes the user drew, in order. *)
Definition userShapes (b : Chessground) : list Shape :=
  filter (fun s => system s = false) (cg_shapes b).

(** The request [ensureNodeIdForCurrentPosition] sends for the current
    position. *)
Definition find_current (a : AppState) : Request :=
  FindMoves (currentPosition a) (currentPlayer a) (currentColor a).

(** The node id a reply to [/api/find_moves] gives: [data.node_id || null],
    and [null] when there is no body to read. *)
Definition found_id (r : Reply) : NodeId :=
  match r with
  | Json d => id_or_null (node_id d)
  | _ => NoId
  end.

(** A page that has lost its board: the element [#board] is there and
    [window.cg] is not. *)
Definition board_lost {Server} (w : World Server) : bool :=
  match cg w with
  | None => boardElem (page w)
  | Some _ => false
  end.

(** Whether a call of [window.updateLegalMovesFromBackend()] throws at the
    position [fen]: there is a board, the player is a repertoire player
    and chess.js cannot read the position. *)
Definition legal_moves_unreadable {Server}
    (chess_moves : option string -> option (list LegalMove))
    (fen : option string) (w : World Server) : bool :=
  match cg w with
  | None => false
  | Some _ =>
      isOwnRepertoire (app w) && bool_decide (chess_moves fen = None)
  end.

(** Whether a reply carries a JSON body. *)
Definition has_body (r : Reply) : bool :=
  match r with Json _ => true | _ => false end.

(** A request of navigation, of the studied-nodes API or of the training
    status: none of the requests of the learning statistics, and not a
    reload of the tree. *)
Definition navigation_request (req : Request) : bool :=
  match req with
  | FindMoves _ _ _ | GetChildNode _ _ _ | GetUnstudiedMoves _ _
  | MarkStudied _ _ | GetProgress _ => true
  | _ => false
  end.

(** A relation between the world before and the world after that every
    primitive step of navigation and training respects: sending a
    navigation request, setting a timer, rendering the board, showing
    arrows, and the assignments to [appState] that the handlers make. *)
Class StepInvariant {Server} (R : relation (World Server)) := {
  step_refl : Reflexive R;
  step_trans : Transitive R;
  step_sent : forall req s w,
    navigation_request req = true -> R w (sent req s w);
  step_timer : forall t w, R w (add_timer t w);
  step_render : forall fen playerColor w,
    R w (exec (renderChessBoard fen playerColor) w);
  step_arrows : forall ms w, R w (exec (showAvailableMovesArrows ms) w);
  step_currentNodeId : forall v w,
    R w (set_app (set_currentNodeId v (app w)) w);
  step_currentPosition : forall v w,
    R w (set_app (set_currentPosition v (app w)) w);
  step_availableMoves : forall v w,
    R w (set_app (set_availableMoves v (app w)) w);
  step_currentNodeParentId : forall v w,
    R w (set_app (set_currentNodeParentId v (app w)) w);
  step_games : forall v w, R w (set_app (set_games v (app w)) w);
  step_win_rate : forall v w, R w (set_app (set_win_rate v (app w)) w);
  step_currentArrows : forall v w,
    R w (set_app (set_currentArrows v (app w)) w);
  step_isNavigating : forall v w,
    R w (set_app (set_isNavigating v (app w)) w);
  step_isOpponentTurn : forall v w,
    R w (set_app (set_isOpponentTurn v (app w)) w);
  step_studied : forall n w,
    R w (set_app (set_studiedNodes ({[n]} ∪ studiedNodes (app w)) (app w)) w);
  step_history : forall e w,
    R w (set_app (set_trainingHistory (trainingHistory (app w) ++ [e])
                    (app w)) w)
}.

(** [kept R m]: from every world, [m] ends in a world related to the
    first by [R], however it completes. *)
Definition kept {Server A} (R : relation (World Server)) (m : M Server A)
  : Prop := forall w, R w (exec m w).

(** The learning statistics, the session, the mode and the player are as
    before, and the requests sent in between are navigation requests. *)
Definition learning_kept {Server} (w w' : World Server) : Prop :=
  directlyLearnedNodes (app w') = directlyLearnedNodes (app w)
  /\ mistakeCount (app w') = mistakeCount (app w)
  /\ learningStats w' = learningStats w
  /\ trainingSessionId (app w') = trainingSessionId (app w)
  /\ trainingMode (app w') = trainingMode (app w)
  /\ currentPlayer (app w') = currentPlayer (app w)
  /\ currentColor (app w') = currentColor (app w)
  /\ exists sent, requests w' = (requests w ++ sent)%list
                  /\ forallb navigation_request sent = true.

(** The learning statistics are as before: the directly learned nodes,
    the mistake count and the statistics text on the page. *)
Definition stats_kept {Server} (w w' : World Server) : Prop :=
  directlyLearnedNodes (app w') = directlyLearnedNodes (app w)
  /\ mistakeCount (app w') = mistakeCount (app w)
  /\ learningStats w' = learningStats w.


(** Nothing is taken back: the studied nodes, the training history, the
    timers set and the requests sent only grow. *)
Definition session_grows {Server} (w w' : World Server) : Prop :=
  studiedNodes (app w) ⊆ studiedNodes (app w')
  /\ trainingHistory (app w) `prefix_of` trainingHistory (app w')
  /\ timers w `prefix_of` timers w'
  /\ requests w `prefix_of` requests w'.

(** The board is there or missing as before; the orientation setting,
    the user's shapes and the readiness of the board are the same; and in
    training mode every shape on the board was there before. *)
Definition board_kept {Server} (w w' : World Server) : Prop :=
  boardOrientation (app w') = boardOrientation (app w)
  /\ trainingMode (app w') = trainingMode (app w)
  /\ match cg w, cg w' with
     | Some b, Some b' =>
         userShapes b' = userShapes b
         /\ cg_ready b' = cg_ready b
         /\ (trainingMode (app w) = true ->
             forall s, s ∈ cg_shapes b' -> s ∈ cg_shapes b)
     | None, None => True
     | _, _ => False
     end.

(** chess.js with one legal move in every position: e2-e4. *)
Definition only_e4 (fen : option string) : option (list LegalMove) :=
  Some [ {| lm_from := "e2"; lm_to := "e4"; lm_san := "e4" |} ].
Definition after_e4 (fen : option string) (from to : string)
  : option string :=
  Some "rnbqkbnr/pppppppp/8/8/4P3/8/PPPP1PPP/RNBQKBNR b KQkq - 0 1".

(** The initial state in training mode, in session [s], the player to
    move. *)
Definition in_training : AppState :=
  set_trainingSessionId (Some "s") (set_trainingMode true initialAppState).

(* ===================================================================== *)
(** * Properties                                                         *)
(* ===================================================================== *)


(** ** Brushes *)

Lemma hex_color_not_inherited (c : string) :
  is_hex_color c = true -> c ∉ ObjectPrototype.
Proof.
  intros Hhex Hin. unfold ObjectPrototype in Hin.
  repeat (apply elem_of_cons in Hin as [-> | Hin];
          [vm_compute in Hhex; discriminate |]).
  by apply elem_of_nil in Hin.
Qed.

Lemma own_property_absent (own : list (string * string)) (k : string) :
  k ∉ own.*1 -> own_property own k = None.
Proof.
  induction own as [| [k' v] own IH]; intros Hk; [reflexivity |].
  simpl. rewrite fmap_cons, not_elem_of_cons in Hk.
  destruct Hk as [Hne Hk]. simpl in Hne.
  rewrite bool_decide_eq_false_2 by congruence. by apply IH.
Qed.

(** A colour outside the table and outside [Object.prototype] falls
    through to the default. *)
Lemma getChessgroundBrush_default (c : string) :
  c ∉ bucket_colors -> c ∉ ObjectPrototype ->
  getChessgroundBrush c false = PStr "nodata".
Proof.
  intros Hbucket Hproto. unfold getChessgroundBrush, get_property.
  rewrite (own_property_absent colorToBrush c Hbucket).
  by rewrite bool_decide_eq_false_2.
Qed.

(** Every colour string that starts with [#] and is not a bucket colour
    gets [nodata]. *)
Lemma getChessgroundBrush_hex_nodata (c : string) :
  is_hex_color c = true -> c ∉ bucket_colors ->
  getChessgroundBrush c false = PStr "nodata".
Proof.
  intros Hhex Hbucket.
  apply getChessgroundBrush_default; [done | by apply hex_color_not_inherited].
Qed.

(** The brush of the arrow of a move that has a colour. *)
Lemma arrow_of_coloured_move_brush (player : option string) (m : Move) (s : Shape)
    (c : string) :
  mv_color m = Some c -> c <> "" -> arrow_of_move player m = Some s ->
  brush s
  = getChessgroundBrush c (bool_decide (player = Some "My Repertoire")).
Proof.
  intros Hc Hne. unfold arrow_of_move. rewrite Hc.
  destruct (_ && _); [| done]. intros [= <-]. cbn.
  unfold str_or. by rewrite bool_decide_eq_false_2.
Qed.

(** C5.  [getChessgroundBrush] on the colours of the backend, the
    strings that start with [#].  A repertoire move always gets the
    [repertoire] brush; each of the six bucket colours gets its own
    brush; every other colour gets [nodata]; so the result is always the
    name of a brush of [config.drawable.brushes].  The two arguments are
    all that the arrow of a move takes from the move and from the state
    of the page for its brush: two moves of that colour get the same
    brush whenever the player is "My Repertoire" in both states or in
    neither, whatever else differs between the moves and the states. *)
Theorem getChessgroundBrush_buckets (backendColor : string)
    (isRepertoire : bool) :
  is_hex_color backendColor = true ->
  getChessgroundBrush backendColor true = PStr "repertoire"
  /\ (getChessgroundBrush "#4caf50" false = PStr "excellent"
      /\ getChessgroundBrush "#8bc34a" false = PStr "good"
      /\ getChessgroundBrush "#ffeb3b" false = PStr "average"
      /\ getChessgroundBrush "#ff9800" false = PStr "below"
      /\ getChessgroundBrush "#f44336" false = PStr "poor"
      /\ getChessgroundBrush "#9e9e9e" false = PStr "nodata")
  /\ (backendColor ∉ bucket_colors ->
      getChessgroundBrush backendColor false = PStr "nodata")
  /\ (exists name def,
        getChessgroundBrush backendColor isRepertoire = PStr name
        /\ brush_named brushes name = Some def)
  /\ (forall player1 player2 m1 m2 s1 s2,
        mv_color m1 = Some backendColor -> mv_color m2 = Some backendColor ->
        bool_decide (player1 = Some "My Repertoire") = isRepertoire ->
        bool_decide (player2 = Some "My Repertoire") = isRepertoire ->
        arrow_of_move player1 m1 = Some s1 ->
        arrow_of_move player2 m2 = Some s2 ->
        brush s1 = getChessgroundBrush backendColor isRepertoire
        /\ brush s2 = brush s1).
Proof.
  intros Hhex.
  assert (backendColor <> "") as Hne by (by intros ->).
  split; [reflexivity |].
  split; [by repeat split |].
  split; [by apply getChessgroundBrush_hex_nodata |].
  split.
  - destruct isRepertoire; [by eexists _, _ |].
    destruct (decide (backendColor ∈ bucket_colors)) as [Hin | Hout].
    + unfold bucket_colors in Hin. cbn in Hin.
      repeat (apply elem_of_cons in Hin as [-> | Hin];
              [by eexists _, _ |]).
      by apply elem_of_nil in Hin.
    + rewrite getChessgroundBrush_hex_nodata by done. by eexists _, _.
  - intros p1 p2 m1 m2 s1 s2 Hc1 Hc2 Hp1 Hp2 Hs1 Hs2.
    rewrite (arrow_of_coloured_move_brush p1 m1 s1 backendColor) by done.
    rewrite (arrow_of_coloured_move_brush p2 m2 s2 backendColor) by done.
    by rewrite Hp1, Hp2.
Qed.

(** The theorem at the colour [#123456], which is in no bucket: it gets
    the brush [nodata], which the table has. *)
Lemma getChessgroundBrush_buckets_witness :
  getChessgroundBrush "#123456" false = PStr "nodata"
  /\ exists name def,
       getChessgroundBrush "#123456" false = PStr name
       /\ brush_named brushes name = Some def.
Proof.
  destruct (getChessgroundBrush_buckets "#123456" false eq_refl)
    as (_ & _ & Hother & Hname & _).
  split; [| exact Hname].
  apply Hother. apply (proj1 (bool_decide_eq_false _)). vm_compute.
  reflexivity.
Defined.

(** A string that is no colour can name a member that the object
    literal [colorToBrush] inherits: for [constructor] the lookup
    [colorToBrush[backendColor]] finds the function on the prototype
    chain and the result is not a brush name.  The backend sends no such
    string. *)
Lemma getChessgroundBrush_constructor_not_nodata :
  ("constructor" ∉ bucket_colors)
  /\ getChessgroundBrush "constructor" false = PInherited "constructor"
  /\ getChessgroundBrush "constructor" false <> PStr "nodata".
Proof.
  split; [| split].
  - apply (proj1 (bool_decide_eq_false _)). vm_compute. reflexivity.
  - vm_compute. reflexivity.
  - vm_compute. discriminate.
Qed.

(** ** Doubles *)

Lemma two_pow_pos (z : Z) : 0 < 2 ^ z.
Proof. by apply Qpower_0_lt. Qed.

Lemma two_pow_succ (z : Z) : 2 ^ (z + 1) == 2 * 2 ^ z.
Proof. rewrite Qpower_plus by discriminate. rewrite Qpower_1_r. ring. Qed.

Lemma two_pow_Z (a : Z) : (0 <= a)%Z -> inject_Z (2 ^ a) == 2 ^ a.
Proof. intros Ha. by rewrite Zpower_Qpower. Qed.

Lemma two_pow_lt_inv (a b : Z) : 2 ^ a < 2 ^ b -> (a < b)%Z.
Proof. intros H. by apply Qpower_lt_compat_l_inv in H. Qed.

(** [ilog2] finds the binade. *)
Lemma ilog2_spec (q : Q) :
  0 < q -> 2 ^ ilog2 q <= q /\ q < 2 ^ (ilog2 q + 1).
Proof.
  intros Hq. destruct q as [n d]. unfold ilog2. cbn [Qnum Qden].
  assert (0 < n)%Z as Hn by (unfold Qlt in Hq; cbn in Hq; lia).
  set (a := Z.log2 n). set (b := Z.log2 (Z.pos d)).
  destruct (Z.log2_spec n Hn) as [Ha1 Ha2].
  destruct (Z.log2_spec (Z.pos d) eq_refl) as [Hb1 Hb2].
  fold a in Ha1, Ha2. fold b in Hb1, Hb2.
  assert (0 <= a)%Z as Ha0 by apply Z.log2_nonneg.
  assert (0 <= b)%Z as Hb0 by apply Z.log2_nonneg.
  rewrite Zle_Qle, two_pow_Z in Ha1, Hb1 by done.
  rewrite Zlt_Qlt, two_pow_Z in Ha2, Hb2 by lia.
  replace (Z.succ a) with (a + 1)%Z in Ha2 by lia.
  replace (Z.succ b) with (b + 1)%Z in Hb2 by lia.
  rewrite two_pow_succ in Ha2, Hb2.
  pose proof (two_pow_pos a) as HPa. pose proof (two_pow_pos b) as HPb.
  assert (2 ^ (a - b) == 2 ^ a / 2 ^ b) as Hk
    by (by rewrite Qpower_minus).
  set (A := inject_Z n) in *. set (D := inject_Z (Z.pos d)) in *.
  assert (n # d == A / D) as HqAD by apply Qmake_Qdiv.
  assert (0 < D) as HD by lra.
  destruct (Qle_bool (2 ^ (a - b)) (n # d)) eqn:Hle.
  - apply Qle_bool_iff in Hle. split; [done |].
    rewrite two_pow_succ, Hk, HqAD.
    apply Qlt_shift_div_r; [done |].
    assert (2 * (2 ^ a / 2 ^ b) * D == (2 * 2 ^ a) * (D / 2 ^ b)) as ->
      by (field; lra).
    assert (1 <= D / 2 ^ b) by (apply Qle_shift_div_l; lra).
    nra.
  - assert (n # d < 2 ^ (a - b)) as Hlt.
    { apply Qnot_le_lt. intros H. apply Qle_bool_iff in H. congruence. }
    replace (a - b - 1 + 1)%Z with (a - b)%Z by lia. split; [| done].
    assert (2 ^ (a - b) == 2 * 2 ^ (a - b - 1)) as Hk1.
    { rewrite <- two_pow_succ.
      by replace (a - b - 1 + 1)%Z with (a - b)%Z by lia. }
    assert (2 ^ (a - b - 1) == 2 ^ a / (2 * 2 ^ b)) as ->.
    { rewrite Hk in Hk1.
      assert (2 ^ a / (2 * 2 ^ b) == (2 ^ a / 2 ^ b) * (1 # 2)) as ->
        by (field; lra).
      set (X := 2 ^ a / 2 ^ b) in *. set (Y := 2 ^ (a - b - 1)) in *. lra. }
    rewrite HqAD. apply Qle_shift_div_l; [done |].
    assert (2 ^ a / (2 * 2 ^ b) * D == 2 ^ a * D / (2 * 2 ^ b)) as ->
      by (field; lra).
    apply Qle_shift_div_r; [lra |]. nra.
Qed.

Lemma binade_unique (q : Q) (a b : Z) :
  2 ^ a <= q -> q < 2 ^ (a + 1) -> 2 ^ b <= q -> q < 2 ^ (b + 1) -> a = b.
Proof.
  intros Ha1 Ha2 Hb1 Hb2.
  assert (2 ^ a < 2 ^ (b + 1)) as H1 by (eapply Qle_lt_trans; eassumption).
  assert (2 ^ b < 2 ^ (a + 1)) as H2 by (eapply Qle_lt_trans; eassumption).
  apply two_pow_lt_inv in H1, H2. lia.
Qed.

Lemma ilog2_comp (q q' : Q) : 0 < q -> q == q' -> ilog2 q = ilog2 q'.
Proof.
  intros Hq Heq. assert (0 < q') as Hq' by (by rewrite <- Heq).
  destruct (ilog2_spec q Hq) as [H1 H2].
  destruct (ilog2_spec q' Hq') as [H3 H4].
  assert (q' <= q) as Hle1 by (rewrite Heq; apply Qle_refl).
  assert (q <= q') as Hle2 by (rewrite Heq; apply Qle_refl).
  eapply (binade_unique q); [done | done | |].
  - by eapply Qle_trans.
  - by eapply Qle_lt_trans.
Qed.

Lemma round_half_even_comp (x y : Q) :
  x == y -> round_half_even x = round_half_even y.
Proof.
  intros Heq. unfold round_half_even.
  rewrite (Qfloor_comp _ _ Heq).
  assert (x - inject_Z (Qfloor y) == y - inject_Z (Qfloor y)) as ->
    by (by rewrite Heq).
  done.
Qed.

(** The nearest integer is within one half. *)
Lemma round_half_even_spec (x : Q) :
  Qabs (inject_Z (round_half_even x) - x) <= 1 # 2.
Proof.
  unfold round_half_even.
  pose proof (Qfloor_le x) as Hlo. pose proof (Qlt_floor x) as Hhi.
  rewrite inject_Z_plus in Hhi. change (inject_Z 1) with 1 in Hhi.
  set (f := Qfloor x) in *.
  apply Qabs_Qle_condition.
  destruct (Qcompare (x - inject_Z f) (1 # 2)) eqn:Hc.
  - apply Qeq_alt in Hc.
    destruct (Z.even f); rewrite ?inject_Z_plus;
      change (inject_Z 1) with 1; lra.
  - apply Qlt_alt in Hc. lra.
  - apply Qgt_alt in Hc. rewrite inject_Z_plus.
    change (inject_Z 1) with 1. lra.
Qed.

Lemma round_half_even_Z (n : Z) : round_half_even (inject_Z n) = n.
Proof.
  unfold round_half_even. rewrite Qfloor_Z.
  assert (Qcompare (inject_Z n - inject_Z n) (1 # 2) = Lt) as ->; [| done].
  apply (proj1 (Qlt_alt _ _)). generalize (inject_Z n). intros x. lra.
Qed.

Lemma fl_comp (q q' : Q) : q == q' -> fl q == fl q'.
Proof.
  intros Heq. unfold fl.
  destruct (Qeq_bool q 0) eqn:H0.
  - apply Qeq_bool_iff in H0.
    assert (Qeq_bool q' 0 = true) as ->; [| done].
    apply Qeq_bool_iff. by rewrite <- Heq.
  - assert (Qeq_bool q' 0 = false) as ->.
    { destruct (Qeq_bool q' 0) eqn:H0'; [| done].
      apply Qeq_bool_iff in H0'. rewrite <- Heq in H0'.
      apply Qeq_bool_iff in H0'. congruence. }
    assert (0 < Qabs q) as Hpos.
    { apply Qeq_bool_neq in H0.
      destruct (Qlt_le_dec 0 (Qabs q)) as [? | Hle]; [done |].
      exfalso. apply H0. apply Qabs_Qle_condition in Hle. lra. }
    assert (Qabs q == Qabs q') as Habs by (by rewrite Heq).
    rewrite (ilog2_comp (Qabs q) (Qabs q') Hpos Habs).
    set (e := Z.max _ _).
    rewrite (round_half_even_comp (q / 2 ^ e) (q' / 2 ^ e))
      by (by rewrite Heq).
    done.
Qed.

#[global] Instance fl_proper : Proper (Qeq ==> Qeq) fl.
Proof. intros q q'. apply fl_comp. Qed.

(** A rounding in the normal range has a relative error of at most
    [2^-53]. *)
Lemma fl_rel_err (q : Q) :
  2 ^ (-1022) <= Qabs q -> Qabs (fl q - q) <= u53 * Qabs q.
Proof.
  intros Hnorm. unfold fl.
  pose proof (two_pow_pos (-1022)) as Hmin.
  assert (0 < Qabs q) as Hpos by lra.
  destruct (Qeq_bool q 0) eqn:H0.
  { apply Qeq_bool_iff in H0. rewrite H0 in Hpos. by vm_compute in Hpos. }
  clear H0.
  destruct (ilog2_spec (Qabs q) Hpos) as [HL1 HL2].
  set (L := ilog2 (Qabs q)) in *.
  assert (-1022 <= L)%Z as HL.
  { assert (2 ^ (-1022) < 2 ^ (L + 1)) as H
      by (eapply Qle_lt_trans; eassumption).
    apply two_pow_lt_inv in H. lia. }
  replace (Z.max (L - 52) (-1074)) with (L - 52)%Z by lia.
  set (e := (L - 52)%Z). set (t := 2 ^ e).
  assert (0 < t) as Ht by apply two_pow_pos.
  assert (2 ^ L == t * 2 ^ 52) as HLt.
  { unfold t, e. rewrite <- Qpower_plus by discriminate.
    by replace (L - 52 + 52)%Z with L by lia. }
  pose proof (round_half_even_spec (q / t)) as Hm.
  set (m := inject_Z (round_half_even (q / t))) in *.
  assert (m * t - q == (m - q / t) * t) as -> by (field; lra).
  rewrite Qabs_Qmult, (Qabs_pos t) by lra.
  assert (Qabs (m - q / t) * t <= (1 # 2) * t) as H1
    by (apply Qmult_le_compat_r; lra).
  assert ((1 # 2) * t <= u53 * Qabs q) as H2.
  { rewrite HLt in HL1. change (2 ^ 52) with 4503599627370496 in HL1.
    unfold u53. lra. }
  lra.
Qed.

Lemma fl_rel_bounds (q : Q) :
  2 ^ (-1022) <= q -> (1 - u53) * q <= fl q /\ fl q <= (1 + u53) * q.
Proof.
  intros Hq. pose proof (two_pow_pos (-1022)) as Hmin.
  assert (Qabs q == q) as Habs by (apply Qabs_pos; lra).
  pose proof (fl_rel_err q) as H. rewrite Habs in H. specialize (H Hq).
  apply Qabs_Qle_condition in H. lra.
Qed.

(** An integer below [2^53] is a double. *)
Lemma double_of_Z_exact (z : Z) :
  (Z.abs z < 2 ^ 53)%Z -> double_of_Z z == inject_Z z.
Proof.
  intros Hz. unfold double_of_Z, fl.
  destruct (Qeq_bool (inject_Z z) 0) eqn:H0.
  { apply Qeq_bool_iff in H0. by rewrite H0. }
  apply Qeq_bool_neq in H0.
  assert (z <> 0%Z) as Hz0 by (intros ->; by apply H0).
  assert (Qabs (inject_Z z) == inject_Z (Z.abs z)) as Habs by reflexivity.
  assert (0 < Qabs (inject_Z z)) as Hpos.
  { rewrite Habs. change 0 with (inject_Z 0). rewrite <- Zlt_Qlt. lia. }
  destruct (ilog2_spec _ Hpos) as [HL1 HL2].
  set (L := ilog2 (Qabs (inject_Z z))) in *.
  assert (0 <= L < 53)%Z as HL.
  { split.
    - assert (2 ^ 0 < 2 ^ (L + 1)) as H.
      { eapply Qle_lt_trans; [| exact HL2]. rewrite Habs.
        change (2 ^ 0) with (inject_Z 1). rewrite <- Zle_Qle. lia. }
      apply two_pow_lt_inv in H. lia.
    - assert (2 ^ L < 2 ^ 53) as H.
      { eapply Qle_lt_trans; [exact HL1 |]. rewrite Habs.
        rewrite <- (two_pow_Z 53) by lia. rewrite <- Zlt_Qlt. lia. }
      apply two_pow_lt_inv in H. lia. }
  replace (Z.max (L - 52) (-1074)) with (L - 52)%Z by lia.
  set (k := (52 - L)%Z).
  assert (0 <= k)%Z as Hk by lia.
  assert (2 ^ (L - 52) == / inject_Z (2 ^ k)) as He.
  { rewrite two_pow_Z by done. rewrite <- Qpower_opp.
    by replace (- k)%Z with (L - 52)%Z by lia. }
  assert (0 < inject_Z (2 ^ k)) as Hpk.
  { rewrite two_pow_Z by done. apply two_pow_pos. }
  rewrite (round_half_even_comp _ (inject_Z (z * 2 ^ k))).
  2:{ rewrite He, inject_Z_mult. field. lra. }
  rewrite round_half_even_Z, He, inject_Z_mult. field. lra.
Qed.

(** ** Statistics renderers *)

Lemma percent_0 (games : Z) : percent 0 games == 0.
Proof.
  unfold percent, fmul, fdiv. change (double_of_Z 0) with 0.
  assert (0 / double_of_Z games == 0) as -> by (unfold Qdiv; ring).
  change (fl 0) with 0. by assert (0 * 100 == 0) as -> by ring.
Qed.

(** A percentage of [createCompactStatsBar] is the exact percentage up to
    the two roundings of its division and its multiplication. *)
Lemma percent_close (x games : Z) :
  (0 <= x < 2 ^ 53)%Z -> (0 < games < 2 ^ 53)%Z ->
  Qabs (percent x games - exact_percent x games)
    <= two_roundings * exact_percent x games.
Proof.
  intros Hx Hg. unfold exact_percent.
  assert (0 < inject_Z games) as HG
    by (change 0 with (inject_Z 0); rewrite <- Zlt_Qlt; lia).
  destruct (decide (x = 0%Z)) as [-> | Hx0].
  { rewrite percent_0.
    assert (100 * inject_Z 0 / inject_Z games == 0) as ->
      by (change (inject_Z 0) with 0; field; lra).
    by vm_compute. }
  assert (1 <= inject_Z x) as HX
    by (change 1 with (inject_Z 1); rewrite <- Zle_Qle; lia).
  assert (inject_Z games <= 2 ^ 53) as HG53.
  { rewrite <- (two_pow_Z 53) by lia. rewrite <- Zle_Qle. lia. }
  unfold percent, fmul, fdiv.
  rewrite !double_of_Z_exact by lia.
  set (q := inject_Z x / inject_Z games).
  assert (100 * inject_Z x / inject_Z games == 100 * q) as ->
    by (subst q; field; lra).
  assert (1 # 9007199254740992 <= q) as Hq.
  { subst q. apply Qle_shift_div_l; [done |].
    change (2 ^ 53) with 9007199254740992 in HG53. lra. }
  assert (2 ^ (-1022) <= 1 # 9007199254740992) as Hsmall by (by vm_compute).
  destruct (fl_rel_bounds q) as [Hq1 Hq2]; [lra |].
  set (q1 := fl q) in *.
  assert (2 ^ (-1022) <= q1 * 100) as Hp.
  { unfold u53 in Hq1. lra. }
  destruct (fl_rel_bounds (q1 * 100) Hp) as [Hp1 Hp2].
  set (p := fl (q1 * 100)) in *.
  apply Qabs_Qle_condition.
  unfold two_roundings, u53 in *. lra.
Qed.

Lemma exact_percent_nonneg (x games : Z) :
  (0 <= x)%Z -> (0 < games)%Z -> 0 <= exact_percent x games.
Proof.
  intros Hx Hg. unfold exact_percent.
  apply Qle_shift_div_l.
  - change 0 with (inject_Z 0). by rewrite <- Zlt_Qlt.
  - rewrite Qmult_0_l. apply Qmult_le_0_compat; [done |].
    change 0 with (inject_Z 0). by rewrite <- Zle_Qle.
Qed.

Lemma exact_percent_pos (x games : Z) :
  (0 < x)%Z -> (0 < games)%Z -> 0 < exact_percent x games.
Proof.
  intros Hx Hg. unfold exact_percent.
  assert (0 < inject_Z games) as HG
    by (change 0 with (inject_Z 0); rewrite <- Zlt_Qlt; lia).
  assert (0 < inject_Z x) as HX
    by (change 0 with (inject_Z 0); rewrite <- Zlt_Qlt; lia).
  apply Qlt_shift_div_l; [done |]. lra.
Qed.

Lemma exact_percent_plus (x y games : Z) :
  (0 < games)%Z ->
  exact_percent (x + y) games
  == exact_percent x games + exact_percent y games.
Proof.
  intros Hg. unfold exact_percent. rewrite inject_Z_plus. field.
  change 0 with (inject_Z 0). rewrite inject_Z_injective. lia.
Qed.

Lemma exact_percent_100 (games : Z) :
  (0 < games)%Z -> exact_percent games games == 100.
Proof.
  intros Hg. unfold exact_percent. field.
  change 0 with (inject_Z 0). rewrite inject_Z_injective. lia.
Qed.

Lemma percent_bounds (x games : Z) :
  (0 <= x < 2 ^ 53)%Z -> (0 < games < 2 ^ 53)%Z ->
  (1 - two_roundings) * exact_percent x games <= percent x games
  /\ percent x games <= (1 + two_roundings) * exact_percent x games.
Proof.
  intros Hx Hg. pose proof (percent_close x games Hx Hg) as H.
  apply Qabs_Qle_condition in H. lra.
Qed.

Lemma percent_nonneg (x games : Z) :
  (0 <= x < 2 ^ 53)%Z -> (0 < games < 2 ^ 53)%Z -> 0 <= percent x games.
Proof.
  intros Hx Hg. destruct (percent_bounds x games Hx Hg) as [H _].
  pose proof (exact_percent_nonneg x games (proj1 Hx) (proj1 Hg)) as He.
  unfold two_roundings in H. nra.
Qed.

Lemma percent_pos (x games : Z) :
  (0 < x < 2 ^ 53)%Z -> (0 < games < 2 ^ 53)%Z -> 0 < percent x games.
Proof.
  intros Hx Hg. destruct (percent_bounds x games) as [H _]; [lia | done |].
  pose proof (exact_percent_pos x games (proj1 Hx) (proj1 Hg)) as He.
  unfold two_roundings in H. nra.
Qed.

Lemma addBarSegment_width (p : Q) (bg border title : string)
    (segs : list Segment) :
  0 <= p ->
  foldr (fun s acc => seg_width s + acc) 0
        (addBarSegment p bg border title segs)
  == foldr (fun s acc => seg_width s + acc) 0 segs + p.
Proof.
  intros Hp. unfold addBarSegment. destruct (Qlt_le_dec 0 p) as [Hlt | Hle].
  - induction segs as [| s segs IH]; simpl.
    + ring.
    + rewrite IH. ring.
  - assert (p == 0) as -> by (by apply Qle_antisym). ring.
Qed.

(** [Math.round] is within one half of its argument. *)
Lemma Math_round_bounds (x : Q) :
  x - (1 # 2) < inject_Z (Math_round x) /\ inject_Z (Math_round x) <= x + (1 # 2).
Proof.
  unfold Math_round. split.
  - pose proof (Qlt_floor (x + (1 # 2))) as H.
    rewrite inject_Z_plus in H. change (inject_Z 1) with 1 in H. lra.
  - apply Qfloor_le.
Qed.

(** The widths of the bar are the three percentages. *)
Lemma createCompactStatsBar_total_width (m : Move) :
  (0 < num_or0 (mv_games m) < 2 ^ 53)%Z ->
  (0 <= num_or0 (mv_wins m) < 2 ^ 53)%Z ->
  (0 <= num_or0 (mv_draws m) < 2 ^ 53)%Z ->
  (0 <= num_or0 (mv_losses m) < 2 ^ 53)%Z ->
  (num_or0 (mv_wins m) + num_or0 (mv_draws m) + num_or0 (mv_losses m))%Z
    <> 0%Z ->
  total_width (createCompactStatsBar m)
  == winPercent m + drawPercent m + lossPercent m.
Proof.
  intros Hg Hw Hd Hl Htotal. unfold createCompactStatsBar, total_width.
  rewrite bool_decide_eq_false_2 by lia.
  rewrite bool_decide_eq_false_2 by done.
  cbn [bar_segments].
  rewrite !addBarSegment_width; cbn [foldr];
    try (unfold winPercent, drawPercent, lossPercent;
         by apply percent_nonneg).
  ring.
Qed.

(** C8.  For natural-number counts with [wins + draws + losses = games]
    and [0 < games < 2^53], each of the three percentages of
    [createCompactStatsBar] is [100 * count / games] up to the rounding of
    its two operations on doubles (a relative error of at most
    [two_roundings], less than [2^-51]); the exact percentages sum to 100;
    so the three computed percentages, and the widths of the segments of
    the bar, sum to 100 within [100 * two_roundings]; and the three
    rounded percentages that the labels show sum to 99, 100 or 101. *)
Theorem createCompactStatsBar_rates_sum_to_100
    (games wins draws losses : Z) :
  (0 <= wins)%Z -> (0 <= draws)%Z -> (0 <= losses)%Z ->
  (wins + draws + losses)%Z = games -> (0 < games < 2 ^ 53)%Z ->
  let m := count_move games wins draws losses in
  Qabs (winPercent m - exact_percent wins games)
    <= two_roundings * exact_percent wins games
  /\ Qabs (drawPercent m - exact_percent draws games)
       <= two_roundings * exact_percent draws games
  /\ Qabs (lossPercent m - exact_percent losses games)
       <= two_roundings * exact_percent losses games
  /\ exact_percent wins games + exact_percent draws games
       + exact_percent losses games == 100
  /\ Qabs (winPercent m + drawPercent m + lossPercent m - 100)
       <= 100 * two_roundings
  /\ Qabs (total_width (createCompactStatsBar m) - 100)
       <= 100 * two_roundings
  /\ (99 <= Math_round (winPercent m) + Math_round (drawPercent m)
            + Math_round (lossPercent m) <= 101)%Z.
Proof.
  intros Hw Hd Hl Hsum Hg m.
  assert (winPercent m = percent wins games) as Ew by reflexivity.
  assert (drawPercent m = percent draws games) as Ed by reflexivity.
  assert (lossPercent m = percent losses games) as El by reflexivity.
  pose proof (percent_close wins games ltac:(lia) Hg) as Cw.
  pose proof (percent_close draws games ltac:(lia) Hg) as Cd.
  pose proof (percent_close losses games ltac:(lia) Hg) as Cl.
  assert (exact_percent wins games + exact_percent draws games
          + exact_percent losses games == 100) as Hexact.
  { rewrite <- !exact_percent_plus by lia. rewrite Hsum.
    apply exact_percent_100. lia. }
  assert (Qabs (winPercent m + drawPercent m + lossPercent m - 100)
          <= 100 * two_roundings) as Hclose.
  { rewrite Ew, Ed, El. apply Qabs_Qle_condition.
    apply Qabs_Qle_condition in Cw, Cd, Cl.
    unfold two_roundings in *. lra. }
  split; [exact Cw |]. split; [exact Cd |]. split; [exact Cl |].
  split; [exact Hexact |]. split; [exact Hclose |]. split.
  - rewrite createCompactStatsBar_total_width; [done | cbn; lia ..].
  - apply Qabs_Qle_condition in Hclose.
    destruct (Math_round_bounds (winPercent m)) as [Hw1 Hw2].
    destruct (Math_round_bounds (drawPercent m)) as [Hd1 Hd2].
    destruct (Math_round_bounds (lossPercent m)) as [Hl1 Hl2].
    set (rw := Math_round (winPercent m)) in *.
    set (rd := Math_round (drawPercent m)) in *.
    set (rl := Math_round (lossPercent m)) in *.
    assert (inject_Z 98 < inject_Z (rw + rd + rl)) as Hlo.
    { rewrite !inject_Z_plus. change (inject_Z 98) with 98.
      unfold two_roundings in Hclose. lra. }
    assert (inject_Z (rw + rd + rl) < inject_Z 102) as Hhi.
    { rewrite !inject_Z_plus. change (inject_Z 102) with 102.
      unfold two_roundings in Hclose. lra. }
    rewrite <- Zlt_Qlt in Hlo, Hhi. lia.
Qed.

(** The theorem at no win, one draw and two losses in three games. *)
Lemma createCompactStatsBar_rates_sum_to_100_witness :
  let m := count_move 3 0 1 2 in
  Qabs (total_width (createCompactStatsBar m) - 100) <= 100 * two_roundings
  /\ (99 <= Math_round (winPercent m) + Math_round (drawPercent m)
            + Math_round (lossPercent m) <= 101)%Z.
Proof.
  destruct (createCompactStatsBar_rates_sum_to_100 3 0 1 2)
    as (_ & _ & _ & _ & _ & Hwidth & Hround); try lia.
  by split.
Defined.

(** The rounding at work.  One of three and two of three games give
    widths that sum to less than 100, and 29 of 200 games, exactly 14.5
    percent, are shown as 14%, not 15%: the quotient 0.145 is rounded
    down to a double, and so is its product with 100. *)
Lemma percent_is_rounded :
  total_width (createCompactStatsBar (count_move 3 0 1 2)) < 100
  /\ ~ percent 29 200 == exact_percent 29 200
  /\ Math_round (percent 29 200) = 14%Z
  /\ Math_round (exact_percent 29 200) = 15%Z.
Proof. split_and!; by vm_compute. Qed.

(** [percent] computes what the IEEE 754 operations of the Standard
    Library compute, here on a few counts. *)
Lemma percent_agrees_with_SpecFloat :
  forallb (fun '(x, games) =>
             match sf_value (sf_percent x games) with
             | Some v => Qeq_bool v (percent x games)
             | None => false
             end)
    [ (1, 3); (2, 3); (29, 200); (0, 5); (5, 9); (3, 9); (1, 9); (7, 11);
      (123456789, 987654321); (1, 7); (2, 7); (4, 7);
      (9007199254740991, 3); (1, 9007199254740991); (-5, 7) ]%Z
  = true.
Proof. by vm_compute. Qed.

(** The guard of [createCompactStatsBar]: without games the bar is the
    empty dashed one, whatever the other counts are. *)
Lemma createCompactStatsBar_no_data (m : Move) :
  num_or0 (mv_games m) = 0%Z ->
  createCompactStatsBar m = no_data_bar (Some "Keine Spieldaten verfügbar").
Proof.
  intros Hg. unfold createCompactStatsBar. by rewrite Hg.
Qed.

(** The guard of [createChessComBar]. *)
Lemma createChessComBar_no_data (m : Move) :
  num_or0 (mv_games m) = 0%Z ->
  bar_segments (createChessComBar m) = []
  /\ bar_border (createChessComBar m) = "1px dashed #ccc".
Proof.
  intros Hg. unfold createChessComBar. by rewrite Hg.
Qed.

(** The guard of [createWinrateDisplay]: a dash, not a percentage. *)
Lemma createWinrateDisplay_no_data (m : Move) :
  mv_games m = Some 0%Z -> createWinrateDisplay m = "–".
Proof.
  intros Hg. unfold createWinrateDisplay. by rewrite Hg.
Qed.

(** C2 at the position panel.  For a position without games
    ([played = 0], win rate 0 or missing) [updatePositionStats] writes
    [0.0%] as the win rate: it has no guard of the kind the bar and the
    win-rate display have.  The percentage of a moves-list entry is
    computed the same way, and the [aria-label] of a move button reads
    [0% Siegrate] for a move without games. *)
Theorem updatePositionStats_shows_zero_percent :
  updatePositionStats (Some {| ps_played := Some 0%Z; ps_win_rate := Some 0 |})
    = Some {| panel_games := "0"; panel_win_rate := "0.0%" |}
  /\ updatePositionStats (Some {| ps_played := Some 0%Z; ps_win_rate := None |})
    = Some {| panel_games := "0"; panel_win_rate := "0.0%" |}
  /\ movesListPercentage (count_move 0 0 0 0) = "0.0%"
  /\ label_win_rate (createMoveButton_label (count_move 0 0 0 0))
     = "0% Siegrate"
  /\ createCompactStatsBar (count_move 0 0 0 0)
     = no_data_bar (Some "Keine Spieldaten verfügbar")
  /\ createWinrateDisplay (count_move 0 0 0 0) = "–".
Proof.
  repeat split; vm_compute; reflexivity.
Qed.

(** ** Move arrows *)

(** The arrow of a move is built from its uci and its colour only:
    neither the games count nor an opacity or thickness sent with the
    move reaches it. *)
Lemma arrow_of_move_by_uci_and_color (player : option string)
    (m1 m2 : Move) :
  mv_uci m1 = mv_uci m2 -> mv_color m1 = mv_color m2 ->
  arrow_of_move player m1 = arrow_of_move player m2.
Proof. intros Huci Hcolor. unfold arrow_of_move. by rewrite Huci, Hcolor. Qed.

Lemma arrow_of_move_ignores_games (player : option string)
    (uci color : string) (g1 g2 : Z) (o t : Q) :
  arrow_of_move player (arrow_move uci color g1)
  = arrow_of_move player (weighted_move uci color g2 o t).
Proof. by apply arrow_of_move_by_uci_and_color. Qed.

(** C6 on the frontend.  Two moves of the same colour bucket with 1 and
    with 1000 games are drawn with the same opacity and the same
    thickness, and two moves with the same number of games are drawn 4
    and 6 wide when one is in the no-data bucket: what is drawn is fixed
    by the brush, not by the games count, and a move that comes with an
    opacity and a thickness of its own gets the same arrow as one without.
    The shapes that [showAvailableMovesArrows] hands to Chessground carry
    a brush name and nothing else to draw them by. *)
Theorem arrows_drawn_by_brush_not_by_games :
  (rendered_opacity <$> arrow_of_move None (arrow_move "e2e4" "#4caf50" 1))
    = (rendered_opacity <$> arrow_of_move None (arrow_move "d2d4" "#4caf50" 1000))
  /\ (rendered_thickness <$> arrow_of_move None (arrow_move "e2e4" "#4caf50" 1))
     = Some (Some 6%Z)
  /\ (rendered_thickness <$> arrow_of_move None (arrow_move "d2d4" "#4caf50" 1000))
     = Some (Some 6%Z)
  /\ (rendered_thickness <$> arrow_of_move None (arrow_move "e2e4" "#9e9e9e" 5))
     = Some (Some 4%Z)
  /\ (rendered_thickness <$> arrow_of_move None (arrow_move "d2d4" "#4caf50" 5))
     = Some (Some 6%Z)
  /\ arrow_of_move None (weighted_move "e2e4" "#4caf50" 1000 (1 # 2) 12)
     = arrow_of_move None (arrow_move "e2e4" "#4caf50" 1)
  /\ (cg_shapes <$>
        cg (exec (showAvailableMovesArrows
                    [ arrow_move "e2e4" "#4caf50" 1;
                      arrow_move "d2d4" "#4caf50" 1000 ])
                 (world_of initialAppState ())))
     = Some [ {| orig := "e2"; dest := "e4";
                 brush := PStr "excellent"; system := true |};
              {| orig := "d2"; dest := "d4";
                 brush := PStr "excellent"; system := true |} ].
Proof.
  repeat split; vm_compute; reflexivity.
Qed.

(** ** Running frontend computations *)


Section Triples.
Context {Server : Type}.
Implicit Types (w : World Server) (R : relation (World Server)).

Lemma triple_weaken {A} R (m : M Server A) (Q Q' : Completion A -> Prop) :
  triple R m Q -> (forall c, Q c -> Q' c) -> triple R m Q'.
Proof. intros H HQ w. destruct (H w). auto. Qed.

Lemma triple_ret {A} R `{!Reflexive R} (a : A) (Q : Completion A -> Prop) :
  Q (Normal a) -> triple R (mret a) Q.
Proof. intros HQ w. by split. Qed.

Lemma triple_throw {A} R `{!Reflexive R} (e : Exn)
    (Q : Completion A -> Prop) :
  Q (Throw e) -> triple R (throw e) Q.
Proof. intros HQ w. by split. Qed.

Lemma triple_bind {A B} R `{!Transitive R} (m : M Server A)
    (f : A -> M Server B) (Q1 : Completion A -> Prop)
    (Q2 : Completion B -> Prop) :
  triple R m Q1 ->
  (forall a, Q1 (Normal a) -> triple R (f a) Q2) ->
  (forall e, Q1 (Throw e) -> Q2 (Throw e)) ->
  triple R (m ≫= f) Q2.
Proof.
  intros Hm Hf He w. unfold mbind, M_bind.
  destruct (Hm w) as [HR HQ]. destruct (m w) as [[a | e] w1]; simpl in *.
  - destruct (Hf a HQ w1) as [HR' HQ'].
    split; [transitivity w1; assumption | assumption].
  - split; [assumption | by apply He].
Qed.

Lemma triple_try_catch {A} R `{!Transitive R} (body : M Server A)
    (handler : Exn -> M Server A) (Q1 Q2 : Completion A -> Prop) :
  triple R body Q1 ->
  (forall a, Q1 (Normal a) -> Q2 (Normal a)) ->
  (forall e, Q1 (Throw e) -> triple R (handler e) Q2) ->
  triple R (try_catch body handler) Q2.
Proof.
  intros Hb Hn Hh w. unfold try_catch.
  destruct (Hb w) as [HR HQ]. destruct (body w) as [[a | e] w1]; simpl in *.
  - split; [assumption | by apply Hn].
  - destruct (Hh e HQ w1) as [HR' HQ'].
    split; [transitivity w1; assumption | assumption].
Qed.

Lemma triple_get_app R `{!Reflexive R} (Q : Completion AppState -> Prop) :
  (forall w, Q (Normal (app w))) -> triple R get_app Q.
Proof. intros HQ w. split; [apply reflexivity | apply HQ]. Qed.

End Triples.

(** ** Studied nodes *)

(** What a run of [markNodeAsStudied] does, by the reply it gets. *)
Lemma markNodeAsStudied_run {Server}
    (serve : Request -> Server -> Reply * Server)
    (nodeId : NodeId) (sessionId : option string) (w : World Server) :
  let reply := (serve (MarkStudied nodeId sessionId) (server w)).1 in
  (markNodeAsStudied serve nodeId sessionId w).1
    = Normal (reports_success reply)
  /\ app (markNodeAsStudied serve nodeId sessionId w).2
     = (if reports_success reply
        then set_studiedNodes ({[nodeId]} ∪ studiedNodes (app w)) (app w)
        else app w).
Proof.
  unfold markNodeAsStudied, try_catch, fetch, mbind, M_bind.
  destruct (serve (MarkStudied nodeId sessionId) (server w)) as [r s].
  destruct r as [| | | d]; cbn; try done.
  by destruct (success d).
Qed.

(** C10.  [markNodeAsStudied] never throws; it returns [true] exactly
    when the backend's reply reports success; and [appState] changes only
    in that case, by the node id joining [studiedNodes].  On a failure
    response, a body that is not JSON or a rejected [fetch], it returns
    [false] and leaves [appState] as it was. *)
Theorem markNodeAsStudied_atomic {Server}
    (serve : Request -> Server -> Reply * Server)
    (nodeId : NodeId) (sessionId : option string) (w : World Server) :
  let reply := (serve (MarkStudied nodeId sessionId) (server w)).1 in
  let w' := exec (markNodeAsStudied serve nodeId sessionId) w in
  result (markNodeAsStudied serve nodeId sessionId) w
    = Normal (reports_success reply)
  /\ studiedNodes (app w')
     = (if reports_success reply then {[nodeId]} ∪ studiedNodes (app w)
        else studiedNodes (app w))
  /\ app w'
     = (if reports_success reply
        then set_studiedNodes ({[nodeId]} ∪ studiedNodes (app w)) (app w)
        else app w).
Proof.
  intros reply w'. subst w'. unfold exec, result.
  destruct (markNodeAsStudied_run serve nodeId sessionId w) as [Hres Happ].
  fold reply in Hres, Happ. rewrite Hres, Happ.
  repeat split. destruct (reports_success reply); [| done].
  by destruct (app w).
Qed.

(** A failed request at work: the backend rejects, the result is [false]
    and the set is as before. *)
Example markNodeAsStudied_rejected :
  let w := world_of initialAppState [Rejects] in
  let run := markNodeAsStudied scripted (IdNum 7) (Some "s") in
  result run w = Normal false
  /\ studiedNodes (app (exec run w)) = ∅
  /\ requests (exec run w) = [MarkStudied (IdNum 7) (Some "s")].
Proof. repeat split. Qed.

Example markNodeAsStudied_accepted :
  let w := world_of initialAppState [Json ok] in
  let run := markNodeAsStudied scripted (IdNum 7) (Some "s") in
  result run w = Normal true
  /\ studiedNodes (app (exec run w)) = {[IdNum 7]} ∪ ∅.
Proof. repeat split. Qed.


Lemma getUnstudiedMoves_run {Server}
    (serve : Request -> Server -> Reply * Server)
    (sessionId positionFen : option string) (w : World Server) :
  (getUnstudiedMoves serve sessionId positionFen w).1
    = Normal (unstudied_of positionFen
                (fun f => (serve (GetUnstudiedMoves sessionId f) (server w)).1))
  /\ app (getUnstudiedMoves serve sessionId positionFen w).2 = app w.
Proof.
  unfold getUnstudiedMoves, unstudied_of, try_catch, fetch, mbind, M_bind.
  destruct positionFen as [fen |]; [| done].
  destruct (serve (GetUnstudiedMoves sessionId fen) (server w)) as [r s].
  destruct r as [| | | d]; cbn; try done.
  destruct (success d); [| done]. by destruct (moves d).
Qed.

(** ** Navigation when the backend returns no node *)

Section Navigation.
Context {Server : Type}.
Variable serve : Request -> Server -> Reply * Server.
Variable chess_moves : option string -> option (list LegalMove).
Variable chess_move : option string -> string -> string -> option string.


#[local] Instance nav_kept_refl : Reflexive (@nav_kept Server).
Proof. by intros w. Qed.

#[local] Instance nav_kept_trans : Transitive (@nav_kept Server).
Proof.
  intros w1 w2 w3 [Hp12 Hi12] [Hp23 Hi23]. split; [congruence |].
  intros Hset. rewrite <- (Hi12 Hset). apply Hi23. by rewrite (Hi12 Hset).
Qed.

Lemma nav_same_kept (w w' : World Server) :
  nav_same w w' -> nav_kept w w'.
Proof. intros [Hp Hi]. by split. Qed.

Lemma fetch_nav (req : Request) :
  triple (@nav_kept Server) (fetch serve req) anyhow.
Proof.
  intros w. split; [| done]. apply nav_same_kept. unfold fetch.
  destruct (serve req (server w)) as [[| | | d] s]; by split.
Qed.

Lemma assign_nav (f : AppState -> AppState) :
  (forall a, currentPosition (f a) = currentPosition a
             /\ currentNodeId (f a) = currentNodeId a) ->
  triple (@nav_kept Server) (assign f) normally.
Proof.
  intros Hf w. split; [| by eexists]. apply nav_same_kept.
  destruct (Hf (app w)). by split.
Qed.

Lemma setTimeout_nav (t : Timer) :
  triple (@nav_kept Server) (@setTimeout Server t) normally.
Proof. intros w. split; [by apply nav_same_kept | by eexists]. Qed.

Lemma renderChessBoard_nav (fen : option string) (playerColor : string) :
  triple (@nav_kept Server) (@renderChessBoard Server fen playerColor) normally.
Proof.
  intros w. unfold renderChessBoard, mbind, M_bind, get_cg, get_app.
  destruct (cg w); cbn; (split; [by apply nav_same_kept | by eexists]).
Qed.

Lemma cg_set_nav (f : Chessground -> Chessground) :
  triple (@nav_kept Server) (@cg_set Server f) normally.
Proof. intros w. split; [by apply nav_same_kept | by eexists]. Qed.

Lemma get_app_nav : triple (@nav_kept Server) (@get_app Server) normally.
Proof. intros w. split; [done | by eexists]. Qed.

Lemma send_nav (req : Request) :
  triple (@nav_kept Server) (send serve req) normally.
Proof. intros w. split; [by apply nav_same_kept | by eexists]. Qed.

Lemma updateTrainingStatus_nav :
  triple (@nav_kept Server) (updateTrainingStatus serve) normally.
Proof.
  intros w. unfold updateTrainingStatus.
  destruct (_ && _); [apply send_nav | split; [done | by eexists]].
Qed.

Lemma legalMovesOf_nav (fen : option string) :
  triple (@nav_kept Server) (legalMovesOf chess_moves fen) anyhow.
Proof.
  intros w. unfold legalMovesOf.
  destruct (cg w); [destruct (chess_moves fen) |]; by split.
Qed.

Lemma window_updateLegalMovesFromBackend_call_nav :
  triple (@nav_kept Server)
    (window_updateLegalMovesFromBackend_call chess_moves) anyhow.
Proof.
  intros w. unfold window_updateLegalMovesFromBackend_call.
  destruct (cg w); [| by split].
  destruct (isOwnRepertoire (app w)); [| by split].
  destruct (chess_moves _); by split.
Qed.

Lemma ret_nav {A} (a : A) : triple (@nav_kept Server) (mret a) (eq (Normal a)).
Proof. by apply triple_ret. Qed.

(** Chaining steps that do not throw. *)
Lemma triple_seq {A B} (m : M Server A) (f : A -> M Server B)
    (Q : Completion B -> Prop) :
  triple (@nav_kept Server) m normally ->
  (forall a, triple (@nav_kept Server) (f a) Q) ->
  triple (@nav_kept Server) (m ≫= f) Q.
Proof.
  intros Hm Hf. eapply triple_bind; [apply _ | exact Hm | auto |].
  intros e [a Ha]. discriminate.
Qed.

Lemma triple_normally {A} (m : M Server A) (Q : Completion A -> Prop) :
  triple (@nav_kept Server) m Q -> (forall c, Q c -> normally c) ->
  triple (@nav_kept Server) m normally.
Proof. apply triple_weaken. Qed.

Lemma set_currentArrows_nav (v : list Move) (a : AppState) :
  currentPosition (set_currentArrows v a) = currentPosition a
  /\ currentNodeId (set_currentArrows v a) = currentNodeId a.
Proof. by destruct a. Qed.

Lemma set_isNavigating_nav (v : bool) (a : AppState) :
  currentPosition (set_isNavigating v a) = currentPosition a
  /\ currentNodeId (set_isNavigating v a) = currentNodeId a.
Proof. by destruct a. Qed.

Lemma set_isOpponentTurn_nav (v : bool) (a : AppState) :
  currentPosition (set_isOpponentTurn v a) = currentPosition a
  /\ currentNodeId (set_isOpponentTurn v a) = currentNodeId a.
Proof. by destruct a. Qed.

Lemma set_trainingHistory_nav (v : list HistoryEntry) (a : AppState) :
  currentPosition (set_trainingHistory v a) = currentPosition a
  /\ currentNodeId (set_trainingHistory v a) = currentNodeId a.
Proof. by destruct a. Qed.

Lemma set_studiedNodes_nav (v : gset NodeId) (a : AppState) :
  currentPosition (set_studiedNodes v a) = currentPosition a
  /\ currentNodeId (set_studiedNodes v a) = currentNodeId a.
Proof. by destruct a. Qed.

Lemma showAvailableMovesArrows_nav (moves : list Move) :
  triple (@nav_kept Server) (@showAvailableMovesArrows Server moves) normally.
Proof.
  unfold showAvailableMovesArrows.
  apply triple_seq; [apply assign_nav, set_currentArrows_nav | intros _].
  apply triple_seq; [apply cg_set_nav | intros _].
  apply triple_seq; [apply get_app_nav | intros a].
  destruct (trainingMode a);
    [eapply triple_normally; [apply ret_nav | by eexists] |].
  case_bool_decide;
    [eapply triple_normally; [apply ret_nav | by eexists] |].
  intros w. cbn beta. destruct (negb (isBoardReady w));
    [apply (setTimeout_nav _ w) | apply (cg_set_nav _ w)].
Qed.

Lemma set_currentNodeId_position (v : NodeId) (a : AppState) :
  currentPosition (set_currentNodeId v a) = currentPosition a.
Proof. by destruct a. Qed.

Lemma ensureNodeIdForCurrentPosition_nav :
  triple (@nav_kept Server) (ensureNodeIdForCurrentPosition serve) normally.
Proof.
  intros w.
  unfold ensureNodeIdForCurrentPosition, mbind, M_bind, get_app,
    try_catch, fetch, assign.
  cbn. destruct (id_set (currentNodeId (app w))) eqn:Hset; cbn.
  - split; [done | by eexists].
  - destruct (serve _ (server w)) as [[| | | d] s]; cbn;
      (split; [| by eexists]); (split; cbn;
        [by rewrite ?set_currentNodeId_position | congruence]).
Qed.

Lemma markNodeAsStudied_nav (n : NodeId) (sid : option string) :
  triple (@nav_kept Server) (markNodeAsStudied serve n sid) normally.
Proof.
  intros w.
  destruct (markNodeAsStudied_run serve n sid w) as [Hres Happ].
  cbn zeta in Hres, Happ. split; [| by eexists].
  apply nav_same_kept. unfold nav_same. rewrite Happ.
  destruct (reports_success _); [apply set_studiedNodes_nav | done].
Qed.

Lemma getUnstudiedMoves_nav (sid fen : option string) :
  triple (@nav_kept Server) (getUnstudiedMoves serve sid fen) normally.
Proof.
  intros w. destruct (getUnstudiedMoves_run serve sid fen w) as [Hres Happ].
  split; [| by eexists]. apply nav_same_kept. unfold nav_same.
  by rewrite Happ.
Qed.

(** From here on the backend returns no child node, whatever the node
    id, the move and its own state are. *)
Hypothesis no_child : forall n san sw s,
  returns_node (serve (GetChildNode n san sw) s).1 = None.

Lemma sendMoveToBackend_nav (moveSan : option string) :
  triple (@nav_kept Server) (sendMoveToBackend serve moveSan) (eq (Normal None)).
Proof.
  unfold sendMoveToBackend.
  apply triple_seq; [apply get_app_nav | intros a0].
  apply triple_seq.
  { destruct (id_set (currentNodeId a0)).
    - eapply triple_normally; [apply ret_nav | by eexists].
    - apply triple_seq; [apply ensureNodeIdForCurrentPosition_nav |].
      intros _. eapply triple_normally; [apply ret_nav | by eexists]. }
  intros _. apply triple_seq; [apply get_app_nav | intros a].
  destruct (negb (id_set (currentNodeId a)) || negb (str_set moveSan));
    [apply ret_nav |].
  intros w. unfold try_catch, fetch, mbind, M_bind. cbn.
  pose proof (no_child (currentNodeId a) moveSan
                (default false (saveSwitch w)) (server w)) as Hno.
  destruct (serve _ (server w)) as [r s]. cbn in Hno.
  destruct r as [| | | d]; cbn;
    try (split; [by apply nav_same_kept | done]).
  unfold returns_node in Hno.
  destruct (success d); cbn;
    try (split; [by apply nav_same_kept | done]).
  rewrite Hno. cbn. split; [by apply nav_same_kept | done].
Qed.

Lemma handleMoveClick_nav (moveIndex : nat) :
  triple (@nav_kept Server) (handleMoveClick serve chess_moves moveIndex)
    normally.
Proof.
  unfold handleMoveClick.
  apply triple_seq; [apply get_app_nav | intros a].
  destruct (availableMoves a !! moveIndex) as [move |];
    [| eapply triple_normally; [apply ret_nav | by eexists]].
  apply triple_seq; [| intros _; apply assign_nav, set_isNavigating_nav].
  eapply triple_try_catch with (Q1 := normally);
    [apply _ | | done | intros e []; discriminate].
  apply triple_seq; [apply assign_nav, set_isNavigating_nav | intros _].
  eapply triple_bind;
    [apply _ | apply sendMoveToBackend_nav | | intros e; discriminate].
  intros c Hc. injection Hc as <-.
  eapply triple_normally; [apply ret_nav | by eexists].
Qed.

Lemma playOpponentMove_nav (randomIndex : nat) :
  triple (@nav_kept Server) (playOpponentMove serve chess_moves randomIndex)
    normally.
Proof.
  unfold playOpponentMove.
  apply triple_seq; [apply get_app_nav | intros a].
  destruct (negb (trainingMode a) || negb (isOpponentTurn a));
    [eapply triple_normally; [apply ret_nav | by eexists] |].
  eapply triple_try_catch with (Q1 := anyhow);
    [apply _ | | by eexists |
     intros e _; eapply triple_normally; [apply ret_nav | by eexists]].
  eapply triple_bind with (Q1 := normally); [apply _ | | | done].
  { destruct (str_set (trainingSessionId a) && unstudiedMovesOnly a);
      [apply getUnstudiedMoves_nav |
       eapply triple_normally; [apply ret_nav | by eexists]]. }
  intros ms _. case_bool_decide.
  - eapply triple_weaken; [| done].
    apply triple_seq; [| intros _; apply setTimeout_nav].
    destruct (id_set (currentNodeId a) && str_set (trainingSessionId a));
      [| eapply triple_normally; [apply ret_nav | by eexists]].
    apply triple_seq; [apply markNodeAsStudied_nav | intros _].
    eapply triple_normally; [apply ret_nav | by eexists].
  - destruct (ms !! randomIndex) as [selectedMove |];
      [| by apply triple_throw].
    eapply triple_bind;
      [apply _ | apply sendMoveToBackend_nav | | done].
    intros c Hc. injection Hc as <-. by apply triple_ret.
Qed.

Lemma negativeFeedback_nav (moveSan : string) :
  triple (@nav_kept Server) (negativeFeedback serve moveSan) normally.
Proof.
  unfold negativeFeedback.
  apply triple_seq; [apply setTimeout_nav | intros _].
  apply triple_seq; [apply get_app_nav | intros a].
  apply triple_seq; [apply assign_nav, set_trainingHistory_nav | intros _].
  apply triple_seq; [apply getUnstudiedMoves_nav | intros ms].
  apply triple_seq; [| intros _; apply updateTrainingStatus_nav].
  case_bool_decide;
    [eapply triple_normally; [apply ret_nav | by eexists] |
     apply showAvailableMovesArrows_nav].
Qed.

Lemma checkMoveInRepertoire_nav (moveSan : string) :
  triple (@nav_kept Server) (@checkMoveInRepertoire Server moveSan) normally.
Proof. intros w. split; [done | by eexists]. Qed.

Lemma handleTrainingMove_nav (from to : string) :
  triple (@nav_kept Server)
    (handleTrainingMove serve chess_moves chess_move from to) normally.
Proof.
  unfold handleTrainingMove.
  apply triple_seq; [apply get_app_nav | intros a].
  destruct (negb (trainingMode a) || isOpponentTurn a);
    [eapply triple_normally; [apply ret_nav | by eexists] |].
  eapply triple_try_catch with (Q1 := anyhow);
    [apply _ | | by eexists |
     intros e _; eapply triple_normally; [apply ret_nav | by eexists]].
  eapply triple_bind with (Q1 := anyhow);
    [apply _ | apply legalMovesOf_nav | | done].
  intros legalMoves _.
  destruct (find_legal from to legalMoves) as [found |];
    [| by apply triple_ret].
  destruct (chess_move (currentPosition a) from to) as [newFen |];
    [| by apply triple_throw].
  apply triple_seq; [apply renderChessBoard_nav | intros _].
  apply triple_seq; [apply checkMoveInRepertoire_nav | intros moveExists].
  eapply triple_bind with (Q1 := eq (Normal None));
    [apply _ | | | intros e; discriminate].
  { destruct moveExists; [apply sendMoveToBackend_nav | apply ret_nav]. }
  intros c Hc. injection Hc as <-.
  eapply triple_weaken; [apply negativeFeedback_nav | done].
Qed.

Lemma handleDragDropMove_nav (from to : string) :
  triple (@nav_kept Server)
    (handleDragDropMove serve chess_moves chess_move from to) anyhow.
Proof.
  unfold handleDragDropMove.
  apply triple_seq; [apply get_app_nav | intros a].
  destruct (trainingMode a);
    [eapply triple_weaken; [apply handleTrainingMove_nav | done] |].
  destruct (isOwnRepertoire a).
  - eapply triple_bind with (Q1 := anyhow);
      [apply _ | apply legalMovesOf_nav | | done].
    intros legalMoves _.
    destruct (find_legal from to legalMoves) as [found |];
      [| eapply triple_weaken; [apply renderChessBoard_nav | done]].
    destruct (chess_move (currentPosition a) from to) as [newFen |];
      [| by apply triple_throw].
    eapply triple_bind;
      [apply _ | apply sendMoveToBackend_nav | | done].
    intros c Hc. injection Hc as <-.
    apply triple_seq; [apply renderChessBoard_nav | intros _].
    apply window_updateLegalMovesFromBackend_call_nav.
  - eapply triple_try_catch with (Q1 := anyhow);
      [apply _ | | done |
       intros e _; eapply triple_weaken;
         [apply renderChessBoard_nav | done]].
    destruct (find_index _ _) as [moveIndex |];
      (eapply triple_weaken;
        [first [apply handleMoveClick_nav | apply renderChessBoard_nav]
        | done]).
Qed.
End Navigation.


(** C7, as the code has it.  Against a backend that returns no child
    node (the node is missing or deleted, the backend reports a failure,
    the body is not JSON or the network fails), [sendMoveToBackend]
    returns [null] without throwing; its callers [handleMoveClick],
    [handleTrainingMove] and [playOpponentMove] complete without throwing;
    after each of them, and after [handleDragDropMove], the current
    position is unchanged and so is the current node id if it was set on
    entry (an unset node id may be filled in for the current position by
    [ensureNodeIdForCurrentPosition]).  [getUnstudiedMoves] never throws,
    leaves [appState] alone, and returns the empty list unless the reply
    reports success. *)
Theorem navigation_tolerates_missing_node {Server}
    (serve : Request -> Server -> Reply * Server)
    (chess_moves : option string -> option (list LegalMove))
    (chess_move : option string -> string -> string -> option string) :
  (forall n san sw s,
      returns_node (serve (GetChildNode n san sw) s).1 = None) ->
  forall w : World Server,
    (forall moveSan,
        result (sendMoveToBackend serve moveSan) w = Normal None
        /\ nav_kept w (exec (sendMoveToBackend serve moveSan) w))
    /\ (forall i,
        normally (result (handleMoveClick serve chess_moves i) w)
        /\ nav_kept w (exec (handleMoveClick serve chess_moves i) w))
    /\ (forall from to,
        nav_kept w
          (exec (handleDragDropMove serve chess_moves chess_move from to) w))
    /\ (forall from to,
        normally
          (result (handleTrainingMove serve chess_moves chess_move from to) w)
        /\ nav_kept w
             (exec (handleTrainingMove serve chess_moves chess_move from to) w))
    /\ (forall i,
        normally (result (playOpponentMove serve chess_moves i) w)
        /\ nav_kept w (exec (playOpponentMove serve chess_moves i) w))
    /\ (forall sid fen,
        result (getUnstudiedMoves serve sid fen) w
          = Normal (unstudied_of fen
                      (fun f => (serve (GetUnstudiedMoves sid f) (server w)).1))
        /\ app (exec (getUnstudiedMoves serve sid fen) w) = app w
        /\ (forall f, fen = Some f ->
              reports_success (serve (GetUnstudiedMoves sid f) (server w)).1
                = false ->
              result (getUnstudiedMoves serve sid fen) w = Normal [])).
Proof.
  intros no_child w. unfold exec, result. repeat split.
  - by destruct (sendMoveToBackend_nav serve no_child moveSan w).
  - by destruct (sendMoveToBackend_nav serve no_child moveSan w) as [[] _].
  - by destruct (sendMoveToBackend_nav serve no_child moveSan w) as [[] _].
  - by destruct (handleMoveClick_nav serve chess_moves no_child i w).
  - by destruct (handleMoveClick_nav serve chess_moves no_child i w) as [[] _].
  - by destruct (handleMoveClick_nav serve chess_moves no_child i w) as [[] _].
  - by destruct (handleDragDropMove_nav serve chess_moves chess_move
                   no_child from to w) as [[] _].
  - by destruct (handleDragDropMove_nav serve chess_moves chess_move
                   no_child from to w) as [[] _].
  - by destruct (handleTrainingMove_nav serve chess_moves chess_move
                   no_child from to w).
  - by destruct (handleTrainingMove_nav serve chess_moves chess_move
                   no_child from to w) as [[] _].
  - by destruct (handleTrainingMove_nav serve chess_moves chess_move
                   no_child from to w) as [[] _].
  - by destruct (playOpponentMove_nav serve chess_moves no_child i w).
  - by destruct (playOpponentMove_nav serve chess_moves no_child i w) as [[] _].
  - by destruct (playOpponentMove_nav serve chess_moves no_child i w) as [[] _].
  - by destruct (getUnstudiedMoves_run serve sid fen w).
  - by destruct (getUnstudiedMoves_run serve sid fen w).
  - intros f -> Hfail.
    destruct (getUnstudiedMoves_run serve sid (Some f) w) as [-> _].
    unfold unstudied_of. unfold reports_success in Hfail.
    destruct (serve _ (server w)).1 as [| | | d]; try done. by rewrite Hfail.
Qed.

(** The theorem at a node that was deleted: the current node is 5, the
    move e4 is on offer, and the backend answers the request for the
    child with a failure.  The click sends that one request and completes
    normally; the position is the same and the node id is still 5. *)
Lemma navigation_tolerates_missing_node_witness :
  let a := set_currentNodeId (IdNum 5)
             (set_availableMoves [uci_move "e2e4" "e4"] initialAppState) in
  let w := world_of a () in
  let w' := exec (handleMoveClick node_deleted only_e4 0) w in
  requests w' = [GetChildNode (IdNum 5) (Some "e4") false]
  /\ normally (result (handleMoveClick node_deleted only_e4 0) w)
  /\ currentPosition (app w') = currentPosition (app w)
  /\ currentNodeId (app w') = IdNum 5.
Proof.
  intros a w w'.
  destruct (navigation_tolerates_missing_node node_deleted only_e4 after_e4
              (fun _ _ _ _ => eq_refl) w) as (_ & Hclick & _).
  destruct (Hclick 0%nat) as [Hnormal [Hposition Hid]].
  split; [reflexivity |]. split; [exact Hnormal |].
  split; [exact Hposition |]. exact (Hid eq_refl).
Defined.


(** C7 as stated fails when the node id is unset on entry.  From the
    initial state with the move e4 on offer, the backend names node 7 for
    the current position and then reports a failure for the move:
    [sendMoveToBackend] returns [null], and yet after [handleMoveClick]
    the current node id is 7, not the [null] it was. *)
Lemma handleMoveClick_fills_in_node_id :
  let a := set_availableMoves [uci_move "e2e4" "e4"] initialAppState in
  let w := world_of a [Json found_node_7; Json failure] in
  let w' := exec (handleMoveClick scripted no_chess_moves 0) w in
  result (sendMoveToBackend scripted (Some "e4")) w = Normal None
  /\ result (handleMoveClick scripted no_chess_moves 0) w = Normal ()
  /\ currentNodeId (app w) = NoId
  /\ currentNodeId (app w') = IdNum 7
  /\ currentNodeId (app w') <> currentNodeId (app w)
  /\ currentPosition (app w') = currentPosition (app w)
  /\ requests w'
     = [ FindMoves (Some DEFAULT_FEN) None "white";
         GetChildNode (IdNum 7) (Some "e4") false ].
Proof. repeat split; vm_compute; congruence. Qed.

(** ** Tree mode: which moves are forwarded *)


Lemma prefix_refl (s : string) : String.prefix s s = true.
Proof.
  induction s as [| c s IH]; [reflexivity |].
  simpl. destruct (Ascii.ascii_dec c c); [exact IH | congruence].
Qed.

Lemma prefix_empty_r (p : string) : String.prefix p "" = true -> p = "".
Proof. by destruct p. Qed.

Lemma prefix_same_length (p s : string) :
  String.prefix p s = true -> String.length p = String.length s -> p = s.
Proof.
  revert s. induction p as [| c p IH]; intros [| d s] Hp Hlen; try done.
  simpl in Hp. destruct (Ascii.ascii_dec c d) as [-> |]; [| done].
  f_equal. apply IH; [done | by injection Hlen].
Qed.

Lemma prefix_length (p s : string) :
  String.prefix p s = true -> (String.length p <= String.length s)%nat.
Proof.
  revert s. induction p as [| c p IH]; intros [| d s] Hp; simpl; try lia.
  - done.
  - simpl in Hp. destruct (Ascii.ascii_dec c d); [| done].
    specialize (IH s Hp). lia.
Qed.

(** The predicate of the [find] holds exactly for the moves whose uci
    begins with [from + to]. *)
Lemma matches_begins_with (from to : string) (m : Move) :
  matches from to m = true <-> begins_with from to m.
Proof.
  unfold matches, begins_with, isEquivalentMove, str_set, startsWith.
  destruct (mv_uci m) as [u |]; cbn.
  - split.
    + intros H. exists u. split; [done |].
      destruct (String.prefix (from +:+ to) u) eqn:Hp; [done |]. exfalso.
      assert (u <> from +:+ to) as Hne
        by (intros ->; by rewrite prefix_refl in Hp).
      rewrite !andb_false_r in H.
      repeat case_bool_decide; simplify_eq; cbn in H; done.
    + intros (u' & [= <-] & Hp).
      repeat case_bool_decide; simplify_eq; cbn in *; try done.
      * apply prefix_empty_r in Hp. congruence.
      * by rewrite Hp.
      * by rewrite Hp.
  - split; [done | by intros (u & ? & _)].
Qed.

Lemma find_index_None (p : Move -> bool) (ms : list Move) :
  find_index p ms = None <-> forall m, m ∈ ms -> p m = false.
Proof.
  induction ms as [| m ms IH]; simpl.
  - split; [by intros _ m ?%elem_of_nil | done].
  - destruct (p m) eqn:Hp.
    + split; [done |]. intros H. rewrite H in Hp; [done | by left].
    + destruct (find_index p ms); simpl.
      * split; [done |]. intros H.
        assert (Some n = None) as [=]. { apply IH. intros m' ?. apply H. by right. }
      * split; [| done]. intros _ m' [-> | Hin]%elem_of_cons; [done |].
        by apply IH.
Qed.

Lemma find_index_Some (p : Move -> bool) (ms : list Move) (i : nat) :
  find_index p ms = Some i -> exists m, ms !! i = Some m /\ p m = true.
Proof.
  revert i. induction ms as [| m ms IH]; intros i; simpl; [done |].
  destruct (p m) eqn:Hp.
  - intros [= <-]. by exists m.
  - destruct (find_index p ms) as [j |]; simpl; [| done].
    intros [= <-]. by apply IH.
Qed.

Lemma renderChessBoard_run {Server} (fen : option string)
    (playerColor : string) (w : World Server) :
  (renderChessBoard fen playerColor w).1 = Normal ()
  /\ app (renderChessBoard fen playerColor w).2 = app w
  /\ requests (renderChessBoard fen playerColor w).2 = requests w
  /\ (forall b f, cg w = Some b -> fen = Some f -> f <> "" ->
        cg_fen <$> cg (renderChessBoard fen playerColor w).2 = Some f).
Proof.
  unfold renderChessBoard, mbind, M_bind, get_cg, get_app, cg_set, setTimeout.
  cbn. destruct (cg w) as [b |] eqn:Hcg; cbn; repeat split; try done.
  intros b' f [= <-] -> Hf. rewrite Hcg. cbn. by rewrite bool_decide_eq_false_2.
Qed.

(** [handleDragDropMove] outside training mode and outside the own
    repertoire: the first matching move is clicked, or the board is
    rendered again. *)
Lemma handleDragDropMove_tree_mode {Server}
    (serve : Request -> Server -> Reply * Server)
    (chess_moves : option string -> option (list LegalMove))
    (chess_move : option string -> string -> string -> option string)
    (from to : string) (w : World Server) :
  trainingMode (app w) = false -> isOwnRepertoire (app w) = false ->
  handleDragDropMove serve chess_moves chess_move from to w
  = match find_index (matches from to) (availableMoves (app w)) with
    | Some i =>
        try_catch (handleMoveClick serve chess_moves i)
          (fun _ => renderChessBoard (currentPosition (app w))
                                     (currentColor (app w))) w
    | None =>
        renderChessBoard (currentPosition (app w)) (currentColor (app w)) w
    end.
Proof.
  intros Htrain Hown. unfold handleDragDropMove, mbind, M_bind, get_app.
  cbn. rewrite Htrain, Hown.
  destruct (find_index _ _) as [i |]; [done |].
  unfold try_catch.
  destruct (renderChessBoard_run (currentPosition (app w))
              (currentColor (app w)) w) as (Hres & _).
  destruct (renderChessBoard _ _ w) as [c w']. cbn in Hres. by subst c.
Qed.

(** Which drops are forwarded, for any uci strings.  With training mode
    off and a player that is not a repertoire player, [handleDragDropMove]
    sends a request only if the uci string of some available move begins
    with [from + to].  When no available move does, the call is exactly a
    re-rendering of the current position. *)
Lemma handleDragDropMove_forwards_on_prefix {Server}
    (serve : Request -> Server -> Reply * Server)
    (chess_moves : option string -> option (list LegalMove))
    (chess_move : option string -> string -> string -> option string)
    (from to : string) (w : World Server) :
  trainingMode (app w) = false -> isOwnRepertoire (app w) = false ->
  let run := handleDragDropMove serve chess_moves chess_move from to in
  (requests (exec run w) <> requests w ->
     exists m, m ∈ availableMoves (app w) /\ begins_with from to m)
  /\ ((forall m, m ∈ availableMoves (app w) -> ~ begins_with from to m) ->
      run w = renderChessBoard (currentPosition (app w))
                               (currentColor (app w)) w).
Proof.
  intros Htrain Hown run.
  pose proof (handleDragDropMove_tree_mode serve chess_moves chess_move
                from to w Htrain Hown) as Hrun.
  fold run in Hrun.
  destruct (renderChessBoard_run (currentPosition (app w))
              (currentColor (app w)) w) as (Hres & Happ & Hreq & Hfen).
  split.
  - intros Hsent.
    destruct (find_index (matches from to) (availableMoves (app w)))
      as [i |] eqn:Hfind.
    + apply find_index_Some in Hfind as (m & Hm & Hmatch).
      exists m. split; [by eapply list_elem_of_lookup_2 |].
      by apply matches_begins_with.
    + exfalso. apply Hsent. unfold exec. by rewrite Hrun.
  - intros Hnone.
    assert (find_index (matches from to) (availableMoves (app w)) = None)
      as Hfind.
    { apply find_index_None. intros m Hm.
      destruct (matches from to m) eqn:Hmatch; [| done].
      by apply matches_begins_with, Hnone in Hmatch. }
    by rewrite Hfind in Hrun.
Qed.

(** For two squares and a uci string of at most five characters, "begins
    with [from + to]" is "equal to [from + to], or five characters long
    and beginning with it". *)
Lemma begins_with_equal_or_promotion (from to : string) (m : Move) :
  String.length (from +:+ to) = 4%nat ->
  (forall u, mv_uci m = Some u -> (String.length u <= 5)%nat) ->
  begins_with from to m <-> equal_or_promotion from to m.
Proof.
  intros Hlen Hle. unfold begins_with, equal_or_promotion, startsWith. split.
  - intros (u & Hu & Hp). exists u. split; [done |].
    pose proof (prefix_length _ _ Hp) as Hlen'.
    specialize (Hle u Hu).
    destruct (decide (String.length u = 5%nat)) as [H5 | H5];
      [by right |].
    left. symmetry. apply prefix_same_length; [done | lia].
  - intros (u & Hu & [Heq | [_ Hp]]); exists u; (split; [done |]); [| done].
    rewrite Heq. apply prefix_refl.
Qed.

(** C9.  With training mode off and a player that is not a repertoire
    player, for two squares [from] and [to] and available moves whose uci
    strings have at most five characters (a uci move has four, or five
    for a promotion): [handleDragDropMove] sends a request only if some
    available move has a uci equal to [from + to] or a five-character uci
    that begins with [from + to].  For every other pair of squares the
    call is exactly a re-rendering of the current position: it completes
    normally, sends nothing, leaves [appState] (so the current position
    and node id) as it was, and shows the current position on the
    board. *)
Theorem handleDragDropMove_tree_mode_gating {Server}
    (serve : Request -> Server -> Reply * Server)
    (chess_moves : option string -> option (list LegalMove))
    (chess_move : option string -> string -> string -> option string)
    (from to : string) (w : World Server) :
  trainingMode (app w) = false -> isOwnRepertoire (app w) = false ->
  String.length (from +:+ to) = 4%nat ->
  (forall m u, m ∈ availableMoves (app w) -> mv_uci m = Some u ->
     (String.length u <= 5)%nat) ->
  let run := handleDragDropMove serve chess_moves chess_move from to in
  (requests (exec run w) <> requests w ->
     exists m, m ∈ availableMoves (app w) /\ equal_or_promotion from to m)
  /\ ((forall m, m ∈ availableMoves (app w) ->
         ~ equal_or_promotion from to m) ->
      run w = renderChessBoard (currentPosition (app w))
                               (currentColor (app w)) w
      /\ result run w = Normal ()
      /\ requests (exec run w) = requests w
      /\ app (exec run w) = app w
      /\ (forall b f, cg w = Some b -> currentPosition (app w) = Some f ->
            f <> "" -> cg_fen <$> cg (exec run w) = Some f)).
Proof.
  intros Htrain Hown Hlen Huci run.
  destruct (handleDragDropMove_forwards_on_prefix serve chess_moves chess_move
              from to w Htrain Hown) as [Hsent Hreject].
  fold run in Hsent, Hreject.
  destruct (renderChessBoard_run (currentPosition (app w))
              (currentColor (app w)) w) as (Hres & Happ & Hreq & Hfen).
  split.
  - intros Hne. destruct (Hsent Hne) as (m & Hm & Hbegins).
    exists m. split; [done |].
    apply begins_with_equal_or_promotion; [done | by eauto | done].
  - intros Hnone.
    assert (run w = renderChessBoard (currentPosition (app w))
                      (currentColor (app w)) w) as Hrun.
    { apply Hreject. intros m Hm Hbegins. apply (Hnone m Hm).
      apply begins_with_equal_or_promotion; [done | by eauto | done]. }
    unfold exec, result. rewrite Hrun. by repeat split.
Qed.

(** The theorem at a position that offers d2-d4 and the promotion e7-e8,
    at node 1.  Dropping a piece from e2 on e4 sends nothing and changes
    nothing; dropping the pawn from e7 on e8 sends the promotion, which
    is one of the available moves. *)
Lemma handleDragDropMove_tree_mode_gating_witness :
  let a := set_currentNodeId (IdNum 1)
             (set_availableMoves
                [uci_move "d2d4" "d4"; uci_move "e7e8q" "e8=Q"]
                initialAppState) in
  let w := world_of a () in
  let rejected := handleDragDropMove offline no_chess_moves no_chess_move
                    "e2" "e4" in
  let forwarded := handleDragDropMove offline no_chess_moves no_chess_move
                     "e7" "e8" in
  (result rejected w = Normal ()
   /\ requests (exec rejected w) = requests w
   /\ app (exec rejected w) = app w)
  /\ requests (exec forwarded w) = [GetChildNode (IdNum 1) (Some "e8=Q") false]
  /\ exists m, m ∈ availableMoves a /\ equal_or_promotion "e7" "e8" m.
Proof.
  intros a w rejected forwarded.
  assert (forall m u, m ∈ availableMoves (app w) -> mv_uci m = Some u ->
            (String.length u <= 5)%nat) as Huci.
  { intros m u Hm Hu. cbn in Hm.
    apply elem_of_cons in Hm as [-> | Hm];
      [injection Hu as <-; cbn; lia |].
    apply list_elem_of_singleton in Hm as ->. injection Hu as <-. cbn. lia. }
  split; [| split; [reflexivity |]].
  - destruct (handleDragDropMove_tree_mode_gating offline no_chess_moves
                no_chess_move "e2" "e4" w eq_refl eq_refl eq_refl Huci)
      as [_ Hreject].
    destruct Hreject as (_ & Hres & Hreq & Happ & _); [| done].
    intros m Hm (u & Hu & Hallowed). cbn in Hm.
    apply elem_of_cons in Hm as [-> | Hm].
    + injection Hu as <-. by destruct Hallowed as [? | [? ?]].
    + apply list_elem_of_singleton in Hm as ->. injection Hu as <-.
      by destruct Hallowed as [? | [? ?]].
  - destruct (handleDragDropMove_tree_mode_gating offline no_chess_moves
                no_chess_move "e7" "e8" w eq_refl eq_refl eq_refl Huci)
      as [Hsent _].
    apply Hsent. by vm_compute.
Defined.

(** The third disjunct of the [find] has no length test: a string of
    more than five characters that begins with [from + to] is matched as
    well.  No uci move is that long. *)
Lemma handleDragDropMove_forwards_longer_uci :
  let a := set_currentNodeId (IdNum 1)
             (set_availableMoves [uci_move "e2e4xx" "e4"] initialAppState) in
  let w := world_of a [] in
  let run := handleDragDropMove scripted no_chess_moves no_chess_move
               "e2" "e4" in
  trainingMode a = false
  /\ isOwnRepertoire a = false
  /\ (forall m u, m ∈ availableMoves a -> mv_uci m = Some u ->
        u <> "e2e4" /\ String.length u <> 5%nat)
  /\ requests (exec run w) = [GetChildNode (IdNum 1) (Some "e4") false]
  /\ requests (exec run w) <> requests w.
Proof.
  split; [reflexivity |]. split; [reflexivity |]. split.
  - intros m u Hm Hu. apply list_elem_of_singleton in Hm as ->.
    injection Hu as <-. by split.
  - split; vm_compute; congruence.
Qed.

(** ** Learning statistics against the session store *)

Section Learning.
Import Backend.

(** The endpoints of the position tree answer as they like. *)
Variable tree : Request -> Reply.

Implicit Type w : World (gmap string TrainingSession).

Lemma session_insert (sid : string) (s : TrainingSession)
    (st : gmap string TrainingSession) :
  session sid (<[sid := s]> st) = s.
Proof. unfold session. by rewrite lookup_insert_eq. Qed.

(** The reply to [mark_directly_learned] says "newly learned" exactly
    when the session does not hold the node yet. *)
Lemma markNodeAsDirectlyLearned_run (n : NodeId) (sid : string) w :
  let s := session sid (server w) in
  exists d,
    markNodeAsDirectlyLearned (serve tree) n (Some sid) w
      = (Normal d,
         sent (MarkDirectlyLearned n (Some sid))
              (<[sid := (markDirectlyLearned n s).2]> (server w)) w)
    /\ success d = true
    /\ newly_learned d = bool_decide (n ∉ directlyLearnedNodeIds s)
    /\ n ∈ directlyLearnedNodeIds (markDirectlyLearned n s).2.
Proof.
  unfold markNodeAsDirectlyLearned, fetch, serve.
  unfold markDirectlyLearned.
  case_bool_decide as Hin; cbn; eexists; (split; [reflexivity |]); cbn.
  - repeat split; [| done]. by rewrite bool_decide_eq_false_2 by auto.
  - repeat split; [| set_solver]. by rewrite bool_decide_eq_true_2.
Qed.

Lemma markNodeAsDirectlyLearned_no_session (n : NodeId) w :
  markNodeAsDirectlyLearned (serve tree) n None w
  = (Normal failure, sent (MarkDirectlyLearned n None) (server w) w).
Proof. reflexivity. Qed.

Lemma set_directlyLearnedNodes_session (v : gset NodeId) (a : AppState) :
  trainingSessionId (set_directlyLearnedNodes v a) = trainingSessionId a.
Proof. by destruct a. Qed.

(** One run of [handleCorrectMove]: afterwards the session, if there
    is one, holds the node, and the session id is the same. *)
Lemma handleCorrectMove_run (n : NodeId) w :
  let w1 := (handleCorrectMove (serve tree) n w).2 in
  trainingSessionId (app w1) = trainingSessionId (app w)
  /\ (forall sid, trainingSessionId (app w) = Some sid ->
        n ∈ directlyLearnedNodeIds (session sid (server w1))).
Proof.
  unfold handleCorrectMove, mbind, M_bind, get_app. cbn zeta beta.
  destruct (trainingSessionId (app w)) as [sid |] eqn:Hsid.
  - destruct (markNodeAsDirectlyLearned_run n sid w)
      as (d & -> & Hok & Hnew & Hin). cbn. rewrite Hok. cbn.
    destruct (newly_learned d); cbn.
    + unfold updateLearningStatsDisplay, assign. cbn.
      destruct (learningStats w); cbn;
        rewrite set_directlyLearnedNodes_session;
        (split; [done |]); intros ? [= <-]; by rewrite session_insert.
    + split; [done |]. intros ? [= <-]. by rewrite session_insert.
  - rewrite markNodeAsDirectlyLearned_no_session. cbn. by split.
Qed.

(** A run of [handleCorrectMove] for a node the session already holds:
    the backend does not report it as newly learned, and the frontend
    changes neither [appState] nor the statistics shown. *)
Lemma handleCorrectMove_known (n : NodeId) w :
  (forall sid, trainingSessionId (app w) = Some sid ->
     n ∈ directlyLearnedNodeIds (session sid (server w))) ->
  (exists d,
      (markNodeAsDirectlyLearned (serve tree) n
         (trainingSessionId (app w)) w).1 = Normal d
      /\ newly_learned d = false)
  /\ (handleCorrectMove (serve tree) n w).1 = Normal ()
  /\ app (handleCorrectMove (serve tree) n w).2 = app w
  /\ learningStats (handleCorrectMove (serve tree) n w).2 = learningStats w.
Proof.
  intros Hknown.
  unfold handleCorrectMove, mbind, M_bind, get_app. cbn zeta beta.
  destruct (trainingSessionId (app w)) as [sid |] eqn:Hsid.
  - destruct (markNodeAsDirectlyLearned_run n sid w)
      as (d & -> & Hok & Hnew & Hin). cbn.
    rewrite bool_decide_eq_false_2 in Hnew by (intros Hn; by apply Hn, Hknown).
    rewrite Hok, Hnew. cbn. split; [by exists d | done].
  - rewrite markNodeAsDirectlyLearned_no_session. cbn.
    split; [by exists failure | done].
Qed.
End Learning.

(** Whatever the backend answers, [handleCorrectMove] for a node that is
    already in [directlyLearnedNodes] leaves the set, and so the learned
    count, as it is. *)
Lemma handleCorrectMove_learned_node {Server}
    (serve : Request -> Server -> Reply * Server)
    (nodeId : NodeId) (w : World Server) :
  nodeId ∈ directlyLearnedNodes (app w) ->
  directlyLearnedNodes (app (exec (handleCorrectMove serve nodeId) w))
    = directlyLearnedNodes (app w)
  /\ learnedCount (app (exec (handleCorrectMove serve nodeId) w))
     = learnedCount (app w).
Proof.
  intros Hin.
  assert (directlyLearnedNodes (app (exec (handleCorrectMove serve nodeId) w))
          = directlyLearnedNodes (app w)) as Hset.
  { destruct w as [a c sw ls sv rq tm]. destruct a. cbn in Hin.
    unfold exec, handleCorrectMove, markNodeAsDirectlyLearned, fetch,
      mbind, M_bind, get_app, assign, updateLearningStatsDisplay.
    cbn.
    destruct (serve (MarkDirectlyLearned _ _) sv) as [[| | | d] s];
      cbn; try done.
    destruct (success d && newly_learned d); cbn; [| done].
    destruct ls; cbn; apply subseteq_union_1_L;
      by apply singleton_subseteq_l. }
  split; [exact Hset |]. unfold learnedCount. by rewrite Hset.
Qed.

(** C1.  Against the session store, a second [handleCorrectMove] for the
    same node in the same session finds the backend reporting
    [newly_learned = false]; it completes normally and leaves [appState]
    as the first call left it, so [directlyLearnedNodes] is the same set,
    the learned count is the same number and the statistics shown are
    the same text. *)
Theorem handleCorrectMove_idempotent (tree : Request -> Reply)
    (nodeId : NodeId) (w : World (gmap string Backend.TrainingSession)) :
  let serve := Backend.serve tree in
  let w1 := exec (handleCorrectMove serve nodeId) w in
  let w2 := exec (handleCorrectMove serve nodeId) w1 in
  (exists d,
      result (markNodeAsDirectlyLearned serve nodeId
                (trainingSessionId (app w1))) w1 = Normal d
      /\ newly_learned d = false)
  /\ result (handleCorrectMove serve nodeId) w1 = Normal ()
  /\ directlyLearnedNodes (app w2) = directlyLearnedNodes (app w1)
  /\ learnedCount (app w2) = learnedCount (app w1)
  /\ learningStats w2 = learningStats w1
  /\ app w2 = app w1.
Proof.
  intros serve w1 w2.
  destruct (handleCorrectMove_run tree nodeId w) as [Hsid Hheld].
  fold serve in Hsid, Hheld. fold (exec (handleCorrectMove serve nodeId) w) in Hsid, Hheld.
  fold w1 in Hsid, Hheld.
  destruct (handleCorrectMove_known tree nodeId w1) as (Hrep & Hres & Happ & Hshown).
  { intros sid Hs. apply Hheld. by rewrite <- Hsid. }
  fold serve in Hrep, Hres, Happ, Hshown.
  unfold learnedCount, w2, exec, result. rewrite Happ. by repeat split.
Qed.

(** The two calls at work: node 5 in session [s], from an empty store. *)
Example handleCorrectMove_twice :
  let serve := Backend.serve (fun _ => Rejects) in
  let a := set_trainingSessionId (Some "s") initialAppState in
  let w1 := exec (handleCorrectMove serve (IdNum 5)) (world_of a ∅) in
  let w2 := exec (handleCorrectMove serve (IdNum 5)) w1 in
  learnedCount (app w1) = 1%nat
  /\ learnedCount (app w2) = 1%nat
  /\ learningStats w2
     = Some "<strong>Gelernt:</strong> 1 &nbsp; <strong>Fehler:</strong> 0".
Proof. repeat split; vm_compute; reflexivity. Qed.

(** ** Mistakes *)

(** Whatever the backend answers, and even if a call throws,
    [handleMistake] can take only the node it is called for out of
    [directlyLearnedNodes]; it adds nothing. *)
Lemma handleMistake_other_nodes {Server}
    (serve : Request -> Server -> Reply * Server)
    (nodeId m : NodeId) (w : World Server) :
  m <> nodeId ->
  m ∈ directlyLearnedNodes (app (exec (handleMistake serve nodeId) w))
  <-> m ∈ directlyLearnedNodes (app w).
Proof.
  intros Hne. destruct w as [a c sw ls sv rq tm]. destruct a.
  unfold exec, handleMistake, recordMistake, unmarkNodeAsDirectlyLearned,
    fetch, mbind, M_bind, get_app, assign, updateLearningStatsDisplay.
  cbn.
  destruct (serve (RecordMistake _) sv) as [[| | | d1] s1]; cbn; try done.
  destruct (success d1); cbn.
  - destruct ls; cbn; case_bool_decide; cbn; try done;
      destruct (serve (UnmarkDirectlyLearned _ _) s1) as [[| | | d2] s2];
      cbn; try done;
      destruct (success d2 && was_learned d2); cbn; try done;
      rewrite elem_of_difference, elem_of_singleton; tauto.
  - case_bool_decide; cbn; try done.
    destruct (serve (UnmarkDirectlyLearned _ _) s1) as [[| | | d2] s2];
      cbn; try done.
    destruct (success d2 && was_learned d2); cbn; try done.
    destruct ls; cbn; rewrite elem_of_difference, elem_of_singleton; tauto.
Qed.

(** Whatever the backend is, a node that is in [directlyLearnedNodes] is
    taken out by [handleMistake] exactly when no call throws and the
    reply to the unmark request reports success and [was_learned]. *)
Lemma handleMistake_removes_when_confirmed {Server}
    (serve : Request -> Server -> Reply * Server)
    (nodeId : NodeId) (w : World Server) :
  nodeId ∈ directlyLearnedNodes (app w) ->
  let sid := trainingSessionId (app w) in
  let recorded := serve (RecordMistake sid) (server w) in
  let unmarked := serve (UnmarkDirectlyLearned nodeId sid) recorded.2 in
  nodeId ∉ directlyLearnedNodes (app (exec (handleMistake serve nodeId) w))
  <-> (exists d1, recorded.1 = Json d1)
      /\ (exists d2, unmarked.1 = Json d2
                     /\ success d2 = true /\ was_learned d2 = true).
Proof.
  intros Hin. destruct w as [a c sw ls sv rq tm]. destruct a. cbn in Hin.
  unfold exec, handleMistake, recordMistake, unmarkNodeAsDirectlyLearned,
    fetch, mbind, M_bind, get_app, assign, updateLearningStatsDisplay.
  cbn.
  destruct (serve (RecordMistake _) sv) as [r1 s1]; cbn.
  destruct r1 as [| | | d1]; cbn;
    try (split; [done | by intros [[d1 [=]] _]]).
  assert (forall (P : Prop), P <-> (exists d, Json d1 = Json d) /\ P) as Hd1
    by (intros P; split; [by split; [eexists |] | by intros [_ HP]]).
  rewrite <- Hd1. clear Hd1.
  destruct (success d1); cbn; destruct ls; cbn;
    rewrite bool_decide_eq_true_2 by done; cbn;
    destruct (serve (UnmarkDirectlyLearned _ _) s1) as [r2 s2]; cbn;
    destruct r2 as [| | | d2]; cbn;
    try (split; [done | by intros (d2 & [=] & _)]);
    destruct (success d2) eqn:Hs2, (was_learned d2) eqn:Hw2; cbn;
    (split;
      [ intros Hout; first [by exists d2 | done]
      | intros (d & [= <-] & Hs & Hw);
        first [congruence
              | rewrite elem_of_difference, elem_of_singleton; tauto] ]).
Qed.

(** C4.  Against the session store, [handleMistake] in a session
    completes normally; the session's mistake count goes up by one and
    [appState.mistakeCount] shows the new count; the node is taken out of
    [directlyLearnedNodes] exactly when it was in it and the unmark
    operation confirms [wasLearned]; every other node stays in or out as
    it was; and for a node that was not in the set, nothing but the
    mistake count changes and the unmark operation is not called. *)
Theorem handleMistake_revokes_only_that_node (tree : Request -> Reply)
    (nodeId : NodeId) (sid : string)
    (w : World (gmap string Backend.TrainingSession)) :
  trainingSessionId (app w) = Some sid ->
  let serve := Backend.serve tree in
  let w' := exec (handleMistake serve nodeId) w in
  let before := Backend.session sid (server w) in
  let learned := directlyLearnedNodes (app w) in
  let wasLearned :=
    (Backend.unmarkDirectlyLearned nodeId (Backend.recordMistake before).2).1 in
  result (handleMistake serve nodeId) w = Normal ()
  /\ Backend.sessionMistakes (Backend.session sid (server w'))
     = (Backend.sessionMistakes before + 1)%Z
  /\ mistakeCount (app w') = Some (Backend.sessionMistakes before + 1)%Z
  /\ directlyLearnedNodes (app w')
     = (if bool_decide (nodeId ∈ learned) && wasLearned
        then learned ∖ {[nodeId]} else learned)
  /\ (forall m, m <> nodeId ->
        (m ∈ directlyLearnedNodes (app w') <-> m ∈ learned))
  /\ (nodeId ∉ learned ->
        app w' = set_mistakeCount
                   (Some (Backend.sessionMistakes before + 1)%Z) (app w)
        /\ requests w' = (requests w ++ [RecordMistake (Some sid)])%list).
Proof.
  intros Hsid serve w' before learned wasLearned.
  assert (forall m, m <> nodeId ->
            (m ∈ directlyLearnedNodes (app w') <-> m ∈ learned)) as Hothers
    by (intros m Hm; by apply handleMistake_other_nodes).
  split_and!; [| | | | exact Hothers |]; clear Hothers;
    subst w' before learned wasLearned serve;
    destruct w as [a c sw ls sv rq tm]; destruct a; cbn in Hsid; subst;
    unfold exec, result, handleMistake, recordMistake,
      unmarkNodeAsDirectlyLearned, fetch, mbind, M_bind, get_app, assign,
      updateLearningStatsDisplay;
    cbn; rewrite ?session_insert; cbn;
    destruct ls; cbn; repeat case_bool_decide; cbn in *;
    rewrite ?session_insert in *; cbn in *; done.
Qed.


(** The theorem for a mistake at node 5 in that session. *)
Lemma handleMistake_revokes_only_that_node_witness :
  let serve := Backend.serve (fun _ => Rejects) in
  let w' := exec (handleMistake serve (IdNum 5)) learned_5 in
  result (handleMistake serve (IdNum 5)) learned_5 = Normal ()
  /\ mistakeCount (app w')
     = Some (Backend.sessionMistakes
               (Backend.session "s" (server learned_5)) + 1)%Z
  /\ (forall m, m <> IdNum 5 ->
        (m ∈ directlyLearnedNodes (app w')
         <-> m ∈ directlyLearnedNodes (app learned_5))).
Proof.
  destruct (handleMistake_revokes_only_that_node (fun _ => Rejects)
              (IdNum 5) "s" learned_5 eq_refl)
    as (Hres & _ & Hcount & _ & Hothers & _).
  repeat split; first [exact Hres | exact Hcount | by apply Hothers].
Defined.

Example handleMistake_at_learned_node :
  let serve := Backend.serve (fun _ => Rejects) in
  let w' := exec (handleMistake serve (IdNum 5)) learned_5 in
  mistakeCount (app w') = Some 1%Z
  /\ learnedCount (app w') = 0%nat
  /\ requests w' = [ RecordMistake (Some "s");
                     UnmarkDirectlyLearned (IdNum 5) (Some "s") ].
Proof. repeat split; vm_compute; reflexivity. Qed.

(** ** Starting a new session *)

(** [startTrainingMode] assigns neither [mistakeCount] nor
    [directlyLearnedNodes], whatever the backend answers. *)
Lemma startTrainingMode_keeps_learning_state {Server}
    (serve : Request -> Server -> Reply * Server)
    (playerColor now rand : string) (w : World Server) :
  let w' := exec (startTrainingMode serve playerColor now rand) w in
  mistakeCount (app w') = mistakeCount (app w)
  /\ directlyLearnedNodes (app w') = directlyLearnedNodes (app w).
Proof.
  destruct w as [a c sw ls sv rq tm pg]. destruct a.
  unfold exec, startTrainingMode, showTrainingModeUI, updateTrainingStatus,
    send, try_catch, fetch, mbind, M_bind, assign, setTimeout, throw.
  cbn. destruct (serve (ProcessGames _ _) sv) as [[| | | d] s]; cbn; try done.
  destruct (success d); cbn; [| done].
  destruct (positionInfo pg && _); cbn; [done |].
  by destruct (movesList pg && _).
Qed.

(** The learning functions have no caller.  If [handleMistake] and
    [handleCorrectMove] were called during a session, the statistics
    would outlive it: after three mistakes and one learned node,
    [startTrainingMode] makes a new session id and clears [studiedNodes],
    but [mistakeCount] is still 3 and the node is still counted, and the
    first mistake recorded in the new session sets [mistakeCount] to 1.
    [getLearningStats], which has no caller either, would bring both
    fields in line with the new session. *)
Example learning_functions_across_sessions :
  let w := after_first_session in
  let w' := exec (startTrainingMode training_backend "white" "2" "b") w in
  let w'' := exec (handleMistake training_backend (IdNum 1)) w' in
  mistakeCount (app w) = Some 3%Z
  /\ trainingSessionId (app w') = Some "training_2_b"
  /\ studiedNodes (app w') = ∅
  /\ mistakeCount (app w') = Some 3%Z
  /\ directlyLearnedNodes (app w') = directlyLearnedNodes (app w)
  /\ learnedCount (app w') = 1%nat
  /\ mistakeCount (app w'') = Some 1%Z
  /\ (let synced := exec (getLearningStats training_backend
                            (trainingSessionId (app w'))) w' in
      mistakeCount (app synced) = Some 0%Z
      /\ learnedCount (app synced) = 0%nat).
Proof. repeat split; vm_compute; reflexivity. Qed.

(* ===================================================================== *)
(** * Further properties of the renderers, the board and the handlers    *)
(* ===================================================================== *)

(** Naming the parts of a world and of its [appState]. *)
Ltac open_world w :=
  destruct w as [a board sw ls sv rq tm pg];
  destruct a as [a_player a_color a_position a_moves a_navigating
                 a_orientation a_nodeId a_parentId a_arrows a_training
                 a_opponent a_history a_session a_studied a_only a_learned
                 a_mistakes a_games a_rate].

(** ** The ELO difference *)

Lemma Math_round_pos (x : Q) : (0 < Math_round x)%Z <-> (1 # 2) <= x.
Proof.
  unfold Math_round. split.
  - intros H. assert (1 <= Qfloor (x + (1 # 2)))%Z as H1 by lia.
    rewrite Zle_Qle in H1. pose proof (Qfloor_le (x + (1 # 2))) as H2.
    change (inject_Z 1) with 1 in H1. lra.
  - intros H. assert (Qfloor 1 <= Qfloor (x + (1 # 2)))%Z as H1.
    { apply Qfloor_resp_le. lra. }
    change (Qfloor 1) with 1%Z in H1. lia.
Qed.

Lemma Math_round_neg (x : Q) : (Math_round x < 0)%Z <-> x < - (1 # 2).
Proof.
  unfold Math_round. split.
  - intros H. pose proof (Qlt_floor (x + (1 # 2))) as H2.
    assert (Qfloor (x + (1 # 2)) + 1 <= 0)%Z as H1 by lia.
    rewrite Zle_Qle in H1. change (inject_Z 0) with 0 in H1. lra.
  - intros H.
    destruct (Z_lt_le_dec (Qfloor (x + (1 # 2))) 0) as [| H1]; [done |].
    rewrite Zle_Qle in H1. pose proof (Qfloor_le (x + (1 # 2))) as H2.
    change (inject_Z 0) with 0 in H1. lra.
Qed.

(** X1.  [createEloDisplay] for a difference that is there and not zero:
    the number shown is [Math.round] of the difference, cut off at -999
    and at 999, with a plus sign when it is positive.  The colour goes by
    the same number: green from one half upwards, red below minus one
    half, and grey in between, where the text is [0] and not the dash of
    a missing difference. *)
Theorem createEloDisplay_clamped (m : Move) (e : Q) :
  mv_avg_elo_diff m = Some e -> ~ e == 0 ->
  exists n : Z,
    elo_text (createEloDisplay m)
      = (if (0 <? n)%Z then "+" +:+ pretty n else pretty n)
    /\ (-999 <= n <= 999)%Z
    /\ ((-999 <= Math_round e <= 999)%Z -> n = Math_round e)
    /\ ((999 < Math_round e)%Z -> n = 999%Z)
    /\ ((Math_round e < -999)%Z -> n = (-999)%Z)
    /\ (elo_color (createEloDisplay m) = "#27ae60" <-> (1 # 2) <= e)
    /\ (elo_color (createEloDisplay m) = "#e74c3c" <-> e < - (1 # 2))
    /\ (elo_color (createEloDisplay m) = "#7f8c8d"
        <-> - (1 # 2) <= e /\ e < (1 # 2)).
Proof.
  intros He Hnz. unfold createEloDisplay. rewrite He.
  destruct (Qeq_bool e 0) eqn:Hz; [by apply Qeq_bool_iff in Hz |].
  exists (Z.min (Z.max (Math_round e) (-999)) 999). cbn [elo_text elo_color].
  pose proof (Math_round_pos e) as Hpos.
  pose proof (Math_round_neg e) as Hneg.
  set (r := Math_round e) in *.
  assert ((0 <? Z.min (Z.max r (-999)) 999)%Z = (0 <? r)%Z) as ->
    by (destruct (Z.ltb_spec 0 r),
          (Z.ltb_spec 0 (Z.min (Z.max r (-999)) 999)); lia).
  assert ((Z.min (Z.max r (-999)) 999 <? 0)%Z = (r <? 0)%Z) as ->
    by (destruct (Z.ltb_spec r 0),
          (Z.ltb_spec (Z.min (Z.max r (-999)) 999) 0); lia).
  split; [done |]. split; [lia |]. split; [lia |]. split; [lia |].
  split; [lia |].
  assert (r < 0 \/ r = 0 \/ 0 < r)%Z as [Hr | [Hr | Hr]] by lia.
  - assert ((0 <? r)%Z = false) as -> by lia.
    assert ((r <? 0)%Z = true) as -> by lia.
    apply Hneg in Hr.
    repeat split; try done; intros; exfalso; lra.
  - assert ((0 <? r)%Z = false) as -> by lia.
    assert ((r <? 0)%Z = false) as -> by lia.
    assert (~ (1 # 2) <= e) as Hn1 by (intros Hx%Hpos; lia).
    assert (~ e < - (1 # 2)) as Hn2 by (intros Hx%Hneg; lia).
    repeat split; try done; try (intros; exfalso; tauto); lra.
  - assert ((0 <? r)%Z = true) as -> by lia.
    apply Hpos in Hr.
    repeat split; try done; intros; exfalso; lra.
Qed.

Lemma createEloDisplay_clamped_witness :
  elo_text (createEloDisplay (elo_move 1500)) = "+999"
  /\ elo_color (createEloDisplay (elo_move 1500)) = "#27ae60".
Proof.
  destruct (createEloDisplay_clamped (elo_move 1500) 1500 eq_refl)
    as (n & Htext & _ & _ & Hhi & _ & Hgreen & _).
  - intros H. discriminate H.
  - split.
    + rewrite Htext. by rewrite (Hhi eq_refl).
    + apply Hgreen. intros H. discriminate H.
Defined.

(** X2.  The two ELO renderers, [createCompactEloDisplay] of
    chesscom_test.js and [createEloDisplay] of temp_move_stats.js, show
    the same text exactly when the difference is missing, zero, or rounds
    to a number between -999 and 999: only the second one cuts off. *)
Theorem elo_displays_agree (m : Move) :
  elo_text (createCompactEloDisplay m) = elo_text (createEloDisplay m)
  <-> (forall e, mv_avg_elo_diff m = Some e -> ~ e == 0 ->
         (-999 <= Math_round e <= 999)%Z).
Proof.
  unfold createCompactEloDisplay, createEloDisplay.
  destruct (mv_avg_elo_diff m) as [e |]; [| by split].
  destruct (Qeq_bool e 0) eqn:Hz.
  { split; [| done]. intros _ e' [= <-] Hnz. by apply Qeq_bool_iff in Hz. }
  assert (~ e == 0) as Hnz by (intros H%Qeq_bool_iff; congruence).
  cbn [elo_text]. set (r := Math_round e). split.
  - intros Htext e' [= <-] _. fold r.
    destruct (Z_lt_le_dec 999 r) as [Hhi | Hhi].
    { exfalso. assert (Z.min (Z.max r (-999)) 999 = 999%Z) as Hc by lia.
      rewrite Hc in Htext.
      assert ((0 <? r)%Z = true) as Hp by lia. rewrite Hp in Htext.
      change (0 <? 999)%Z with true in Htext. cbv iota in Htext.
      injection Htext as Htext. change (pretty r = pretty 999%Z) in Htext.
      apply (inj pretty) in Htext. lia. }
    destruct (Z_lt_le_dec r (-999)) as [Hlo | Hlo]; [| lia].
    exfalso. assert (Z.min (Z.max r (-999)) 999 = (-999)%Z) as Hc by lia.
    rewrite Hc in Htext.
    assert ((0 <? r)%Z = false) as Hp by lia. rewrite Hp in Htext.
    change (0 <? -999)%Z with false in Htext. cbv iota in Htext.
    apply (inj pretty) in Htext. lia.
  - intros Hrange. specialize (Hrange e eq_refl Hnz). fold r in Hrange.
    by replace (Z.min (Z.max r (-999)) 999) with r by lia.
Qed.

(** ** The statistics bar is not normalised *)

Lemma addBarSegment_positive (p : Q) (bg border title : string)
    (segs : list Segment) :
  Forall (fun s => 0 < seg_width s) segs ->
  Forall (fun s => 0 < seg_width s) (addBarSegment p bg border title segs).
Proof.
  intros H. unfold addBarSegment. destruct (Qlt_le_dec 0 p); [| done].
  apply Forall_app. split; [done |]. by apply Forall_singleton.
Qed.

Lemma addBarSegment_length (p : Q) (bg border title : string)
    (segs : list Segment) :
  (length (addBarSegment p bg border title segs) <= S (length segs))%nat.
Proof.
  unfold addBarSegment. destruct (Qlt_le_dec 0 p); [| lia].
  rewrite length_app. simpl. lia.
Qed.

(** The widths of the bar add up to the counted games as a percentage of
    [games], up to rounding. *)
Lemma createCompactStatsBar_width_close (m : Move) :
  (0 < num_or0 (mv_games m) < 2 ^ 53)%Z ->
  (0 <= num_or0 (mv_wins m) < 2 ^ 53)%Z ->
  (0 <= num_or0 (mv_draws m) < 2 ^ 53)%Z ->
  (0 <= num_or0 (mv_losses m) < 2 ^ 53)%Z ->
  let counted :=
    (num_or0 (mv_wins m) + num_or0 (mv_draws m) + num_or0 (mv_losses m))%Z in
  let exact := exact_percent counted (num_or0 (mv_games m)) in
  Qabs (total_width (createCompactStatsBar m) - exact)
    <= two_roundings * exact.
Proof.
  intros Hg Hw Hd Hl counted exact.
  destruct (decide (counted = 0%Z)) as [Hzero | Hcounted].
  - unfold createCompactStatsBar, total_width.
    rewrite bool_decide_eq_false_2 by lia. fold counted.
    rewrite bool_decide_eq_true_2 by done. cbn [bar_segments no_data_bar foldr].
    subst exact. rewrite Hzero.
    assert (exact_percent 0 (num_or0 (mv_games m)) == 0) as ->.
    { unfold exact_percent. change (inject_Z 0) with 0. field.
      change 0 with (inject_Z 0). rewrite inject_Z_injective. lia. }
    by vm_compute.
  - rewrite createCompactStatsBar_total_width by done.
    subst exact counted.
    rewrite !exact_percent_plus by lia.
    pose proof (percent_close _ _ Hw Hg) as Cw.
    pose proof (percent_close _ _ Hd Hg) as Cd.
    pose proof (percent_close _ _ Hl Hg) as Cl.
    unfold winPercent, drawPercent, lossPercent.
    apply Qabs_Qle_condition. apply Qabs_Qle_condition in Cw, Cd, Cl.
    unfold two_roundings in *. lra.
Qed.

(** X3.  [createCompactStatsBar] does not normalise.  With a games count
    between 1 and [2^53] and counts that are not negative, the widths of
    the segments add up to the counted games (wins, draws and losses) as a
    percentage of [games], up to the rounding of the two operations on
    doubles: not to 100, unless the three counts add up to [games].  For
    fewer than [2^51] games the bar is filled to exactly 100 only if they
    do.  Every segment has a positive width and there are at most
    three. *)
Theorem createCompactStatsBar_not_normalised (m : Move) :
  (0 < num_or0 (mv_games m) < 2 ^ 53)%Z ->
  (0 <= num_or0 (mv_wins m) < 2 ^ 53)%Z ->
  (0 <= num_or0 (mv_draws m) < 2 ^ 53)%Z ->
  (0 <= num_or0 (mv_losses m) < 2 ^ 53)%Z ->
  let counted :=
    (num_or0 (mv_wins m) + num_or0 (mv_draws m) + num_or0 (mv_losses m))%Z in
  let exact := exact_percent counted (num_or0 (mv_games m)) in
  Qabs (total_width (createCompactStatsBar m) - exact)
    <= two_roundings * exact
  /\ ((num_or0 (mv_games m) < 2 ^ 51)%Z ->
      total_width (createCompactStatsBar m) == 100 ->
      counted = num_or0 (mv_games m))
  /\ Forall (fun s => 0 < seg_width s)
            (bar_segments (createCompactStatsBar m))
  /\ (length (bar_segments (createCompactStatsBar m)) <= 3)%nat.
Proof.
  intros Hg Hw Hd Hl counted exact.
  pose proof (createCompactStatsBar_width_close m Hg Hw Hd Hl) as Hclose.
  cbn zeta in Hclose. fold counted in Hclose. fold exact in Hclose.
  split; [exact Hclose |]. split; [| split].
  - intros Hsmall Hfull. rewrite Hfull in Hclose.
    apply Qabs_Qle_condition in Hclose.
    set (g := num_or0 (mv_games m)) in *.
    assert (0 < inject_Z g) as HG
      by (change 0 with (inject_Z 0); rewrite <- Zlt_Qlt; lia).
    assert (inject_Z g <= 2251799813685247) as HG51.
    { change 2251799813685247 with (inject_Z (2 ^ 51 - 1)).
      rewrite <- Zle_Qle. lia. }
    assert (exact * inject_Z g == 100 * inject_Z counted) as He.
    { subst exact. unfold exact_percent. field. lra. }
    destruct (Z.lt_trichotomy counted g) as [Hlt | [Heq | Hgt]]; [| done |];
      exfalso.
    + assert (inject_Z counted <= inject_Z (g + -1)) as Hc
        by (rewrite <- Zle_Qle; lia).
      rewrite inject_Z_plus in Hc. change (inject_Z (-1)) with (-1) in Hc.
      unfold two_roundings in Hclose. nra.
    + assert (inject_Z (g + 1) <= inject_Z counted) as Hc
        by (rewrite <- Zle_Qle; lia).
      rewrite inject_Z_plus in Hc. change (inject_Z 1) with 1 in Hc.
      unfold two_roundings in Hclose. nra.
  - unfold createCompactStatsBar.
    repeat case_bool_decide; cbn [bar_segments no_data_bar];
      try apply Forall_nil_2.
    by repeat apply addBarSegment_positive.
  - unfold createCompactStatsBar.
    repeat case_bool_decide; cbn [bar_segments no_data_bar length]; try lia.
    repeat (etrans; [apply addBarSegment_length |]; apply le_n_S).
    done.
Qed.

(** The theorem at 5 wins, 3 draws and 4 losses in 10 games: the bar is
    filled to 120, up to rounding, and not to 100. *)
Lemma createCompactStatsBar_not_normalised_witness :
  let bar := createCompactStatsBar (count_move 10 5 3 4) in
  Qabs (total_width bar - exact_percent 12 10)
    <= two_roundings * exact_percent 12 10
  /\ ~ total_width bar == 100.
Proof.
  destruct (createCompactStatsBar_not_normalised (count_move 10 5 3 4))
    as (Hclose & Hfull & _); [cbn; lia .. |].
  split; [exact Hclose |].
  intros H. apply Hfull in H; [discriminate H | cbn; lia].
Defined.
(** ** Missing games *)

Lemma percent_sign_not_dash (s : string) : s +:+ "%" <> "–".
Proof.
  destruct s as [| a [| b [| c [| d s]]]]; cbn; discriminate.
Qed.

(** X4.  A move without a [games] field: [createChessComBar] draws the
    empty dashed bar, since [move.games || 0] is zero, but
    [createWinrateDisplay], which tests [move.games === 0], prints the
    rounded win rate as a percentage and not the dash; [0%] when the win
    rate is missing too. *)
Theorem createWinrateDisplay_missing_games (m : Move) :
  mv_games m = None ->
  bar_segments (createChessComBar m) = []
  /\ bar_border (createChessComBar m) = "1px dashed #ccc"
  /\ createWinrateDisplay m
     = pretty (Math_round (rate_or0 (mv_win_rate m))) +:+ "%"
  /\ createWinrateDisplay m <> "–"
  /\ (mv_win_rate m = None -> createWinrateDisplay m = "0%").
Proof.
  intros Hg. unfold createChessComBar, createWinrateDisplay. rewrite Hg. cbn.
  repeat split; [apply percent_sign_not_dash |].
  by intros ->.
Qed.

Lemma createWinrateDisplay_missing_games_witness :
  createWinrateDisplay (uci_move "e2e4" "e4") = "0%"
  /\ bar_segments (createChessComBar (uci_move "e2e4" "e4")) = [].
Proof.
  destruct (createWinrateDisplay_missing_games (uci_move "e2e4" "e4") eq_refl)
    as (Hbar & _ & _ & _ & Hzero).
  split; [by apply Hzero | exact Hbar].
Defined.

(** ** Legal-move destinations *)

Lemma substring_length (n k : nat) (s : string) :
  String.length (String.substring n k s)
  = Nat.min k (String.length s - n).
Proof.
  revert n k. induction s as [| c s IH]; intros [| n] [| k];
    cbn [String.substring String.length]; rewrite ?IH; lia.
Qed.

Lemma JS_substring_length (a b : nat) (s : string) :
  String.length (substring a b s)
  = (Nat.min b (String.length s) - a)%nat.
Proof. unfold substring. rewrite substring_length. lia. Qed.

Lemma isValidSquare_length (sq : string) :
  isValidSquare sq = true -> String.length sq = 2%nat.
Proof. by destruct sq as [| f [| r [| x sq]]]. Qed.

Lemma dests_of_push (from to sq : string) (d : gmap string (list string)) :
  dests_of (push_dest from to d) sq
  = if bool_decide (from = sq) then (dests_of d sq ++ [to])%list
    else dests_of d sq.
Proof.
  unfold dests_of, push_dest. case_bool_decide as Heq.
  - subst. by rewrite lookup_insert_eq.
  - by rewrite lookup_insert_ne.
Qed.

Lemma has_uci_Some (m : Move) (uci : string) :
  has_uci m = Some uci
  <-> mv_uci m = Some uci /\ (4 <= String.length uci)%nat.
Proof.
  unfold has_uci. destruct (mv_uci m) as [u |]; [| by split; [| intros []]].
  destruct (Nat.leb_spec 4 (String.length u)) as [Hlen | Hlen].
  - rewrite bool_decide_eq_false_2 by (intros ->; simpl in Hlen; lia). cbn.
    split; [by intros [= <-] | by intros [[= <-] _]].
  - rewrite andb_false_r.
    split; [done | intros [[= <-] ?]; lia].
Qed.

Lemma foldl_add_move_dests (ms : list Move) (d : gmap string (list string))
    (from to : string) :
  to ∈ dests_of (foldl add_move d ms) from
  <-> to ∈ dests_of d from
      \/ exists m uci, m ∈ ms /\ has_uci m = Some uci
           /\ substring 0 2 uci = from /\ substring 2 4 uci = to.
Proof.
  revert d. induction ms as [| m ms IH]; intros d; simpl.
  - split; [by left | intros [? | (m & ? & []%elem_of_nil & _)]; done].
  - rewrite IH. unfold add_move at 1.
    destruct (has_uci m) as [uci |] eqn:Huci.
    + rewrite dests_of_push. case_bool_decide as Hfrom.
      * rewrite elem_of_app, list_elem_of_singleton. split.
        -- intros [[Hin | ->] | (m' & u & Hm' & H)]; [by left | |].
           ++ right. exists m, uci. by repeat split; [left | ..].
           ++ right. exists m', u. by split; [right |].
        -- intros [Hin | (m' & u & [-> | Hm']%elem_of_cons & Hu & Hf & Ht)].
           ++ by left; left.
           ++ left; right. congruence.
           ++ right. by exists m', u.
      * split.
        -- intros [Hin | (m' & u & Hm' & H)]; [by left |].
           right. exists m', u. by split; [right |].
        -- intros [Hin | (m' & u & [-> | Hm']%elem_of_cons & Hu & Hf & Ht)].
           ++ by left.
           ++ congruence.
           ++ right. by exists m', u.
    + split.
      * intros [Hin | (m' & u & Hm' & H)]; [by left |].
        right. exists m', u. by split; [right |].
      * intros [Hin | (m' & u & [-> | Hm']%elem_of_cons & Hu & Hf & Ht)].
        -- by left.
        -- congruence.
        -- right. by exists m', u.
Qed.

Lemma foldl_add_legal_dests (ms : list LegalMove)
    (d : gmap string (list string))
    (from to : string) :
  to ∈ dests_of (foldl add_legal d ms) from
  <-> to ∈ dests_of d from
      \/ exists m, m ∈ ms /\ lm_from m = from /\ lm_to m = to.
Proof.
  revert d. induction ms as [| m ms IH]; intros d; simpl.
  - split; [by left | intros [? | (m & []%elem_of_nil & _)]; done].
  - rewrite IH. unfold add_legal at 1. rewrite dests_of_push.
    case_bool_decide as Hfrom.
    + rewrite elem_of_app, list_elem_of_singleton. split.
      * intros [[Hin | ->] | (m' & Hm' & H)]; [by left | |].
        -- right. exists m. by repeat split; [left | ..].
        -- right. exists m'. by split; [right |].
      * intros [Hin | (m' & [-> | Hm']%elem_of_cons & Hf & Ht)].
        -- by left; left.
        -- left; right. congruence.
        -- right. by exists m'.
    + split.
      * intros [Hin | (m' & Hm' & H)]; [by left |].
        right. exists m'. by split; [right |].
      * intros [Hin | (m' & [-> | Hm']%elem_of_cons & Hf & Ht)].
        -- by left.
        -- congruence.
        -- right. by exists m'.
Qed.

Lemma dests_of_empty (sq : string) :
  dests_of (∅ : gmap string (list string)) sq = [].
Proof. unfold dests_of. by rewrite lookup_empty. Qed.

(** X5.  The destinations [updateLegalMovesFromBackend] of
    static/script-cg.js gives to Chessground: [to] is offered from [from]
    exactly when some available move has a uci string of at least four
    characters whose first two characters are [from] and whose next two
    are [to]. *)
Theorem updateLegalMovesFromBackend_dests (ms : list Move)
    (from to : string) :
  to ∈ dests_of (updateLegalMovesFromBackend ms) from
  <-> exists m uci, m ∈ ms /\ mv_uci m = Some uci
        /\ (4 <= String.length uci)%nat
        /\ substring 0 2 uci = from /\ substring 2 4 uci = to.
Proof.
  unfold updateLegalMovesFromBackend. rewrite foldl_add_move_dests.
  rewrite dests_of_empty. split.
  - intros [[]%elem_of_nil | (m & uci & Hm & Hu & Hf & Ht)].
    apply has_uci_Some in Hu as [Hu Hlen]. by exists m, uci.
  - intros (m & uci & Hm & Hu & Hlen & Hf & Ht). right.
    exists m, uci. split; [done |]. split; [| done].
    by apply has_uci_Some.
Qed.

Lemma availableFromSquares_elem (ms : list Move) (sq : string) :
  sq ∈ availableFromSquares ms
  <-> exists m uci, m ∈ ms /\ has_uci m = Some uci /\ substring 0 2 uci = sq.
Proof.
  unfold availableFromSquares.
  assert (forall acc : gset string,
            sq ∈ foldl (fun acc m =>
                          match has_uci m with
                          | Some uci => {[substring 0 2 uci]} ∪ acc
                          | None => acc
                          end) acc ms
            <-> sq ∈ acc
                \/ exists m uci, m ∈ ms /\ has_uci m = Some uci
                     /\ substring 0 2 uci = sq) as Hgen.
  { induction ms as [| m ms IH]; intros acc; simpl.
    - split; [by left | intros [? | (m & ? & []%elem_of_nil & _)]; done].
    - rewrite IH. destruct (has_uci m) as [uci |] eqn:Huci.
      + rewrite elem_of_union, elem_of_singleton. split.
        * intros [[-> | Hin] | (m' & u & Hm' & H)]; [| by left |].
          -- right. exists m, uci. by repeat split; [left | ..].
          -- right. exists m', u. by split; [right |].
        * intros [Hin | (m' & u & [-> | Hm']%elem_of_cons & Hu & Hf)].
          -- by left; right.
          -- left; left. congruence.
          -- right. by exists m', u.
      + split.
        * intros [Hin | (m' & u & Hm' & H)]; [by left |].
          right. exists m', u. by split; [right |].
        * intros [Hin | (m' & u & [-> | Hm']%elem_of_cons & Hu & Hf)].
          -- by left.
          -- congruence.
          -- right. by exists m', u. }
  rewrite Hgen. split; [intros [[]%elem_of_empty | H]; done | by right].
Qed.

Lemma arrow_of_move_Some (player : option string) (m : Move) (s : Shape) :
  arrow_of_move player m = Some s ->
  exists uci, has_uci m = Some uci
    /\ orig s = substring 0 2 uci /\ dest s = substring 2 4 uci
    /\ system s = true
    /\ isValidSquare (orig s) = true /\ isValidSquare (dest s) = true.
Proof.
  unfold arrow_of_move. set (uci := str_or "" (mv_uci m)).
  destruct (isValidSquare (substring 0 2 uci)) eqn:Hfrom;
    [| by rewrite andb_false_r].
  destruct (isValidSquare (substring 2 4 uci)) eqn:Hto;
    [| by rewrite andb_false_r].
  destruct (_ && _); [| done]. intros [= <-]. cbn.
  exists uci. split; [| done].
  apply isValidSquare_length in Hto. rewrite JS_substring_length in Hto.
  apply has_uci_Some. split; [| lia].
  subst uci. unfold str_or in *. destruct (mv_uci m) as [u |]; [| done].
  case_bool_decide; [done | done].
Qed.

(** X6.  Every arrow that [showAvailableMovesArrows] builds runs
    between squares the board lets the user play: its destination is
    among the destinations that [updateLegalMovesFromBackend] offers from
    its origin, and [onSelect] finds legal moves for its origin. *)
Theorem arrows_point_to_dests (player : option string) (ms : list Move)
    (s : Shape) :
  s ∈ newArrows player ms ->
  dest s ∈ dests_of (updateLegalMovesFromBackend ms) (orig s)
  /\ onSelect (orig s) ms = true.
Proof.
  unfold newArrows. intros (m & Hm & Harrow)%list_elem_of_omap.
  apply arrow_of_move_Some in Harrow as (uci & Hu & Ho & Hd & _).
  split.
  - apply foldl_add_move_dests. right. by exists m, uci.
  - unfold onSelect. rewrite bool_decide_eq_true.
    apply availableFromSquares_elem. by exists m, uci.
Qed.

Lemma arrows_point_to_dests_witness :
  let ms := [arrow_move "e2e4" "#4caf50" 12] in
  "e4" ∈ dests_of (updateLegalMovesFromBackend ms) "e2"
  /\ onSelect "e2" ms = true.
Proof.
  apply (arrows_point_to_dests None [arrow_move "e2e4" "#4caf50" 12]
           {| orig := "e2"; dest := "e4"; brush := PStr "excellent";
              system := true |}).
  vm_compute. apply list_elem_of_here.
Defined.

Lemma find_legal_Some (from to : string) (legal : list LegalMove) :
  is_Some (find_legal from to legal)
  <-> exists m, m ∈ legal /\ lm_from m = from /\ lm_to m = to.
Proof.
  unfold find_legal. induction legal as [| m legal IH]; simpl.
  - split; [by intros [? [=]] | by intros (m & []%elem_of_nil & _)].
  - destruct (bool_decide (lm_from m = from) && bool_decide (lm_to m = to))
      eqn:Hm.
    + apply andb_true_iff in Hm
        as [Hf%bool_decide_eq_true Ht%bool_decide_eq_true].
      split; [intros _; exists m; by split; [left |] | by eexists].
    + rewrite IH. split.
      * intros (m' & Hm' & H). exists m'. by split; [right |].
      * intros (m' & [-> | Hm']%elem_of_cons & Hf & Ht).
        -- rewrite !bool_decide_eq_true_2 in Hm by done. done.
        -- by exists m'.
Qed.

Lemma uci_prefix (u : string) :
  (4 <= String.length u)%nat ->
  String.prefix (substring 0 2 u +:+ substring 2 4 u) u = true.
Proof.
  destruct u as [| a [| b [| c [| d u]]]]; simpl; try lia. intros _.
  unfold substring. cbn.
  repeat (destruct (Ascii.ascii_dec _ _); [| congruence]).
  by destruct u.
Qed.

(** X7.  The destinations on the board and the moves
    [handleDragDropMove] accepts.  For a repertoire player,
    [window.updateLegalMovesFromBackend] offers [to] from [from] exactly
    when the handler finds the move among the legal moves of chess.js.
    For any other player it offers what the function of
    static/script-cg.js offers, and for every destination on offer the
    [find] of the handler comes up with an available move whose uci
    begins with [from + to]. *)
Theorem dests_are_accepted_moves
    (chess_moves : option string -> option (list LegalMove))
    (a : AppState) (from to : string) :
  (isOwnRepertoire a = true ->
     forall legal, chess_moves (currentPosition a) = Some legal ->
       exists dests,
         window_updateLegalMovesFromBackend chess_moves a = Some dests
         /\ (to ∈ dests_of dests from
             <-> is_Some (find_legal from to legal)))
  /\ (isOwnRepertoire a = false ->
        window_updateLegalMovesFromBackend chess_moves a
          = Some (updateLegalMovesFromBackend (availableMoves a))
        /\ (to ∈ dests_of (updateLegalMovesFromBackend (availableMoves a))
                          from ->
            exists i m,
              find_index (matches from to) (availableMoves a) = Some i
              /\ availableMoves a !! i = Some m
              /\ begins_with from to m)).
Proof.
  unfold window_updateLegalMovesFromBackend. split.
  - intros -> legal ->. eexists. split; [reflexivity |].
    rewrite foldl_add_legal_dests, dests_of_empty, find_legal_Some.
    split; [intros [[]%elem_of_nil | H]; done | by right].
  - intros ->. split; [done |].
    unfold updateLegalMovesFromBackend.
    intros [Hin | (m & uci & Hm & Hu & Hf & Ht)]%foldl_add_move_dests;
      [rewrite dests_of_empty in Hin; by apply elem_of_nil in Hin |].
    apply has_uci_Some in Hu as [Hu Hlen].
    destruct (find_index (matches from to) (availableMoves a)) as [i |]
      eqn:Hfind.
    + apply find_index_Some in Hfind as (m' & Hm' & Hmatch).
      exists i, m'. by rewrite <- matches_begins_with.
    + exfalso. rewrite find_index_None in Hfind.
      specialize (Hfind m Hm).
      assert (matches from to m = true) as Hmatch; [| congruence].
      apply matches_begins_with. exists uci. split; [done |].
      subst from to. by apply uci_prefix.
Qed.

(** ** Every arrow can be drawn *)

Lemma arrow_of_move_brush (player : option string) (m : Move) (s : Shape) :
  arrow_of_move player m = Some s ->
  brush s = getChessgroundBrush (str_or "#9e9e9e" (mv_color m))
              (bool_decide (player = Some "My Repertoire")).
Proof.
  unfold arrow_of_move. destruct (_ && _); [| done]. by intros [= <-].
Qed.

Lemma getChessgroundBrush_in_table (c : string) (isRepertoire : bool) :
  c ∉ ObjectPrototype ->
  exists name b,
    getChessgroundBrush c isRepertoire = PStr name
    /\ brush_named brushes name = Some b
    /\ key b = name
    /\ opacity b == 1
    /\ (lineWidth b = 4 \/ lineWidth b = 6 \/ lineWidth b = 8)%Z.
Proof.
  intros Hproto. destruct isRepertoire.
  { do 2 eexists. split; [reflexivity |]. split; [reflexivity |].
    cbn. split; [done |]. split; [reflexivity | auto]. }
  unfold getChessgroundBrush, get_property, colorToBrush, own_property.
  repeat (case_bool_decide as Hc;
          [ do 2 eexists; split; [reflexivity |]; split; [reflexivity |];
            cbn; split; [done |]; split; [reflexivity | auto]
          | clear Hc ]).
  rewrite bool_decide_eq_false_2 by done. cbn.
  do 2 eexists. split; [reflexivity |]. split; [reflexivity |].
  cbn. split; [done |]. split; [reflexivity | auto].
Qed.

(** X8.  Every arrow that [showAvailableMovesArrows] builds can be
    drawn.  If no colour of a move is the name of a member of
    [Object.prototype], the brush of each arrow is a name in
    [config.drawable.brushes], with opacity 1 and a line width of 4, 6
    or 8. *)
Theorem arrows_have_brushes (player : option string) (ms : list Move)
    (s : Shape) :
  s ∈ newArrows player ms ->
  (forall m c, m ∈ ms -> mv_color m = Some c -> c ∉ ObjectPrototype) ->
  exists name b,
    brush s = PStr name
    /\ rendered s = Some b
    /\ key b = name
    /\ opacity b == 1
    /\ (lineWidth b = 4 \/ lineWidth b = 6 \/ lineWidth b = 8)%Z.
Proof.
  unfold newArrows. intros (m & Hm & Harrow)%list_elem_of_omap Hcolors.
  apply arrow_of_move_brush in Harrow.
  destruct (getChessgroundBrush_in_table
              (str_or "#9e9e9e" (mv_color m))
              (bool_decide (player = Some "My Repertoire")))
    as (name & b & Hbrush & Htable & Hrest).
  { unfold str_or. destruct (mv_color m) as [c |] eqn:Hc.
    - destruct (bool_decide (c = "")); [| exact (Hcolors m c Hm Hc)].
      apply (proj1 (bool_decide_eq_false _)). vm_compute. reflexivity.
    - apply (proj1 (bool_decide_eq_false _)). vm_compute. reflexivity. }
  exists name, b. unfold rendered. rewrite Harrow, Hbrush. by split.
Qed.

Lemma arrows_have_brushes_witness :
  exists name b,
    PStr "excellent" = PStr name
    /\ brush_named brushes "excellent" = Some b
    /\ key b = name
    /\ opacity b == 1
    /\ (lineWidth b = 4 \/ lineWidth b = 6 \/ lineWidth b = 8)%Z.
Proof.
  apply (arrows_have_brushes None [arrow_move "e2e4" "#4caf50" 12]
           {| orig := "e2"; dest := "e4"; brush := PStr "excellent";
              system := true |}).
  - vm_compute. apply list_elem_of_here.
  - intros m c ->%list_elem_of_singleton [= <-].
    apply (proj1 (bool_decide_eq_false _)). vm_compute. reflexivity.
Defined.

(** ** Arrows on the board *)

Lemma userShapes_again (shapes : list Shape) :
  filter (fun s => system s = false)
         (filter (fun s => system s = false) shapes)
  = filter (fun s => system s = false) shapes.
Proof.
  induction shapes as [| s shapes IH]; [done |].
  rewrite (filter_cons _ s shapes). case_decide as Hs; [| done].
  rewrite filter_cons. rewrite decide_True by done. by rewrite IH.
Qed.

Lemma newArrows_system (player : option string) (ms : list Move) :
  filter (fun s => system s = false) (newArrows player ms) = [].
Proof.
  unfold newArrows. induction ms as [| m ms IH]; [done |]. simpl.
  destruct (arrow_of_move player m) as [s |] eqn:Hs; [| done].
  rewrite filter_cons. rewrite decide_False; [done |].
  unfold arrow_of_move in Hs. destruct (_ && _); [| done].
  by injection Hs as <-.
Qed.

(** X9.  [showAvailableMovesArrows] never throws and changes
    [currentArrows] only.  On the board it keeps the user's shapes, in
    order, and replaces the system arrows: by the arrows of [moves] when
    training mode is off, [moves] is not empty and the board is ready
    (its element is on the page and has its dimensions), and by nothing
    otherwise.  Position, orientation and readiness of the
    board stay.  A second call with the same moves changes neither the
    board nor [appState]: arrows do not pile up. *)
Theorem showAvailableMovesArrows_replaces_system_arrows {Server}
    (ms : list Move) (w : World Server) :
  let run := @showAvailableMovesArrows Server ms in
  let w' := exec run w in
  result run w = Normal ()
  /\ app w' = set_currentArrows ms (app w)
  /\ (forall b, cg w = Some b ->
        cg w'
        = Some {| cg_fen := cg_fen b; cg_orientation := cg_orientation b;
                  cg_shapes :=
                    (userShapes b
                       ++ (if negb (trainingMode (app w))
                              && negb (bool_decide (ms = []))
                              && boardElem (page w) && cg_ready b
                           then newArrows (currentPlayer (app w)) ms
                           else []))%list;
                  cg_ready := cg_ready b |})
  /\ (cg w = None -> cg w' = None)
  /\ cg (exec run w') = cg w'
  /\ app (exec run w') = app w'.
Proof.
  open_world w.
  unfold exec, result, showAvailableMovesArrows, clearArrows, isBoardReady,
    mbind, M_bind, get_app, assign, cg_set, setTimeout, userShapes.
  cbn.
  destruct a_training; cbn.
  { split_and!; try done.
    - intros b [= ->]. cbn. by rewrite app_nil_r.
    - by intros ->.
    - destruct board as [b |]; cbn; [| done]. by rewrite userShapes_again. }
  case_bool_decide; cbn.
  { split_and!; try done.
    - intros b [= ->]. cbn. by rewrite app_nil_r.
    - by intros ->.
    - destruct board as [b |]; cbn; [| done]. by rewrite userShapes_again. }
  destruct board as [b |]; cbn; [| by split_and!].
  destruct (boardElem pg && cg_ready b) eqn:Hready; cbn.
  - rewrite ?Hready. cbn. split_and!; try done.
    + intros b' [= <-]. by rewrite Hready, userShapes_again.
    + by rewrite !userShapes_again, filter_app, userShapes_again,
        newArrows_system, app_nil_r.
  - rewrite ?Hready. cbn. split_and!; try done.
    + intros b' [= <-]. by rewrite Hready, app_nil_r.
    + by rewrite userShapes_again.
Qed.

(** ** The node id of the current position *)

Lemma id_or_null_set (n : NodeId) :
  id_set (id_or_null n) = true \/ id_or_null n = NoId.
Proof. unfold id_or_null. destruct (id_set n) eqn:H; auto. Qed.

(** X10.  [ensureNodeIdForCurrentPosition] never throws and returns the
    node id that [appState] holds afterwards, which is either set or
    [null]; nothing else in [appState] changes.  With a node id set on
    entry it returns at once and sends nothing.  Otherwise it sends one
    [find_moves] request for the current position, and the node id is the
    one of the reply: [null] if the reply has none or the request
    fails. *)
Theorem ensureNodeIdForCurrentPosition_result {Server}
    (serve : Request -> Server -> Reply * Server) (w : World Server) :
  let run := ensureNodeIdForCurrentPosition serve in
  let w' := exec run w in
  result run w = Normal (currentNodeId (app w'))
  /\ (id_set (currentNodeId (app w')) = true \/ currentNodeId (app w') = NoId)
  /\ app w' = set_currentNodeId (currentNodeId (app w')) (app w)
  /\ (id_set (currentNodeId (app w)) = true ->
      run w = (Normal (currentNodeId (app w)), w))
  /\ (id_set (currentNodeId (app w)) = false ->
      requests w' = (requests w ++ [find_current (app w)])%list
      /\ currentNodeId (app w')
         = found_id (serve (find_current (app w)) (server w)).1).
Proof.
  open_world w.
  unfold exec, result, ensureNodeIdForCurrentPosition, try_catch, fetch,
    mbind, M_bind, get_app, assign, find_current, found_id.
  cbn. destruct (id_set a_nodeId) eqn:Hset; cbn.
  - by split_and!; auto.
  - destruct (serve (FindMoves _ _ _) sv) as [[| | | d] s]; cbn;
      split_and!; auto; try done.
    apply id_or_null_set.
Qed.

(** ** What [sendMoveToBackend] sends *)

(** X11.  The requests of one [sendMoveToBackend]: a [find_moves] for
    the current position if no node id is set on entry, followed by one
    [get_child_node] if there is a node id by then and the move name is
    not empty; that request carries this node id, the move name and the
    state of the save switch ([false] if the page has none).  No
    [get_child_node] request goes out for an unset node id or an empty
    move name. *)
Theorem sendMoveToBackend_requests {Server}
    (serve : Request -> Server -> Reply * Server)
    (moveSan : option string) (w : World Server) :
  let w' := exec (sendMoveToBackend serve moveSan) w in
  let a := app w in
  let n := if id_set (currentNodeId a) then currentNodeId a
           else found_id (serve (find_current a) (server w)).1 in
  let sent :=
    ((if id_set (currentNodeId a) then [] else [find_current a])
     ++ (if id_set n && str_set moveSan
         then [GetChildNode n moveSan (default false (saveSwitch w))]
         else []))%list in
  requests w' = (requests w ++ sent)%list
  /\ (forall n' san sw, GetChildNode n' san sw ∈ sent ->
        id_set n' = true /\ str_set san = true).
Proof.
  intros w' a n sent. split.
  - subst w' a n sent. open_world w.
    unfold exec, sendMoveToBackend, ensureNodeIdForCurrentPosition, try_catch,
      fetch, mbind, M_bind, get_app, assign, mret, M_ret, find_current,
      found_id.
    cbn.
    destruct (id_set a_nodeId) eqn:Hset; cbn.
    + rewrite Hset. cbn. destruct (str_set moveSan) eqn:Hsan; cbn;
        [| by rewrite app_nil_r].
      destruct (serve (GetChildNode _ _ _) sv) as [[| | | d] s]; cbn;
        try done.
      by destruct (success d), (child d).
    + rewrite ?Hset. cbn.
      destruct (serve (FindMoves _ _ _) sv) as [[| | | d] s]; cbn;
        try done.
      destruct (id_set (id_or_null (node_id d))) eqn:Hfound; cbn; [| done].
      destruct (str_set moveSan) eqn:Hsan; cbn; [| done].
      destruct (serve (GetChildNode _ _ _) s) as [[| | | d'] s']; cbn;
        rewrite <- ?app_assoc; try done.
      destruct (success d'), (child d'); cbn; by rewrite <- ?app_assoc.
  - intros n' san sw Hin. subst sent.
    apply elem_of_app in Hin as [Hin | Hin].
    + destruct (id_set (currentNodeId a)); [by apply elem_of_nil in Hin |].
      by apply list_elem_of_singleton in Hin.
    + destruct (id_set n && str_set moveSan) eqn:Hboth;
        [| by apply elem_of_nil in Hin].
      apply list_elem_of_singleton in Hin. injection Hin as -> -> ->.
      by apply andb_true_iff in Hboth.
Qed.

(** ** Clicking a move *)

Lemma try_catch_unit {Server} (body : M Server unit) (w : World Server) :
  (try_catch body (fun _ => mret ()) w).1 = Normal ().
Proof.
  unfold try_catch. destruct (body w) as [[[] | e] w1]; reflexivity.
Qed.

Lemma handleMoveClick_result {Server}
    (serve : Request -> Server -> Reply * Server)
    (chess_moves : option string -> option (list LegalMove))
    (i : nat) (w : World Server) :
  (handleMoveClick serve chess_moves i w).1 = Normal ().
Proof.
  unfold handleMoveClick, mbind, M_bind, get_app. cbn.
  destruct (availableMoves (app w) !! i) as [move |]; [| done].
  match goal with |- context [try_catch ?b ?h w] =>
    pose proof (try_catch_unit b w) as Hn;
    destruct (try_catch b h w) as [r w1] end.
  cbn in Hn. by subst r.
Qed.

(** X12.  [handleMoveClick] never throws, whatever the backend does.
    For an index without a move it leaves the world as it is; in every
    other case [isNavigating] is [false] afterwards. *)
Theorem handleMoveClick_finally {Server}
    (serve : Request -> Server -> Reply * Server)
    (chess_moves : option string -> option (list LegalMove))
    (i : nat) (w : World Server) :
  result (handleMoveClick serve chess_moves i) w = Normal ()
  /\ (availableMoves (app w) !! i = None ->
      exec (handleMoveClick serve chess_moves i) w = w)
  /\ (is_Some (availableMoves (app w) !! i) ->
      isNavigating (app (exec (handleMoveClick serve chess_moves i) w))
      = false).
Proof.
  split; [apply handleMoveClick_result |].
  unfold exec, handleMoveClick, mbind, M_bind, get_app. cbn. split.
  - by intros ->.
  - intros [move ->].
    match goal with |- context [try_catch ?b ?h w] =>
      pose proof (try_catch_unit b w) as Hn;
      destruct (try_catch b h w) as [r w1] end.
    cbn in Hn. subst r. unfold assign. cbn. by destruct (app w1).
Qed.

(** One run of [sendMoveToBackend] from a set node id with a move
    name: one request, and the node id moves on if a node comes back. *)
Lemma sendMoveToBackend_run {Server}
    (serve : Request -> Server -> Reply * Server)
    (moveSan : option string) (w : World Server) :
  id_set (currentNodeId (app w)) = true -> str_set moveSan = true ->
  let request := GetChildNode (currentNodeId (app w)) moveSan
                   (default false (saveSwitch w)) in
  let reply := serve request (server w) in
  sendMoveToBackend serve moveSan w
  = (Normal (returns_node reply.1),
     match returns_node reply.1 with
     | Some c => set_app (set_currentNodeId (nd_id c) (app w))
                   (sent request reply.2 w)
     | None => sent request reply.2 w
     end).
Proof.
  intros Hset Hsan request reply. subst request reply.
  unfold sendMoveToBackend, try_catch, fetch, mbind, M_bind, get_app,
    returns_node.
  cbn. rewrite Hset. cbn. rewrite Hset, Hsan. cbn.
  destruct (serve (GetChildNode _ _ _) (server w)) as [[| | | d] s]; cbn;
    try done.
  destruct (success d); [| done]. by destruct (child d).
Qed.


(** What [updateAppStateWithNode] leaves behind otherwise.  It completes
    normally unless its last call of [updateLegalMovesFromBackend]
    throws, after everything else is done. *)
Lemma updateAppStateWithNode_run {Server}
    (chess_moves : option string -> option (list LegalMove))
    (node : Node) (w : World Server) :
  board_lost w = false ->
  let w' := (updateAppStateWithNode chess_moves node w).2 in
  (updateAppStateWithNode chess_moves node w).1
    = (if legal_moves_unreadable chess_moves (nd_fen node) w
       then Throw (Error "Invalid FEN") else Normal ())
  /\ requests w' = requests w
  /\ server w' = server w
  /\ app w'
     = set_currentArrows (default [] (moves_of_children <$> nd_children node))
         ((if nd_win_rate node is Some r then set_win_rate (Some r) else id)
            ((if nd_games node is Some g then set_games (Some g) else id)
               (set_currentNodeParentId (id_or_null (nd_parent_id node))
                  (set_availableMoves
                     (default [] (moves_of_children <$> nd_children node))
                     (set_currentPosition (nd_fen node)
                        (set_currentNodeId (nd_id node) (app w)))))))
  /\ (forall b f, cg w = Some b -> nd_fen node = Some f -> f <> "" ->
        cg_fen <$> cg w' = Some f).
Proof.
  intros Hboard. open_world w.
  unfold board_lost in Hboard. cbn in Hboard.
  unfold updateAppStateWithNode, ensureChessgroundReady,
    window_updateLegalMovesFromBackend_call, legal_moves_unreadable,
    showAvailableMovesArrows, clearArrows,
    renderChessBoard, isBoardReady, isOwnRepertoire, mbind, M_bind, get_app,
    get_cg, assign, cg_set, setTimeout, mret, M_ret.
  cbn.
  destruct board as [b |]; cbn; [| rewrite Hboard; cbn].
  - destruct (nd_games node), (nd_win_rate node); cbn;
      destruct a_training; cbn; try case_bool_decide; cbn;
      try (destruct (boardElem pg && cg_ready b); cbn);
      try case_bool_decide; cbn;
      try (destruct (chess_moves (nd_fen node)); cbn);
      (split_and!; try done);
      intros b' f [= <-] Hfen Hf; rewrite Hfen; cbn; unfold str_or;
      by rewrite bool_decide_eq_false_2.
  - destruct (nd_games node), (nd_win_rate node); cbn;
      destruct a_training; cbn; try case_bool_decide; cbn;
      by split_and!.
Qed.


(** ** Dropping a piece *)

Lemma find_index_first (p : Move -> bool) (ms : list Move) (i : nat)
    (m : Move) :
  ms !! i = Some m -> p m = true ->
  (forall j m', (j < i)%nat -> ms !! j = Some m' -> p m' = false) ->
  find_index p ms = Some i.
Proof.
  revert i. induction ms as [| m0 ms IH]; intros i Hi Hp Hfirst; [done |].
  simpl. destruct i as [| i].
  - injection Hi as ->. by rewrite Hp.
  - rewrite (Hfirst 0%nat m0) by (lia || done).
    rewrite (IH i); [done | done | done |].
    intros j m' Hj Hm'. apply (Hfirst (S j)); [lia | done].
Qed.

(** X14.  In tree mode [handleDragDropMove] plays the first available
    move that matches the two squares, and no other: the call is the same
    as a click on that move.  Of e7e8q and e7e8n, say, dropping a pawn
    from e7 on e8 always plays the one that comes first in the list. *)
Theorem handleDragDropMove_plays_first_match {Server}
    (serve : Request -> Server -> Reply * Server)
    (chess_moves : option string -> option (list LegalMove))
    (chess_move : option string -> string -> string -> option string)
    (from to : string) (i : nat) (m : Move) (w : World Server) :
  trainingMode (app w) = false -> isOwnRepertoire (app w) = false ->
  availableMoves (app w) !! i = Some m -> matches from to m = true ->
  (forall j m', (j < i)%nat -> availableMoves (app w) !! j = Some m' ->
     matches from to m' = false) ->
  handleDragDropMove serve chess_moves chess_move from to w
  = handleMoveClick serve chess_moves i w.
Proof.
  intros Htrain Hown Hi Hmatch Hfirst.
  rewrite handleDragDropMove_tree_mode by done.
  rewrite (find_index_first _ _ i m) by done.
  unfold try_catch. pose proof (handleMoveClick_result serve chess_moves i w) as Hres.
  destruct (handleMoveClick serve chess_moves i w) as [r w1]. cbn in Hres. by subst r.
Qed.

Lemma handleDragDropMove_plays_first_match_witness :
  let a := set_currentNodeId (IdNum 1)
             (set_availableMoves
                [uci_move "e7e8q" "e8=Q"; uci_move "e7e8n" "e8=N"]
                initialAppState) in
  handleDragDropMove offline no_chess_moves no_chess_move "e7" "e8"
    (world_of a ())
  = handleMoveClick offline no_chess_moves 0 (world_of a ()).
Proof.
  intros a.
  apply (handleDragDropMove_plays_first_match offline no_chess_moves
           no_chess_move "e7" "e8" 0 (uci_move "e7e8q" "e8=Q")
           (world_of a ()));
    [reflexivity | reflexivity | reflexivity | reflexivity |].
  intros j m' Hj. lia.
Defined.

(** The call of [window.updateLegalMovesFromBackend()] does nothing the
    model records when chess.js can read the current position. *)
Lemma window_updateLegalMovesFromBackend_call_readable {Server}
    (chess_moves : option string -> option (list LegalMove))
    (w : World Server) :
  chess_moves (currentPosition (app w)) <> None ->
  window_updateLegalMovesFromBackend_call chess_moves w = (Normal (), w).
Proof.
  intros Hread. unfold window_updateLegalMovesFromBackend_call.
  destruct (cg w); [| done]. destruct (isOwnRepertoire (app w)); [| done].
  by destruct (chess_moves (currentPosition (app w))).
Qed.

(** X15.  [handleDragDropMove] for a repertoire player, outside
    training mode, at a position chess.js can read.  Without a board on
    the page there is no [window.game] either, and the handler throws a
    TypeError before it does anything.  With a board: a move that
    chess.js does not list as legal only re-renders the current position,
    nothing is sent and [appState] is as before.  A legal move is always
    sent to the backend, whether or not it is among the available moves,
    with the current node id, the SAN of chess.js and the state of the
    save switch.  If no node comes back, the handler completes,
    [appState] is unchanged, and the board shows the position after the
    move all the same. *)
Theorem handleDragDropMove_repertoire_mode {Server}
    (serve : Request -> Server -> Reply * Server)
    (chess_moves : option string -> option (list LegalMove))
    (chess_move : option string -> string -> string -> option string)
    (from to : string) (legal : list LegalMove) (w : World Server) :
  trainingMode (app w) = false -> isOwnRepertoire (app w) = true ->
  chess_moves (currentPosition (app w)) = Some legal ->
  let run := handleDragDropMove serve chess_moves chess_move from to in
  (cg w = None -> run w = (Throw TypeError, w))
  /\ (is_Some (cg w) -> find_legal from to legal = None ->
     run w = renderChessBoard (currentPosition (app w))
                              (currentColor (app w)) w
     /\ requests (exec run w) = requests w
     /\ app (exec run w) = app w)
  /\ (forall found newFen,
        is_Some (cg w) ->
        find_legal from to legal = Some found ->
        chess_move (currentPosition (app w)) from to = Some newFen ->
        id_set (currentNodeId (app w)) = true -> lm_san found <> "" ->
        let request := GetChildNode (currentNodeId (app w))
                         (Some (lm_san found))
                         (default false (saveSwitch w)) in
        requests (exec run w) = (requests w ++ [request])%list
        /\ (returns_node (serve request (server w)).1 = None ->
            result run w = Normal ()
            /\ app (exec run w) = app w
            /\ (forall b, cg w = Some b -> newFen <> "" ->
                  cg_fen <$> cg (exec run w) = Some newFen))).
Proof.
  intros Htrain Hown Hlegal run. subst run. split_and!.
  - intros Hcg.
    unfold handleDragDropMove, legalMovesOf, mbind, M_bind, get_app. cbn.
    by rewrite Htrain, Hown, Hcg.
  - intros [b Hcg] Hnone.
    assert (handleDragDropMove serve chess_moves chess_move from to w
            = renderChessBoard (currentPosition (app w))
                               (currentColor (app w)) w) as Hrun.
    { unfold handleDragDropMove, legalMovesOf, mbind, M_bind, get_app. cbn.
      by rewrite Htrain, Hown, Hcg, Hlegal, Hnone. }
    unfold exec. rewrite Hrun.
    destruct (renderChessBoard_run (currentPosition (app w))
                (currentColor (app w)) w) as (_ & Happ & Hreq & _).
    by split_and!.
  - intros found newFen [b Hcg] Hfound Hmove Hset Hsan request.
    assert (str_set (Some (lm_san found)) = true) as Hstr.
    { cbn. by rewrite bool_decide_eq_false_2. }
    pose proof (sendMoveToBackend_run serve (Some (lm_san found)) w
                  Hset Hstr) as Hsend.
    cbn zeta in Hsend. fold request in Hsend.
    unfold exec, result, handleDragDropMove, legalMovesOf, mbind, M_bind,
      get_app.
    cbn.
    rewrite Htrain, Hown, Hcg, Hlegal, Hfound, Hmove, Hsend.
    destruct (returns_node (serve request (server w)).1) as [c |] eqn:Hnode.
    + split; [| done].
      match goal with |- context [updateAppStateWithNode chess_moves c ?W] =>
        assert (board_lost W = false) as Hboard
          by (unfold board_lost; cbn; by rewrite Hcg);
        destruct (updateAppStateWithNode_run chess_moves c W Hboard)
          as (_ & Hreq & _) end.
      cbn in Hreq. by rewrite Hreq.
    + match goal with |- context [renderChessBoard ?f ?pc ?W] =>
        destruct (renderChessBoard_run f pc W) as (Hr & Happ & Hreq & Hfen);
        destruct (renderChessBoard f pc W) as [r w1] eqn:Hrender
      end.
      cbn in Hr, Happ, Hreq, Hfen. subst r.
      rewrite window_updateLegalMovesFromBackend_call_readable
        by (rewrite Happ; cbn; by rewrite Hlegal).
      cbn. rewrite Hreq, Happ. split; [done |]. intros _.
      split_and!; try done.
      intros b' Hb Hne. by eapply Hfen.
Qed.

(** The theorem on the opening position with the e-pawn as the only
    legal move, at node 1 of a tree that has lost its nodes: the drop
    e2-e5 is not sent, the drop e2-e4 is sent and shown although no node
    comes back. *)
Lemma handleDragDropMove_repertoire_mode_witness :
  let a := set_currentNodeId (IdNum 1)
             (set_currentPlayer (Some "My Repertoire") initialAppState) in
  let w := world_of a () in
  let illegal := handleDragDropMove node_deleted only_e4 after_e4
                   "e2" "e5" in
  let legal := handleDragDropMove node_deleted only_e4 after_e4
                 "e2" "e4" in
  (requests (exec illegal w) = [] /\ app (exec illegal w) = a)
  /\ requests (exec legal w) = [GetChildNode (IdNum 1) (Some "e4") false]
  /\ result legal w = Normal ()
  /\ app (exec legal w) = a
  /\ cg_fen <$> cg (exec legal w)
     = Some "rnbqkbnr/pppppppp/8/8/4P3/8/PPPP1PPP/RNBQKBNR b KQkq - 0 1".
Proof.
  intros a w illegal legal.
  destruct (handleDragDropMove_repertoire_mode node_deleted only_e4 after_e4
              "e2" "e5" _ w eq_refl eq_refl eq_refl) as (_ & Hillegal & _).
  destruct (Hillegal (mk_is_Some _ _ eq_refl) eq_refl) as (_ & Hreq & Happ).
  destruct (handleDragDropMove_repertoire_mode node_deleted only_e4 after_e4
              "e2" "e4" _ w eq_refl eq_refl eq_refl) as (_ & _ & Hlegal).
  destruct (Hlegal _ _ (mk_is_Some _ _ eq_refl) eq_refl eq_refl eq_refl
              ltac:(discriminate))
    as (Hsent & Hnone).
  destruct (Hnone eq_refl) as (Hres & Hsame & Hfen).
  split; [by split |]. split; [exact Hsent |]. split; [exact Hres |].
  split; [exact Hsame |]. by eapply Hfen.
Defined.
(** ** Moves that chess.js rejects *)

(** X16.  What chess.js rejects.  [handleTrainingMove] changes nothing
    and completes normally when training mode is off, when it is the
    opponent's turn, when chess.js cannot read the position, when the
    move is not among the legal moves, or when chess.js refuses to play
    it.  [handleDragDropMove] for a repertoire player has no [try]: if
    chess.js cannot read the position the exception escapes, with the
    world unchanged. *)
Theorem moves_rejected_by_chess_js {Server}
    (serve : Request -> Server -> Reply * Server)
    (chess_moves : option string -> option (list LegalMove))
    (chess_move : option string -> string -> string -> option string)
    (from to : string) (w : World Server) :
  let legal := chess_moves (currentPosition (app w)) in
  let unplayable :=
    match legal with
    | None => true
    | Some ms =>
        match find_legal from to ms with
        | None => true
        | Some _ =>
            bool_decide (chess_move (currentPosition (app w)) from to = None)
        end
    end in
  (trainingMode (app w) = false \/ isOpponentTurn (app w) = true
   \/ unplayable = true ->
   handleTrainingMove serve chess_moves chess_move from to w = (Normal (), w))
  /\ (trainingMode (app w) = false -> isOwnRepertoire (app w) = true ->
      legal = None ->
      exec (handleDragDropMove serve chess_moves chess_move from to) w = w
      /\ exists e,
           result (handleDragDropMove serve chess_moves chess_move from to) w
           = Throw e).
Proof.
  intros legal unplayable. subst legal unplayable. split.
  - unfold handleTrainingMove, legalMovesOf, try_catch, throw, mbind, M_bind,
      get_app.
    cbn.
    destruct (trainingMode (app w)), (isOpponentTurn (app w)); cbn;
      try done.
    intros [[=] | [[=] | Hun]].
    destruct (cg w); [| done].
    destruct (chess_moves (currentPosition (app w))) as [ms |]; [| done].
    destruct (find_legal from to ms) as [found |]; [| done].
    apply bool_decide_eq_true in Hun. by rewrite Hun.
  - intros Htrain Hown Hnone.
    unfold exec, result, handleDragDropMove, legalMovesOf, throw, mbind,
      M_bind, get_app.
    cbn. rewrite Htrain, Hown, Hnone.
    destruct (cg w); (split; [done | by eexists]).
Qed.
(** ** A move that is not in the repertoire *)

Lemma checkMoveInRepertoire_absent (moveSan : string) (ms : list Move) :
  (forall m, m ∈ ms -> mv_san m <> Some moveSan) ->
  existsb (fun m => bool_decide (mv_san m = Some moveSan)) ms = false.
Proof.
  induction ms as [| m ms IH]; intros Habsent; [done |]. simpl.
  rewrite bool_decide_eq_false_2 by (apply Habsent; by left).
  apply IH. intros m' Hm'. apply Habsent. by right.
Qed.

(** X17.  A legal move that is not in the repertoire, played in
    training mode on the player's turn, on a page with its board.
    [handleTrainingMove] completes normally; the training history gets
    one more entry, for the current position and this move, marked
    incorrect; position, node id, turn and studied nodes are unchanged.
    The backend is never asked for the move: the request for the
    unstudied moves of the current position is sent, and after it, when
    the page has its moves list and a session is set, the request for the
    learning progress that [updateTrainingStatus] sends without being
    awaited; nothing else.  A timer to render the current position again
    is set; and the board shows the position after the move with no shape
    on it that was not there before: the arrows for the moves still open
    are not drawn in training mode. *)
Theorem handleTrainingMove_wrong_move {Server}
    (serve : Request -> Server -> Reply * Server)
    (chess_moves : option string -> option (list LegalMove))
    (chess_move : option string -> string -> string -> option string)
    (from to : string) (legal : list LegalMove) (found : LegalMove)
    (newFen : string) (b : Chessground) (w : World Server) :
  cg w = Some b ->
  trainingMode (app w) = true -> isOpponentTurn (app w) = false ->
  chess_moves (currentPosition (app w)) = Some legal ->
  find_legal from to legal = Some found ->
  chess_move (currentPosition (app w)) from to = Some newFen ->
  (forall m, m ∈ availableMoves (app w) -> mv_san m <> Some (lm_san found)) ->
  let run := handleTrainingMove serve chess_moves chess_move from to in
  let w' := exec run w in
  result run w = Normal ()
  /\ trainingHistory (app w')
     = (trainingHistory (app w)
          ++ [ {| h_position := currentPosition (app w);
                  h_move := lm_san found; h_correct := false |} ])%list
  /\ currentPosition (app w') = currentPosition (app w)
  /\ currentNodeId (app w') = currentNodeId (app w)
  /\ isOpponentTurn (app w') = false
  /\ studiedNodes (app w') = studiedNodes (app w)
  /\ requests w'
     = (requests w
          ++ match currentPosition (app w) with
             | Some fen => [GetUnstudiedMoves (trainingSessionId (app w)) fen]
             | None => []
             end
          ++ (if movesList (page w) && str_set (trainingSessionId (app w))
              then [GetProgress (trainingSessionId (app w))]
              else []))%list
  /\ RenderCurrentPosition ∈ timers w'
  /\ (exists b', cg w' = Some b'
          /\ (newFen <> "" -> cg_fen b' = newFen)
          /\ (forall s, s ∈ cg_shapes b' -> s ∈ cg_shapes b)).
Proof.
  intros Hcg Htrain Hturn Hlegal Hfound Hmove Habsent run w'. subst run w'.
  apply checkMoveInRepertoire_absent in Habsent.
  open_world w.
  cbn in Hcg, Htrain, Hturn, Hlegal, Hmove, Habsent. subst.
  unfold exec, result, handleTrainingMove, legalMovesOf, negativeFeedback,
    checkMoveInRepertoire, getUnstudiedMoves, updateTrainingStatus, send,
    showAvailableMovesArrows, clearArrows, renderChessBoard, try_catch, fetch,
    throw, mbind, M_bind, get_app, get_cg, assign, cg_set, setTimeout,
    mret, M_ret.
  cbn. rewrite Hlegal. cbn. rewrite Hfound. cbn. rewrite Hmove. cbn.
  rewrite Habsent; cbn.
  destruct a_position as [fen |]; cbn;
    [ destruct (serve (GetUnstudiedMoves _ _) sv) as [[| | | d] s]; cbn;
      [ | | | destruct (success d); cbn;
              [ destruct (moves d) as [ms |]; cbn;
                [ case_bool_decide; cbn | ] | ] ] | ];
    destruct (movesList pg); cbn; destruct (str_set a_session); cbn;
    (split_and!; try done; try (by rewrite ?app_nil_r);
     try (by rewrite <- ?app_assoc);
     try (rewrite !elem_of_app, !list_elem_of_singleton; by auto));
    try (eexists; split; [reflexivity |]; cbn;
         split; [by intros Hne; rewrite bool_decide_eq_false_2 |];
         intros s0 Hin; try done;
         by apply list_elem_of_filter in Hin as [_ ?]).
Qed.

(** The theorem at the opening position in session [s], where the
    repertoire has d4 and the player drops the e-pawn on e4. *)
Lemma handleTrainingMove_wrong_move_witness :
  let a := set_availableMoves [uci_move "d2d4" "d4"] in_training in
  let run := handleTrainingMove node_deleted only_e4 after_e4 "e2" "e4" in
  let w' := exec run (world_of a ()) in
  result run (world_of a ()) = Normal ()
  /\ trainingHistory (app w')
     = [ {| h_position := Some DEFAULT_FEN; h_move := "e4";
            h_correct := false |} ]
  /\ requests w'
     = [GetUnstudiedMoves (Some "s") DEFAULT_FEN; GetProgress (Some "s")]
  /\ availableMoves (app w') = [uci_move "d2d4" "d4"].
Proof.
  intros a run w'.
  destruct (handleTrainingMove_wrong_move node_deleted only_e4 after_e4
              "e2" "e4" _ {| lm_from := "e2"; lm_to := "e4"; lm_san := "e4" |}
              _ _ (world_of a ())
              eq_refl eq_refl eq_refl eq_refl eq_refl eq_refl)
    as (Hres & Hhist & _ & _ & _ & _ & Hreq & _).
  { intros m Hm. apply list_elem_of_singleton in Hm. by subst m. }
  by split_and!.
Defined.
(** ** The end of a line *)

(** X18.  The opponent's turn with nothing left to play.  When the
    request for the unstudied moves of the current position gives no
    move, [playOpponentMove] completes normally, sets one timer for the
    return to the start position, adds at most the current node to the
    studied nodes, and leaves position, node id and available moves as
    they are.  It is still the opponent's turn afterwards, so until that
    timer runs [handleTrainingMove] does nothing. *)
Theorem playOpponentMove_line_finished {Server}
    (serve : Request -> Server -> Reply * Server)
    (chess_moves : option string -> option (list LegalMove))
    (chess_move : option string -> string -> string -> option string)
    (randomIndex : nat) (w : World Server) :
  trainingMode (app w) = true -> isOpponentTurn (app w) = true ->
  str_set (trainingSessionId (app w)) = true ->
  unstudiedMovesOnly (app w) = true ->
  unstudied_of (currentPosition (app w))
    (fun f => (serve (GetUnstudiedMoves (trainingSessionId (app w)) f)
                 (server w)).1) = [] ->
  let w' := exec (playOpponentMove serve chess_moves randomIndex) w in
  result (playOpponentMove serve chess_moves randomIndex) w = Normal ()
  /\ isOpponentTurn (app w') = true
  /\ currentPosition (app w') = currentPosition (app w)
  /\ currentNodeId (app w') = currentNodeId (app w)
  /\ availableMoves (app w') = availableMoves (app w)
  /\ studiedNodes (app w) ⊆ studiedNodes (app w')
  /\ studiedNodes (app w')
       ⊆ {[currentNodeId (app w)]} ∪ studiedNodes (app w)
  /\ timers w' = (timers w ++ [ReturnToStartPosition])%list
  /\ (forall from to,
        handleTrainingMove serve chess_moves chess_move from to w'
        = (Normal (), w')).
Proof.
  intros Htrain Hturn Hsid Honly Hnone w'. subst w'.
  open_world w.
  cbn in Htrain, Hturn, Hsid, Honly, Hnone. subst.
  unfold exec, result, playOpponentMove, handleTrainingMove,
    getUnstudiedMoves, markNodeAsStudied, unstudied_of in *.
  unfold try_catch, fetch, throw, mbind, M_bind, get_app, assign, setTimeout,
    mret, M_ret.
  cbn. rewrite Hsid. cbn.
  assert (forall (X : gset NodeId) (n : NodeId), X ⊆ {[n]} ∪ X) as Hsub
    by (intros; apply union_subseteq_r).
  destruct a_position as [fen |]; cbn in *;
    [ destruct (serve (GetUnstudiedMoves _ _) sv) as [[| | | d] s];
      cbn in *;
      [ | | | destruct (success d); cbn in *;
              [ destruct (moves d) as [ms |]; cbn in *; [subst ms; cbn |]
              | ] ]
    | ];
    (destruct (id_set a_nodeId); cbn;
     [ match goal with |- context [serve (MarkStudied ?n ?sid) ?st] =>
         destruct (serve (MarkStudied n sid) st) as [[| | | d'] s'] end;
       cbn; try destruct (success d'); cbn
     | ]);
    by split_and!.
Qed.

Lemma playOpponentMove_line_finished_witness :
  let a := set_isOpponentTurn true in_training in
  let w' := exec (playOpponentMove offline no_chess_moves 0) (world_of a ()) in
  isOpponentTurn (app w') = true
  /\ timers w' = [ReturnToStartPosition].
Proof.
  intros a.
  destruct (playOpponentMove_line_finished offline no_chess_moves
              no_chess_move 0 (world_of a ())
              eq_refl eq_refl eq_refl eq_refl eq_refl)
    as (_ & Hturn & _ & _ & _ & _ & _ & Htimers & _).
  by split.
Defined.

(** ** Ending and starting training *)

(** X19.  [startTrainingMode] when the repertoire tree does not load
    (the request fails, or the reply does not report success): the call
    completes normally, and [appState] is in training mode for "My
    Repertoire" with the colour asked for, but with the session id, the
    studied nodes, the training history, the position, the node id and
    the available moves it had before; no timer is set. *)
Theorem startTrainingMode_failed_load {Server}
    (serve : Request -> Server -> Reply * Server)
    (playerColor now rand : string) (w : World Server) :
  reports_success
    (serve (ProcessGames "My Repertoire" playerColor) (server w)).1 = false ->
  let w' := exec (startTrainingMode serve playerColor now rand) w in
  result (startTrainingMode serve playerColor now rand) w = Normal ()
  /\ app w'
     = set_isOpponentTurn (bool_decide (playerColor = "black"))
         (set_currentPlayer (Some "My Repertoire")
            (set_currentColor playerColor
               (set_trainingMode true (app w))))
  /\ trainingMode (app w') = true
  /\ trainingSessionId (app w') = trainingSessionId (app w)
  /\ studiedNodes (app w') = studiedNodes (app w)
  /\ trainingHistory (app w') = trainingHistory (app w)
  /\ currentPosition (app w') = currentPosition (app w)
  /\ currentNodeId (app w') = currentNodeId (app w)
  /\ availableMoves (app w') = availableMoves (app w)
  /\ timers w' = timers w
  /\ requests w'
     = (requests w ++ [ProcessGames "My Repertoire" playerColor])%list.
Proof.
  intros Hfail w'. subst w'.
  open_world w. cbn in Hfail.
  unfold exec, result, startTrainingMode, try_catch, fetch, mbind, M_bind,
    assign, setTimeout, throw.
  cbn.
  destruct (serve (ProcessGames _ _) sv) as [[| | | d] s]; cbn in *;
    try by split_and!.
  rewrite Hfail. cbn. by split_and!.
Qed.

Lemma startTrainingMode_failed_load_witness :
  let w' := exec (startTrainingMode offline "black" "1" "a")
                 (world_of initialAppState ()) in
  trainingMode (app w') = true
  /\ trainingSessionId (app w') = None
  /\ isOpponentTurn (app w') = true.
Proof.
  destruct (startTrainingMode_failed_load offline "black" "1" "a"
              (world_of initialAppState ()) eq_refl)
    as (_ & Happ & Hmode & Hsid & _).
  split; [exact Hmode |]. split; [exact Hsid |]. by rewrite Happ.
Defined.

(** X20.  [endTrainingMode] clears the training mode, the turn and the
    training history and nothing else: the session id, the studied and
    the directly learned nodes, the mistake count and the player stay,
    and so do the timers the training has set.  Afterwards
    [handleTrainingMove] and [playOpponentMove] do nothing, and every
    timer but one sends nothing when it fires and changes nothing of
    [appState] but the arrows it remembers.  The one is the timer for the return to the start position:
    [returnToStartPosition] does not look at [trainingMode], so when it
    fires after the training has ended and the tree loads, position,
    available moves and node id are overwritten with the start of the
    repertoire tree, outside training mode. *)
Theorem endTrainingMode_stops_training {Server}
    (serve : Request -> Server -> Reply * Server)
    (chess_moves : option string -> option (list LegalMove))
    (chess_move : option string -> string -> string -> option string)
    (w : World Server) :
  let w1 := exec endTrainingMode w in
  result endTrainingMode w = Normal ()
  /\ app w1 = set_trainingHistory []
               (set_isOpponentTurn false (set_trainingMode false (app w)))
  /\ trainingSessionId (app w1) = trainingSessionId (app w)
  /\ studiedNodes (app w1) = studiedNodes (app w)
  /\ directlyLearnedNodes (app w1) = directlyLearnedNodes (app w)
  /\ mistakeCount (app w1) = mistakeCount (app w)
  /\ currentPlayer (app w1) = currentPlayer (app w)
  /\ timers w1 = timers w
  /\ (forall from to,
        handleTrainingMove serve chess_moves chess_move from to w1
        = (Normal (), w1))
  /\ (forall i, playOpponentMove serve chess_moves i w1 = (Normal (), w1))
  /\ (forall t i, t <> ReturnToStartPosition ->
        let w2 := exec (fire serve chess_moves t i) w1 in
        app w2 = set_currentArrows (currentArrows (app w2)) (app w1)
        /\ requests w2 = requests w1)
  /\ (forall i data,
        (serve (ProcessGames "My Repertoire" (currentColor (app w)))
               (server w)).1 = Json data ->
        success data = true ->
        let w2 := exec (fire serve chess_moves ReturnToStartPosition i) w1 in
        trainingMode (app w2) = false
        /\ currentPosition (app w2) = position data
        /\ availableMoves (app w2) = default [] (moves data)
        /\ currentNodeId (app w2) = id_or_null (node_id data)).
Proof.
  open_world w.
  unfold exec, result, endTrainingMode, handleTrainingMove, playOpponentMove,
    mbind, M_bind, get_app, assign.
  cbn. split_and!; try done.
  - intros t i Ht.
    destruct t; try done; cbn;
      unfold showAvailableMovesArrows, clearArrows, renderChessBoard,
        mbind, M_bind, get_app, get_cg, assign, cg_set, setTimeout, mret,
        M_ret;
      cbn; destruct board as [b |]; cbn;
      repeat (case_bool_decide; cbn);
      try (destruct (boardElem pg && cg_ready b); cbn);
      repeat (case_bool_decide; cbn);
      by split.
  - intros i data Hreply Hsuccess. cbn.
    unfold returnToStartPosition, showCongratulations, getLearningProgress,
      updateTrainingStatus, getUnstudiedMoves,
      showAvailableMovesArrows, clearArrows, renderChessBoard,
      try_catch, fetch, throw, mbind, M_bind, get_app, get_cg, assign,
      cg_set, setTimeout, mret, M_ret.
    cbn.
    destruct (serve (ProcessGames _ _) sv) as [r s]. cbn in Hreply. subst r.
    cbn. rewrite Hsuccess. cbn.
    destruct board as [b |]; cbn;
      (destruct (position data) as [fen |]; cbn;
       [ match goal with |- context [serve (GetUnstudiedMoves ?x ?f) ?st] =>
           destruct (serve (GetUnstudiedMoves x f) st) as [[| | | d] s1] end;
         cbn;
         [ | | | destruct (success d); cbn;
                 [ destruct (moves d) as [ms |]; cbn;
                   [ case_bool_decide; cbn | ] | ] ] | ]);
      repeat match goal with |- context [serve (GetProgress ?x) ?st] =>
        destruct (serve (GetProgress x) st) as [[| | | d2] s2]; cbn end;
      by split_and!.
Qed.

(** The theorem for a training that is ended at node 2, after e4, while
    the timer for the return to the start position is pending: the timer
    is still there, and when it fires the position is the opening
    position of node 1 again, outside training mode. *)
Lemma endTrainingMode_stops_training_witness :
  let a := set_currentNodeId (IdNum 2)
             (set_currentPosition (Some "fen after e4") in_training) in
  let w := add_timer ReturnToStartPosition (world_of a ()) in
  let w1 := exec endTrainingMode w in
  let w2 := exec (fire tree_loads no_chess_moves ReturnToStartPosition 0) w1 in
  timers w1 = [ReturnToStartPosition]
  /\ currentPosition (app w1) = Some "fen after e4"
  /\ trainingMode (app w2) = false
  /\ currentPosition (app w2) = Some DEFAULT_FEN
  /\ currentNodeId (app w2) = IdNum 1
  /\ availableMoves (app w2) = [uci_move "e2e4" "e4"].
Proof.
  intros a w w1 w2.
  destruct (endTrainingMode_stops_training tree_loads no_chess_moves
              no_chess_move w)
    as (_ & _ & _ & _ & _ & _ & _ & Htimers & _ & _ & _ & Hlate).
  destruct (Hlate 0%nat start_node eq_refl eq_refl)
    as (Hmode & Hpos & Hmoves & Hid).
  split; [exact Htimers |]. split; [reflexivity |].
  split; [exact Hmode |]. split; [exact Hpos |]. split; [exact Hid |].
  exact Hmoves.
Defined.

(** X21.  Starting and then ending a training does not bring back
    the player that was shown before: whatever the backend answered, the
    current player is "My Repertoire" afterwards, so [handleDragDropMove]
    treats the position as one of the own repertoire; the colour is the
    one of the training, and the session id and the studied nodes are
    those the start left. *)
Theorem training_does_not_restore_player {Server}
    (serve : Request -> Server -> Reply * Server)
    (playerColor now rand : string) (w : World Server) :
  let started := exec (startTrainingMode serve playerColor now rand) w in
  let ended := exec endTrainingMode started in
  trainingMode (app ended) = false
  /\ currentPlayer (app ended) = Some "My Repertoire"
  /\ isOwnRepertoire (app ended) = true
  /\ currentColor (app ended) = playerColor
  /\ trainingSessionId (app ended) = trainingSessionId (app started)
  /\ studiedNodes (app ended) = studiedNodes (app started).
Proof.
  open_world w.
  unfold exec, endTrainingMode, startTrainingMode, showTrainingModeUI,
    updateTrainingStatus, send, try_catch, fetch, mbind, M_bind, assign,
    setTimeout, throw.
  cbn.
  destruct (serve (ProcessGames _ _) sv) as [[| | | d] s]; cbn;
    try by split_and!.
  destruct (success d); cbn; [| by split_and!].
  destruct (positionInfo pg); cbn; try case_bool_decide; cbn;
    try (destruct (movesList pg); cbn); by split_and!.
Qed.

(** ** What every handler keeps *)

Section Handlers.
Context {Server : Type}.
Variable serve : Request -> Server -> Reply * Server.
Variable chess_moves : option string -> option (list LegalMove).
Variable chess_move : option string -> string -> string -> option string.
Variable R : relation (World Server).
Context `{!StepInvariant R}.

#[local] Instance step_reflexive : Reflexive R := step_refl.
#[local] Instance step_transitive : Transitive R := step_trans.

Lemma kept_ret {A} (a : A) : kept R (mret a : M Server A).
Proof. intros w. apply reflexivity. Qed.

Lemma kept_throw {A} (e : Exn) : kept R (@throw Server A e).
Proof. intros w. apply reflexivity. Qed.

Lemma kept_bind {A B} (m : M Server A) (f : A -> M Server B) :
  kept R m -> (forall a, kept R (f a)) -> kept R (m ≫= f).
Proof.
  intros Hm Hf w. unfold exec, mbind, M_bind.
  specialize (Hm w). unfold exec in Hm.
  destruct (m w) as [[a | e] w1]; [| exact Hm].
  etransitivity; [exact Hm | apply Hf].
Qed.

Lemma kept_try {A} (body : M Server A) (handler : Exn -> M Server A) :
  kept R body -> (forall e, kept R (handler e)) ->
  kept R (try_catch body handler).
Proof.
  intros Hb Hh w. unfold exec, try_catch.
  specialize (Hb w). unfold exec in Hb.
  destruct (body w) as [[a | e] w1]; [exact Hb |].
  etransitivity; [exact Hb | apply Hh].
Qed.

Lemma kept_get_app : kept R (@get_app Server).
Proof. intros w. apply reflexivity. Qed.

Lemma kept_step {A} (m : M Server A) :
  (forall w, R w (m w).2) -> kept R m.
Proof. intros H w. apply H. Qed.

(** A computation that first reads the world. *)
Lemma kept_read {A} (f : World Server -> M Server A) :
  (forall w0, kept R (f w0)) -> kept R (fun w => f w w).
Proof. intros H w. apply (H w w). Qed.

Lemma kept_fetch (req : Request) :
  navigation_request req = true -> kept R (fetch serve req).
Proof.
  intros Hreq. apply kept_step. intros w. unfold fetch.
  destruct (serve req (server w)) as [[| | | d] s]; by apply step_sent.
Qed.

Lemma kept_send (req : Request) :
  navigation_request req = true -> kept R (send serve req).
Proof. intros Hreq. apply kept_step. intros w. by apply step_sent. Qed.

(** A computation that leaves the world as it is. *)
Lemma kept_pure {A} (m : M Server A) :
  (forall w, (m w).2 = w) -> kept R m.
Proof. intros H w. unfold exec. rewrite H. apply reflexivity. Qed.

Lemma kept_legalMovesOf (fen : option string) :
  kept R (@legalMovesOf Server chess_moves fen).
Proof.
  apply kept_pure. intros w. unfold legalMovesOf.
  destruct (cg w); [| done]. by destruct (chess_moves fen).
Qed.

Lemma kept_ensureChessgroundReady : kept R (@ensureChessgroundReady Server).
Proof.
  apply kept_pure. intros w. unfold ensureChessgroundReady.
  destruct (cg w); [done |]. by destruct (boardElem (page w)).
Qed.

Lemma kept_window_updateLegalMovesFromBackend_call :
  kept R (@window_updateLegalMovesFromBackend_call Server chess_moves).
Proof.
  apply kept_pure. intros w. unfold window_updateLegalMovesFromBackend_call.
  destruct (cg w); [| done]. destruct (isOwnRepertoire (app w)); [| done].
  by destruct (chess_moves (currentPosition (app w))).
Qed.

Lemma kept_updateTrainingStatus : kept R (updateTrainingStatus serve).
Proof.
  intros w. unfold exec, updateTrainingStatus.
  destruct (trainingMode (app w) && movesList (page w)
            && str_set (trainingSessionId (app w)));
    [by apply step_sent | apply reflexivity].
Qed.

Lemma kept_setTimeout (t : Timer) : kept R (@setTimeout Server t).
Proof. apply kept_step. intros w. apply step_timer. Qed.

Lemma kept_renderChessBoard (fen : option string) (playerColor : string) :
  kept R (@renderChessBoard Server fen playerColor).
Proof. apply kept_step. intros w. apply step_render. Qed.

Lemma kept_showAvailableMovesArrows (ms : list Move) :
  kept R (@showAvailableMovesArrows Server ms).
Proof. apply kept_step. intros w. apply step_arrows. Qed.

Lemma kept_updateAppStateWithNode (node : Node) :
  kept R (@updateAppStateWithNode Server chess_moves node).
Proof.
  unfold updateAppStateWithNode.
  apply kept_bind; [apply kept_ensureChessgroundReady | intros _].
  apply kept_bind; [apply kept_step, step_currentNodeId | intros _].
  apply kept_bind; [apply kept_step, step_currentPosition | intros _].
  apply kept_bind; [apply kept_step, step_availableMoves | intros _].
  apply kept_bind; [apply kept_step, step_currentNodeParentId | intros _].
  apply kept_bind.
  { destruct (nd_games node); [apply kept_step, step_games | apply kept_ret]. }
  intros _. apply kept_bind.
  { destruct (nd_win_rate node);
      [apply kept_step, step_win_rate | apply kept_ret]. }
  intros _. apply kept_bind; [apply kept_get_app | intros a].
  apply kept_bind; [apply kept_step, step_currentArrows | intros _].
  apply kept_bind; [apply kept_renderChessBoard | intros _].
  apply kept_bind; [apply kept_showAvailableMovesArrows | intros _].
  apply kept_window_updateLegalMovesFromBackend_call.
Qed.

Lemma kept_ensureNodeIdForCurrentPosition :
  kept R (ensureNodeIdForCurrentPosition serve).
Proof.
  unfold ensureNodeIdForCurrentPosition.
  apply kept_bind; [apply kept_get_app | intros a].
  destruct (id_set (currentNodeId a)); [apply kept_ret |].
  apply kept_try.
  - apply kept_bind; [by apply kept_fetch | intros data].
    apply kept_bind; [apply kept_step, step_currentNodeId | intros _].
    apply kept_ret.
  - intros _. apply kept_bind; [apply kept_step, step_currentNodeId |].
    intros _. apply kept_ret.
Qed.

Lemma kept_sendMoveToBackend (moveSan : option string) :
  kept R (sendMoveToBackend serve moveSan).
Proof.
  unfold sendMoveToBackend.
  apply kept_bind; [apply kept_get_app | intros a0].
  apply kept_bind.
  { destruct (id_set (currentNodeId a0)); [apply kept_ret |].
    apply kept_bind; [apply kept_ensureNodeIdForCurrentPosition |].
    intros _. apply kept_ret. }
  intros _. apply kept_bind; [apply kept_get_app | intros a].
  destruct (negb (id_set (currentNodeId a)) || negb (str_set moveSan));
    [apply kept_ret |].
  apply (kept_read (fun w0 =>
           try_catch
             (data ← fetch serve
                       (GetChildNode (currentNodeId a) moveSan
                          (default false (saveSwitch w0)));
              match success data, child data with
              | true, Some c =>
                  assign (set_currentNodeId (nd_id c));; mret (Some c)
              | _, _ => mret None
              end)
             (fun _ => mret None))).
  intros w0. apply kept_try.
  - apply kept_bind; [by apply kept_fetch | intros data].
    destruct (success data), (child data) as [c |]; try apply kept_ret.
    apply kept_bind; [apply kept_step, step_currentNodeId | intros _].
    apply kept_ret.
  - intros _. apply kept_ret.
Qed.

Lemma kept_handleMoveClick (moveIndex : nat) :
  kept R (handleMoveClick serve chess_moves moveIndex).
Proof.
  unfold handleMoveClick.
  apply kept_bind; [apply kept_get_app | intros a].
  destruct (availableMoves a !! moveIndex) as [move |]; [| apply kept_ret].
  apply kept_bind; [| intros _; apply kept_step, step_isNavigating].
  apply kept_try; [| intros _; apply kept_ret].
  apply kept_bind; [apply kept_step, step_isNavigating | intros _].
  apply kept_bind; [apply kept_sendMoveToBackend | intros [c |]].
  - apply kept_updateAppStateWithNode.
  - apply kept_ret.
Qed.

Lemma kept_markNodeAsStudied (n : NodeId) (sid : option string) :
  kept R (markNodeAsStudied serve n sid).
Proof.
  unfold markNodeAsStudied. apply kept_try; [| intros _; apply kept_ret].
  apply kept_bind; [by apply kept_fetch | intros data].
  destruct (success data); [| apply kept_ret].
  apply kept_bind; [| intros _; apply kept_ret].
  apply kept_step. intros w. apply step_studied.
Qed.

Lemma kept_getUnstudiedMoves (sid fen : option string) :
  kept R (getUnstudiedMoves serve sid fen).
Proof.
  unfold getUnstudiedMoves. apply kept_try; [| intros _; apply kept_ret].
  destruct fen as [f |]; [| apply kept_throw].
  apply kept_bind; [by apply kept_fetch | intros data].
  destruct (success data); [| apply kept_ret].
  destruct (moves data); [apply kept_ret | apply kept_throw].
Qed.

(** Reading [appState] and pushing an entry built from it onto the
    training history. *)
Lemma kept_push_history {B} (e : AppState -> HistoryEntry)
    (k : AppState -> M Server B) :
  (forall a, kept R (k a)) ->
  kept R (a ← get_app;
        assign (set_trainingHistory (trainingHistory a ++ [e a]));;
        k a).
Proof.
  intros Hk w. unfold exec, mbind, M_bind, get_app, assign. cbn.
  etransitivity; [apply (step_history (e (app w)) w) |].
  apply Hk.
Qed.

Lemma kept_playOpponentMove (randomIndex : nat) :
  kept R (playOpponentMove serve chess_moves randomIndex).
Proof.
  unfold playOpponentMove.
  apply kept_bind; [apply kept_get_app | intros a].
  destruct (negb (trainingMode a) || negb (isOpponentTurn a));
    [apply kept_ret |].
  apply kept_try; [| intros _; apply kept_ret].
  apply kept_bind.
  { destruct (str_set (trainingSessionId a) && unstudiedMovesOnly a);
      [apply kept_getUnstudiedMoves | apply kept_ret]. }
  intros ms. case_bool_decide.
  - apply kept_bind; [| intros _; apply kept_setTimeout].
    destruct (id_set (currentNodeId a) && str_set (trainingSessionId a));
      [| apply kept_ret].
    apply kept_bind; [apply kept_markNodeAsStudied | intros _; apply kept_ret].
  - destruct (ms !! randomIndex) as [selectedMove |]; [| apply kept_throw].
    apply kept_bind; [apply kept_sendMoveToBackend | intros [c |]];
      [| apply kept_ret].
    apply kept_bind; [apply kept_updateAppStateWithNode | intros _].
    apply kept_bind; [apply kept_step, step_isOpponentTurn | intros _].
    apply kept_updateTrainingStatus.
Qed.

Lemma kept_negativeFeedback (moveSan : string) :
  kept R (negativeFeedback serve moveSan).
Proof.
  unfold negativeFeedback.
  apply kept_bind; [apply kept_setTimeout | intros _].
  apply (kept_push_history
           (fun a => {| h_position := currentPosition a; h_move := moveSan;
                        h_correct := false |})).
  intros a.
  apply kept_bind; [apply kept_getUnstudiedMoves | intros ms].
  apply kept_bind; [| intros _; apply kept_updateTrainingStatus].
  case_bool_decide; [apply kept_ret | apply kept_showAvailableMovesArrows].
Qed.

Lemma kept_handleTrainingMove (from to : string) :
  kept R (handleTrainingMove serve chess_moves chess_move from to).
Proof.
  unfold handleTrainingMove, checkMoveInRepertoire.
  apply kept_bind; [apply kept_get_app | intros a].
  destruct (negb (trainingMode a) || isOpponentTurn a); [apply kept_ret |].
  apply kept_try; [| intros _; apply kept_ret].
  apply kept_bind; [apply kept_legalMovesOf | intros legalMoves].
  destruct (find_legal from to legalMoves) as [found |]; [| apply kept_ret].
  destruct (chess_move (currentPosition a) from to) as [newFen |];
    [| apply kept_throw].
  apply kept_bind; [apply kept_renderChessBoard | intros _].
  apply kept_bind.
  { apply kept_bind; [apply kept_get_app | intros ?; apply kept_ret]. }
  intros moveExists.
  apply kept_bind.
  { destruct moveExists; [apply kept_sendMoveToBackend | apply kept_ret]. }
  intros [c |]; [| apply kept_negativeFeedback].
  apply kept_bind; [apply kept_updateAppStateWithNode | intros _].
  apply kept_bind; [apply kept_get_app | intros a1].
  apply kept_bind; [apply kept_getUnstudiedMoves | intros ms].
  case_bool_decide.
  { case_bool_decide; [apply kept_ret | apply kept_setTimeout]. }
  apply (kept_push_history
           (fun a2 => {| h_position := currentPosition a2;
                         h_move := lm_san found; h_correct := true |})).
  intros a2. case_bool_decide.
  - apply kept_bind; [apply kept_markNodeAsStudied | intros _].
    apply kept_bind; [apply kept_setTimeout | intros _].
    apply kept_updateTrainingStatus.
  - apply kept_bind; [apply kept_updateTrainingStatus | intros _].
    apply kept_bind; [apply kept_step, step_isOpponentTurn | intros _].
    apply kept_setTimeout.
Qed.

Lemma kept_handleDragDropMove (from to : string) :
  kept R (handleDragDropMove serve chess_moves chess_move from to).
Proof.
  unfold handleDragDropMove.
  apply kept_bind; [apply kept_get_app | intros a].
  destruct (trainingMode a); [apply kept_handleTrainingMove |].
  destruct (isOwnRepertoire a).
  - apply kept_bind; [apply kept_legalMovesOf | intros legalMoves].
    destruct (find_legal from to legalMoves) as [found |];
      [| apply kept_renderChessBoard].
    destruct (chess_move (currentPosition a) from to) as [newFen |];
      [| apply kept_throw].
    apply kept_bind; [apply kept_sendMoveToBackend | intros [c |]];
      [apply kept_updateAppStateWithNode |].
    apply kept_bind; [apply kept_renderChessBoard | intros _].
    apply kept_window_updateLegalMovesFromBackend_call.
  - apply kept_try; [| intros _; apply kept_renderChessBoard].
    destruct (find_index _ _) as [moveIndex |];
      [apply kept_handleMoveClick | apply kept_renderChessBoard].
Qed.

End Handlers.

(** ** The three invariants *)

(** An assignment to one field of [appState]. *)
Ltac field_step :=
  intros; match goal with w : World _ |- _ => open_world w end.

#[global] Instance learning_kept_steps {Server} :
  StepInvariant (@learning_kept Server).
Proof.
  split;
    try by (field_step; unfold learning_kept; cbn; repeat split;
            exists []; rewrite app_nil_r).
  - intros w. unfold learning_kept. repeat split.
    exists []. by rewrite app_nil_r.
  - intros w1 w2 w3 (H1 & H2 & H3 & H4 & H5 & H6 & H7 & l1 & Hl1 & Hn1)
                    (G1 & G2 & G3 & G4 & G5 & G6 & G7 & l2 & Hl2 & Hn2).
    unfold learning_kept. repeat split; try congruence.
    exists (l1 ++ l2)%list. split.
    + by rewrite Hl2, Hl1, app_assoc.
    + rewrite forallb_app. by rewrite Hn1, Hn2.
  - intros req s w Hreq. unfold learning_kept. cbn. repeat split.
    exists [req]. split; [done |]. cbn. by rewrite Hreq.
  - intros fen pc w.
    destruct (renderChessBoard_run fen pc w) as (_ & Happ & Hreq & _).
    unfold learning_kept, exec. rewrite Happ, Hreq. repeat split.
    + unfold renderChessBoard, mbind, M_bind, get_cg, get_app, cg_set,
        setTimeout. cbn. by destruct (cg w).
    + exists []. by rewrite app_nil_r.
  - field_step. unfold learning_kept, exec, showAvailableMovesArrows,
      clearArrows, isBoardReady, mbind, M_bind, get_app, assign, cg_set,
      setTimeout. cbn.
    destruct a_training; cbn;
      [repeat split; exists []; by rewrite app_nil_r |].
    case_bool_decide; cbn;
      [repeat split; exists []; by rewrite app_nil_r |].
    destruct board as [b |]; cbn; [destruct (boardElem pg && cg_ready b); cbn |];
      repeat split; exists []; by rewrite app_nil_r.
Qed.

#[global] Instance session_grows_steps {Server} :
  StepInvariant (@session_grows Server).
Proof.
  split; try by field_step.
  - intros w. by unfold session_grows.
  - intros w1 w2 w3 (H1 & H2 & H3 & H4) (G1 & G2 & G3 & G4).
    unfold session_grows. repeat split; by etrans.
  - intros req s w _. unfold session_grows. cbn. repeat split; try done.
    by apply prefix_app_r.
  - intros t w. unfold session_grows. cbn. repeat split; try done.
    by apply prefix_app_r.
  - intros fen pc w.
    destruct (renderChessBoard_run fen pc w) as (_ & Happ & Hreq & _).
    unfold session_grows, exec. rewrite Happ, Hreq. repeat split; try done.
    unfold renderChessBoard, mbind, M_bind, get_cg, get_app, cg_set,
      setTimeout. cbn. destruct (cg w); cbn; [done | by apply prefix_app_r].
  - field_step. unfold session_grows, exec, showAvailableMovesArrows,
      clearArrows, isBoardReady, mbind, M_bind, get_app, assign, cg_set,
      setTimeout. cbn.
    destruct a_training; cbn; [done |].
    case_bool_decide; cbn; [done |].
    destruct board as [b |]; cbn; [destruct (boardElem pg && cg_ready b); cbn |];
      repeat split; try done; by apply prefix_app_r.
  - field_step. unfold session_grows. cbn. repeat split; try done.
    apply union_subseteq_r.
  - field_step. unfold session_grows. cbn. repeat split; try done.
    by apply prefix_app_r.
Qed.

#[global] Instance board_kept_steps {Server} :
  StepInvariant (@board_kept Server).
Proof.
  split;
    try by (field_step; unfold board_kept; cbn; repeat split; destruct board).
  - intros w. unfold board_kept. repeat split. by destruct (cg w).
  - intros w1 w2 w3 (H1 & H2 & H3) (G1 & G2 & G3).
    unfold board_kept. split; [congruence |]. split; [congruence |].
    destruct (cg w1) as [b1 |], (cg w2) as [b2 |], (cg w3) as [b3 |];
      try done.
    destruct H3 as (Hu & Hr & Hs), G3 as (Gu & Gr & Gs).
    repeat split; [congruence | congruence |].
    intros Htrain s Hin. apply Hs; [done |]. apply Gs; [congruence | done].
  - field_step. unfold board_kept, exec, showAvailableMovesArrows,
      clearArrows, isBoardReady, mbind, M_bind, get_app, assign, cg_set,
      setTimeout, userShapes. cbn.
    destruct a_training; cbn.
    { split; [done |]. split; [done |]. destruct board as [b |]; cbn; [| done].
      split; [apply userShapes_again |]. split; [done |].
      intros _ s Hin. by apply list_elem_of_filter in Hin as [_ Hin]. }
    case_bool_decide; cbn.
    { split; [done |]. split; [done |]. destruct board as [b |]; cbn; [| done].
      split; [apply userShapes_again |]. by split. }
    destruct board as [b |]; cbn; [| done].
    destruct (boardElem pg && cg_ready b) eqn:Hready; cbn;
      (split; [done |]); (split; [done |]).
    + split; [| by split].
      by rewrite filter_app, !userShapes_again, newArrows_system, app_nil_r.
    + split; [apply userShapes_again |]. by split.
Qed.

(** X22.  Navigation and training moves never touch the learning
    statistics.  After [handleMoveClick], [handleDragDropMove],
    [handleTrainingMove] and [playOpponentMove], whatever the backend and
    chess.js do, [directlyLearnedNodes], [mistakeCount], the statistics
    shown, the session id, the training mode, the player and the colour
    are as before, and every request sent is one of [find_moves],
    [get_child_node], [get_unstudied_moves], [mark_studied] and
    [get_progress], the request of [updateTrainingStatus]: none of them
    marks a node as directly learned or records a mistake. *)
Theorem handlers_keep_learning_state {Server}
    (serve : Request -> Server -> Reply * Server)
    (chess_moves : option string -> option (list LegalMove))
    (chess_move : option string -> string -> string -> option string)
    (w : World Server) :
  (forall i, learning_kept w (exec (handleMoveClick serve chess_moves i) w))
  /\ (forall from to,
        learning_kept w
          (exec (handleDragDropMove serve chess_moves chess_move from to) w))
  /\ (forall from to,
        learning_kept w
          (exec (handleTrainingMove serve chess_moves chess_move from to) w))
  /\ (forall i, learning_kept w (exec (playOpponentMove serve chess_moves i) w)).
Proof.
  split_and!; intros.
  - apply (kept_handleMoveClick serve chess_moves (@learning_kept Server)).
  - apply (kept_handleDragDropMove serve chess_moves chess_move
             (@learning_kept Server)).
  - apply (kept_handleTrainingMove serve chess_moves chess_move
             (@learning_kept Server)).
  - apply (kept_playOpponentMove serve chess_moves (@learning_kept Server)).
Qed.

(** X23.  The same four handlers take nothing back: afterwards the
    studied nodes include those from before, and the training history,
    the timers and the requests begin with what was there before. *)
Theorem handlers_take_nothing_back {Server}
    (serve : Request -> Server -> Reply * Server)
    (chess_moves : option string -> option (list LegalMove))
    (chess_move : option string -> string -> string -> option string)
    (w : World Server) :
  (forall i, session_grows w (exec (handleMoveClick serve chess_moves i) w))
  /\ (forall from to,
        session_grows w
          (exec (handleDragDropMove serve chess_moves chess_move from to) w))
  /\ (forall from to,
        session_grows w
          (exec (handleTrainingMove serve chess_moves chess_move from to) w))
  /\ (forall i, session_grows w (exec (playOpponentMove serve chess_moves i) w)).
Proof.
  split_and!; intros.
  - apply (kept_handleMoveClick serve chess_moves (@session_grows Server)).
  - apply (kept_handleDragDropMove serve chess_moves chess_move
             (@session_grows Server)).
  - apply (kept_handleTrainingMove serve chess_moves chess_move
             (@session_grows Server)).
  - apply (kept_playOpponentMove serve chess_moves (@session_grows Server)).
Qed.

(** X24.  The same four handlers leave the user's drawings alone: the
    board is there or missing as before, the shapes the user drew are the
    same, in order, the board is as ready as before and the orientation
    setting is unchanged.  In training mode they draw nothing: every shape
    on the board afterwards was on it before. *)
Theorem handlers_keep_user_shapes {Server}
    (serve : Request -> Server -> Reply * Server)
    (chess_moves : option string -> option (list LegalMove))
    (chess_move : option string -> string -> string -> option string)
    (w : World Server) :
  (forall i, board_kept w (exec (handleMoveClick serve chess_moves i) w))
  /\ (forall from to,
        board_kept w
          (exec (handleDragDropMove serve chess_moves chess_move from to) w))
  /\ (forall from to,
        board_kept w
          (exec (handleTrainingMove serve chess_moves chess_move from to) w))
  /\ (forall i, board_kept w (exec (playOpponentMove serve chess_moves i) w)).
Proof.
  split_and!; intros.
  - apply (kept_handleMoveClick serve chess_moves (@board_kept Server)).
  - apply (kept_handleDragDropMove serve chess_moves chess_move
             (@board_kept Server)).
  - apply (kept_handleTrainingMove serve chess_moves chess_move
             (@board_kept Server)).
  - apply (kept_playOpponentMove serve chess_moves (@board_kept Server)).
Qed.


(** ** The learning statistics over the events of the page *)

#[global] Instance stats_kept_steps {Server} :
  StepInvariant (@stats_kept Server).
Proof.
  split; try by (field_step; unfold stats_kept; cbn).
  - intros w. by unfold stats_kept.
  - intros w1 w2 w3 (H1 & H2 & H3) (G1 & G2 & G3).
    unfold stats_kept. repeat split; congruence.
  - intros fen pc w.
    destruct (renderChessBoard_run fen pc w) as (_ & Happ & _).
    unfold stats_kept, exec. rewrite Happ. repeat split.
    unfold renderChessBoard, mbind, M_bind, get_cg, get_app, cg_set,
      setTimeout. cbn. by destruct (cg w).
  - field_step. unfold stats_kept, exec, showAvailableMovesArrows,
      clearArrows, isBoardReady, mbind, M_bind, get_app, assign, cg_set,
      setTimeout. cbn.
    destruct a_training; cbn; [done |].
    case_bool_decide; cbn; [done |].
    by destruct board as [b |]; cbn;
      [destruct (boardElem pg && cg_ready b); cbn |].
Qed.

Section Events.
Context {Server : Type}.
Variable serve : Request -> Server -> Reply * Server.
Variable chess_moves : option string -> option (list LegalMove).
Variable chess_move : option string -> string -> string -> option string.



(** A step lemma at the relation [stats_kept]. *)
Tactic Notation "kapply" uconstr(lemma) :=
  apply lemma; [exact stats_kept_steps | ..].










End Events.




(** ** Reading the learning statistics *)

Lemma size_list_to_set_le (l : list NodeId) :
  (size (list_to_set l : gset NodeId) <= length l)%nat.
Proof.
  induction l as [| n l IH]; [done |].
  cbn [list_to_set length]. rewrite size_union_alt, size_singleton.
  assert (size (list_to_set l ∖ {[n]} : gset NodeId)
          <= size (list_to_set l : gset NodeId))%nat
    by (by apply subseteq_size, subseteq_difference_l).
  lia.
Qed.

(** X25.  [getLearningStats] never throws: it returns the body of the
    reply, or [null] when there is none.  If the reply reports success,
    [directlyLearnedNodes] becomes the set of the ids in the reply (so the
    learned count is at most their number) and [mistakeCount] the count in
    the reply, 0 if it is missing; otherwise [appState] is unchanged.  In
    no case is the statistics text on the page written. *)
Theorem getLearningStats_run {Server}
    (serve : Request -> Server -> Reply * Server)
    (sessionId : option string) (w : World Server) :
  let reply := (serve (GetLearningStats sessionId) (server w)).1 in
  let w' := exec (getLearningStats serve sessionId) w in
  result (getLearningStats serve sessionId) w
    = Normal (match reply with Json d => Some d | _ => None end)
  /\ learningStats w' = learningStats w
  /\ (reports_success reply = false -> app w' = app w)
  /\ (forall d, reply = Json d -> success d = true ->
        let ids := default [] (directly_learned_node_ids d) in
        (forall n, n ∈ directlyLearnedNodes (app w') <-> n ∈ ids)
        /\ (learnedCount (app w') <= length ids)%nat
        /\ mistakeCount (app w') = Some (num_or0 (mistake_count d))
        /\ app w'
           = set_mistakeCount (Some (num_or0 (mistake_count d)))
               (set_directlyLearnedNodes (list_to_set ids) (app w))).
Proof.
  open_world w.
  unfold exec, result, getLearningStats, try_catch, fetch, mbind, M_bind,
    assign, learnedCount.
  cbn.
  destruct (serve (GetLearningStats _) sv) as [[| | | d] s]; cbn;
    try (split_and!; done).
  destruct (success d) eqn:Hok; cbn.
  - split_and!; try done. intros d' [= <-] _. cbn. split_and!; try done.
    + intros n. apply elem_of_list_to_set.
    + apply size_list_to_set_le.
  - split_and!; try done. intros d' [= <-]. congruence.
Qed.

(** ** The learning calls *)

(** X26.  If the statistics text on the page agrees with [appState]
    before a call of [handleCorrectMove] or [handleMistake], it agrees
    afterwards, whatever the backend answers and even if the call
    throws. *)
Theorem learning_display_stays_in_sync {Server}
    (serve : Request -> Server -> Reply * Server)
    (nodeId : NodeId) (w : World Server) :
  learningStats w = Some (learningStatsText (app w)) ->
  (let w' := exec (handleCorrectMove serve nodeId) w in
   learningStats w' = Some (learningStatsText (app w')))
  /\ (let w' := exec (handleMistake serve nodeId) w in
      learningStats w' = Some (learningStatsText (app w'))).
Proof.
  intros Hsync. open_world w.
  cbn in Hsync. subst ls.
  unfold exec, handleCorrectMove, handleMistake, markNodeAsDirectlyLearned,
    recordMistake, unmarkNodeAsDirectlyLearned, fetch, mbind, M_bind,
    get_app, assign, updateLearningStatsDisplay.
  cbn. split.
  - destruct (serve (MarkDirectlyLearned _ _) sv) as [[| | | d] s]; cbn;
      try done.
    by destruct (success d && newly_learned d).
  - destruct (serve (RecordMistake _) sv) as [[| | | d1] s1]; cbn; try done.
    destruct (success d1); cbn; case_bool_decide; cbn; try done;
      destruct (serve (UnmarkDirectlyLearned _ _) s1) as [[| | | d2] s2];
      cbn; try done;
      by destruct (success d2 && was_learned d2).
Qed.

Lemma learning_display_stays_in_sync_witness :
  let w := world_of (set_trainingSessionId (Some "s") initialAppState)
             (∅ : gmap string Backend.TrainingSession) in
  let shown := set_learningStats (Some (learningStatsText (app w))) w in
  let w' := exec (handleMistake training_backend (IdNum 1)) shown in
  learningStats w' = Some (learningStatsText (app w')).
Proof.
  intros w shown.
  exact (proj2 (learning_display_stays_in_sync training_backend (IdNum 1)
                  shown eq_refl)).
Defined.

(** X27.  The learning calls have no [try].  When the request of
    [handleCorrectMove] or the first request of [handleMistake] comes
    back without a body, the call throws and [appState] is unchanged.
    When [handleMistake] has recorded the mistake and the request to
    unmark a learned node then comes back without a body, the call throws
    after [mistakeCount] was updated: that update stays, and the node is
    still counted as learned. *)
Theorem learning_calls_propagate_errors {Server}
    (serve : Request -> Server -> Reply * Server)
    (nodeId : NodeId) (w : World Server) :
  let sid := trainingSessionId (app w) in
  let marked := serve (MarkDirectlyLearned nodeId sid) (server w) in
  let recorded := serve (RecordMistake sid) (server w) in
  let unmarked := serve (UnmarkDirectlyLearned nodeId sid) recorded.2 in
  (has_body marked.1 = false ->
     (exists e, result (handleCorrectMove serve nodeId) w = Throw e)
     /\ app (exec (handleCorrectMove serve nodeId) w) = app w
     /\ learningStats (exec (handleCorrectMove serve nodeId) w)
        = learningStats w)
  /\ (has_body recorded.1 = false ->
       (exists e, result (handleMistake serve nodeId) w = Throw e)
       /\ app (exec (handleMistake serve nodeId) w) = app w
       /\ requests (exec (handleMistake serve nodeId) w)
          = (requests w ++ [RecordMistake sid])%list)
  /\ (forall d, recorded.1 = Json d -> success d = true ->
       nodeId ∈ directlyLearnedNodes (app w) ->
       has_body unmarked.1 = false ->
       (exists e, result (handleMistake serve nodeId) w = Throw e)
       /\ app (exec (handleMistake serve nodeId) w)
          = set_mistakeCount (mistake_count d) (app w)).
Proof.
  open_world w.
  unfold exec, result, handleCorrectMove, handleMistake,
    markNodeAsDirectlyLearned, recordMistake, unmarkNodeAsDirectlyLearned,
    fetch, mbind, M_bind, get_app, assign, updateLearningStatsDisplay.
  cbn. split_and!.
  - destruct (serve (MarkDirectlyLearned _ _) sv) as [[| | | d] s]; cbn;
      try done; intros _; by split_and!; [eexists | ..].
  - destruct (serve (RecordMistake _) sv) as [[| | | d] s]; cbn;
      try done; intros _; by split_and!; [eexists | ..].
  - intros d Hd Hok Hin.
    destruct (serve (RecordMistake _) sv) as [r1 s1]. cbn in Hd. subst r1.
    cbn. rewrite Hok. cbn.
    destruct ls; cbn; rewrite bool_decide_eq_true_2 by done; cbn;
      destruct (serve (UnmarkDirectlyLearned _ _) s1) as [[| | | d2] s2];
      cbn; try done; intros _; by split_and!; [eexists | ..].
Qed.
